(** * Vision Pro Streamer (Zeroconf): the streaming and connection engine

    A shallow embedding of [Blender/vision_pro_streamer_zeroconf.py]:
    the module globals, the dependency-graph handler, the connect and
    disconnect operators, the start-streaming operator and the worker
    loop [stream_scene_data], together with the properties the
    specification states about them.

    Conventions.
    - Wall-clock readings ([time.time()]), durations and the inactivity
      threshold are rationals ([Q]); only their order and differences
      matter to the code.
    - Everything the host, the network and the file system decide (the
      clock, the outcome of an export, of [sendall], of [mkdtemp], of
      [rmtree]) is an explicit argument of the function that consumes it.
    - The worker and the host main thread interleave; the calls of the
      dependency-graph handler that fall inside an export are listed in
      the environment of that export, the others are scheduled between
      two iterations (the loop reads [last_model_change_time] only at
      the top of an iteration). *)

From Stdlib Require Import ZArith QArith Lia List.
From Stdlib.Strings Require Import Byte Ascii.
From stdpp Require Import gmap strings list pretty.
Import ListNotations.

Local Open Scope Z_scope.

(** ** Bytes and the length prefix *)

Module Wire.

(** The value of one byte, as [bytes.__getitem__] gives it. *)
Definition byte_val (b : byte) : Z := Z.of_N (Byte.to_N b).

(** The byte holding [z mod 256]. *)
Definition byte_of_Z (z : Z) : byte :=
  default x00 (Byte.of_N (Z.to_N (z mod 256))).

(** The [length] low-order base-256 digits of [v], least significant
    first. *)
Fixpoint digits_le (length : nat) (v : Z) : list byte :=
  match length with
  | O => []
  | S k => byte_of_Z v :: digits_le k (v / 256)
  end.

(** [int.to_bytes(length, 'big')]: [None] stands for the
    [OverflowError] Python raises when the integer is negative or does
    not fit in [length] bytes. *)
Definition to_bytes (v : Z) (length : nat) : option (list byte) :=
  if (0 <=? v) && (v <? 256 ^ Z.of_nat length)
  then Some (rev (digits_le length v))
  else None.

(** [int.from_bytes(bs, 'big')]. *)
Definition from_bytes (bs : list byte) : Z :=
  fold_left (fun acc b => acc * 256 + byte_val b) bs 0.

(** [len(usdz_data)]. *)
Definition len (bs : list byte) : Z := Z.of_nat (length bs).

(** The message of one cycle, lines 520-525: [header + usdz_data] with
    [header = data_length.to_bytes(4, 'big')]. *)
Definition frame (usdz_data : list byte) : option (list byte) :=
  let data_length := len usdz_data in
  match to_bytes data_length 4 with
  | Some header => Some (header ++ usdz_data)
  | None => None
  end.

(** The peer's side of the wire protocol, as the specification words
    it: read a 4-byte unsigned big-endian length [L], then exactly [L]
    payload bytes.  The result is the payload and the unread rest of
    the stream; [None] when the stream ends early. *)
Definition read_frame (stream : list byte) : option (list byte * list byte) :=
  if (length stream <? 4)%nat then None
  else
    let L := Z.to_nat (from_bytes (take 4 stream)) in
    let body := drop 4 stream in
    if (length body <? L)%nat then None
    else Some (take L body, drop L body).

End Wire.

(** ** Module globals, scene properties and the outside world *)

Definition Socket := nat.
Definition Dir := nat.

(** One entry of [vision_pro_devices]. *)
Record DeviceInfo := {
  host : string;
  port : Z;
  addresses : list string;
}.

(** The module-level variables (lines 78-91).  [streaming_thread] is
    [None] or a thread object with its [is_alive()]; [export_lock] is
    [true] while the lock is held. *)
Record Globals := {
  vision_pro_devices : gmap string DeviceInfo;
  current_connection : option Socket;
  streaming_thread : option bool;
  stop_streaming_event : bool;
  last_model_change_time : Q;
  is_exporting_usdz : bool;
  export_lock : bool;
  pending_changes_during_export : bool;
}.

(** What the code reads from [bpy.context.scene]: the add-on's property
    group and [scene.render.fps] (a Blender integer that is at least 1).
    [render_fps] is Blender's [scene.render.fps], the value lines 516
    and 529 read.  [props_render_fps] is the add-on's own property
    [vision_pro_streamer_props.render_fps] (lines 774-780: "Stream FPS",
    "Frames per second to stream the scene to Vision Pro.", 1 to 60,
    default 30), which the panel draws on line 707. *)
Record Scene := {
  selected_device_name : string;
  is_streaming : bool;
  stream_only_when_active : bool;
  inactivity_threshold : Q;
  render_fps : positive;
  props_render_fps : positive;
}.

(** What lives outside the interpreter: the connected sockets of the
    process, the scratch directories on disk, and the bytes that reached
    the peer. *)
Record Outside := {
  live_sockets : gset Socket;
  next_socket : Socket;
  tmp_dirs : gset Dir;
  next_dir : Dir;
  wire : list byte;
}.

(** [temp_dir] is the local variable of the running [stream_scene_data]. *)
Record World := {
  globals : Globals;
  scene : Scene;
  outside : Outside;
  temp_dir : option Dir;
}.

(** *** Field updates *)

Definition with_globals (f : Globals → Globals) (w : World) : World :=
  {| globals := f (globals w); scene := scene w; outside := outside w;
     temp_dir := temp_dir w |}.

Definition with_scene (f : Scene → Scene) (w : World) : World :=
  {| globals := globals w; scene := f (scene w); outside := outside w;
     temp_dir := temp_dir w |}.

Definition with_outside (f : Outside → Outside) (w : World) : World :=
  {| globals := globals w; scene := scene w; outside := f (outside w);
     temp_dir := temp_dir w |}.

Definition set_temp_dir (d : option Dir) (w : World) : World :=
  {| globals := globals w; scene := scene w; outside := outside w;
     temp_dir := d |}.

Definition set_current_connection (v : option Socket) (g : Globals) : Globals :=
  {| vision_pro_devices := vision_pro_devices g; current_connection := v;
     streaming_thread := streaming_thread g;
     stop_streaming_event := stop_streaming_event g;
     last_model_change_time := last_model_change_time g;
     is_exporting_usdz := is_exporting_usdz g; export_lock := export_lock g;
     pending_changes_during_export := pending_changes_during_export g |}.

Definition set_streaming_thread (v : option bool) (g : Globals) : Globals :=
  {| vision_pro_devices := vision_pro_devices g;
     current_connection := current_connection g; streaming_thread := v;
     stop_streaming_event := stop_streaming_event g;
     last_model_change_time := last_model_change_time g;
     is_exporting_usdz := is_exporting_usdz g; export_lock := export_lock g;
     pending_changes_during_export := pending_changes_during_export g |}.

Definition set_stop_streaming_event (v : bool) (g : Globals) : Globals :=
  {| vision_pro_devices := vision_pro_devices g;
     current_connection := current_connection g;
     streaming_thread := streaming_thread g; stop_streaming_event := v;
     last_model_change_time := last_model_change_time g;
     is_exporting_usdz := is_exporting_usdz g; export_lock := export_lock g;
     pending_changes_during_export := pending_changes_during_export g |}.

Definition set_last_model_change_time (v : Q) (g : Globals) : Globals :=
  {| vision_pro_devices := vision_pro_devices g;
     current_connection := current_connection g;
     streaming_thread := streaming_thread g;
     stop_streaming_event := stop_streaming_event g;
     last_model_change_time := v;
     is_exporting_usdz := is_exporting_usdz g; export_lock := export_lock g;
     pending_changes_during_export := pending_changes_during_export g |}.

Definition set_is_exporting_usdz (v : bool) (g : Globals) : Globals :=
  {| vision_pro_devices := vision_pro_devices g;
     current_connection := current_connection g;
     streaming_thread := streaming_thread g;
     stop_streaming_event := stop_streaming_event g;
     last_model_change_time := last_model_change_time g;
     is_exporting_usdz := v; export_lock := export_lock g;
     pending_changes_during_export := pending_changes_during_export g |}.

Definition set_export_lock (v : bool) (g : Globals) : Globals :=
  {| vision_pro_devices := vision_pro_devices g;
     current_connection := current_connection g;
     streaming_thread := streaming_thread g;
     stop_streaming_event := stop_streaming_event g;
     last_model_change_time := last_model_change_time g;
     is_exporting_usdz := is_exporting_usdz g; export_lock := v;
     pending_changes_during_export := pending_changes_during_export g |}.

Definition set_pending_changes_during_export (v : bool) (g : Globals) : Globals :=
  {| vision_pro_devices := vision_pro_devices g;
     current_connection := current_connection g;
     streaming_thread := streaming_thread g;
     stop_streaming_event := stop_streaming_event g;
     last_model_change_time := last_model_change_time g;
     is_exporting_usdz := is_exporting_usdz g; export_lock := export_lock g;
     pending_changes_during_export := v |}.

Definition set_is_streaming (v : bool) (s : Scene) : Scene :=
  {| selected_device_name := selected_device_name s; is_streaming := v;
     stream_only_when_active := stream_only_when_active s;
     inactivity_threshold := inactivity_threshold s;
     render_fps := render_fps s;
     props_render_fps := props_render_fps s |}.

Definition open_socket (s : Socket) (o : Outside) : Outside :=
  {| live_sockets := {[s]} ∪ live_sockets o; next_socket := S (next_socket o);
     tmp_dirs := tmp_dirs o; next_dir := next_dir o; wire := wire o |}.

Definition fresh_socket (o : Outside) : Outside :=
  {| live_sockets := live_sockets o; next_socket := S (next_socket o);
     tmp_dirs := tmp_dirs o; next_dir := next_dir o; wire := wire o |}.

Definition close_socket (s : Socket) (o : Outside) : Outside :=
  {| live_sockets := live_sockets o ∖ {[s]}; next_socket := next_socket o;
     tmp_dirs := tmp_dirs o; next_dir := next_dir o; wire := wire o |}.

Definition create_dir (o : Outside) : Outside :=
  {| live_sockets := live_sockets o; next_socket := next_socket o;
     tmp_dirs := {[next_dir o]} ∪ tmp_dirs o; next_dir := S (next_dir o);
     wire := wire o |}.

Definition remove_dir (d : Dir) (o : Outside) : Outside :=
  {| live_sockets := live_sockets o; next_socket := next_socket o;
     tmp_dirs := tmp_dirs o ∖ {[d]}; next_dir := next_dir o; wire := wire o |}.

Definition write_wire (bs : list byte) (o : Outside) : Outside :=
  {| live_sockets := live_sockets o; next_socket := next_socket o;
     tmp_dirs := tmp_dirs o; next_dir := next_dir o; wire := wire o ++ bs |}.

(** ** What the code does to its surroundings *)

(** The arguments of [status_message_realtime_update] the loop uses. *)
Inductive Status :=
  | Streaming
  | Idle (idle_duration : Q)
  | ExportError
  | ExportFailedTimedOut
  | Sent (data_length : Z) (fps : positive)
  | StreamingStopped.

(** The callbacks handed to [bpy.app.timers.register]. *)
Inductive Timer :=
  | StatusUpdate (msg : Status)
  | ExportCallback (path : Dir)
  | DisconnectOperator.

Inductive Event :=
  | Register (t : Timer)
  | Sleep (seconds : Q)
  | Mkdtemp (d : Dir)
  | Sendall (data : list byte)
  | Rmtree (d : Dir).

(** The exceptions that reach the handlers of [stream_scene_data]. *)
Inductive OSErr :=
  | BrokenPipeError
  | ConnectionResetError
  | ConnectionAbortedError
  | OtherOSError.

Inductive Exn :=
  | OSError (k : OSErr)
  | OverflowError.

(** ** The control monad of the worker

    A statement either completes, leaves through [continue], or raises;
    it updates the world and emits events, oldest first. *)

Inductive Outcome (A : Type) :=
  | Normal (a : A)
  | Continue
  | Raise (e : Exn).
Arguments Normal {A} a.
Arguments Continue {A}.
Arguments Raise {A} e.

Definition M (A : Type) : Type := World → Outcome A * World * list Event.

Global Instance M_ret : MRet M := λ A a w, (Normal a, w, []).

Global Instance M_bind : MBind M := λ A B k m w,
  match m w with
  | (Normal a, w1, ev1) =>
      match k a w1 with (o, w2, ev2) => (o, w2, ev1 ++ ev2) end
  | (Continue, w1, ev1) => (Continue, w1, ev1)
  | (Raise e, w1, ev1) => (Raise e, w1, ev1)
  end.

Definition continue {A} : M A := fun w => (Continue, w, []).
Definition raise {A} (e : Exn) : M A := fun w => (Raise e, w, []).
Definition get {A} (f : World → A) : M A := fun w => (Normal (f w), w, []).
Definition modify (f : World → World) : M unit := fun w => (Normal tt, f w, []).
Definition emit (e : Event) : M unit := fun w => (Normal tt, w, [e]).

(** [try: body finally: fin].  A [continue] or an exception that leaves
    [fin] replaces whatever [body] was leaving with: Python discards the
    exception in flight when a [finally] clause runs [continue]. *)
Definition try_finally {A} (body : M A) (fin : M unit) : M A := fun w =>
  match body w with
  | (o, w1, ev1) =>
      match fin w1 with
      | (Normal _, w2, ev2) => (o, w2, ev1 ++ ev2)
      | (Continue, w2, ev2) => (Continue, w2, ev1 ++ ev2)
      | (Raise e, w2, ev2) => (Raise e, w2, ev1 ++ ev2)
      end
  end.

(** [try: body except <classes> as e: handler e]. *)
Definition try_except {A} (body : M A) (catches : Exn → bool)
    (handler : Exn → M A) : M A := fun w =>
  match body w with
  | (Raise e, w1, ev1) =>
      if catches e then
        match handler e w1 with (o, w2, ev2) => (o, w2, ev1 ++ ev2) end
      else (Raise e, w1, ev1)
  | r => r
  end.

(** [except (socket.error, OSError)]: [socket.error] is [OSError]. *)
Definition is_OSError (e : Exn) : bool :=
  match e with OSError _ => true | OverflowError => false end.

Definition Qltb (x y : Q) : bool := negb (Qle_bool y x).

(** ** The dependency-graph handler (lines 93-107) *)

(** [depsgraph_handler_update_time(scene)], with the reading of
    [time.time()] as an argument. *)
Definition depsgraph_handler_update_time (now : Q) (g : Globals) : Globals :=
  if negb (is_exporting_usdz g)
  then set_last_model_change_time now g
  else set_pending_changes_during_export true g.

(** ** The environment of one loop iteration *)

(** What becomes of the export callback scheduled on the main thread. *)
Inductive ExportOutcome :=
  | Exported (usdz_data : list byte)
      (** [usd_export] and the read of the file succeeded in time *)
  | ExportRaised (caught : bool)
      (** the callback raised in time; [caught] when the exception is one
          of [RuntimeError], [OSError], [IOError] *)
  | ExportTimedOut (running : bool).
      (** [event.wait(timeout=5)] gave up; [running] when the callback
          had started by then *)

(** What becomes of [sock.sendall(data)]: on an error, [written] bytes
    had reached the peer. *)
Inductive SendOutcome :=
  | SendCompleted
  | SendRaised (k : OSErr) (written : nat).

Record Cycle := {
  now : Q;                      (** [time.time()] at the activity gate *)
  mkdtemp_error : option OSErr; (** the error of [tempfile.mkdtemp], if any *)
  export : ExportOutcome;
  changes : list Q;             (** handler calls while the export runs *)
  send : SendOutcome;
}.

(** ** The worker: primitive statements *)

Definition timers_register (t : Timer) : M unit := emit (Register t).

Definition time_sleep (seconds : Q) : M unit := emit (Sleep seconds).

(** [export_lock.acquire(blocking=False)]. *)
Definition export_lock_acquire : M bool := λ w,
  if export_lock (globals w) then (Normal false, w, [])
  else (Normal true, with_globals (set_export_lock true) w, []).

Definition export_lock_release : M unit :=
  modify (with_globals (set_export_lock false)).

(** [tempfile.mkdtemp(prefix=...)]: a directory that did not exist. *)
Definition mkdtemp (err : option OSErr) : M Dir := λ w,
  match err with
  | Some k => (Raise (OSError k), w, [])
  | None =>
      let d := next_dir (outside w) in
      (Normal d, with_outside create_dir w, [Mkdtemp d])
  end.

(** [export_usdz_in_main_thread_cb], run by the main thread: the flag is
    raised, the exporter runs (and the handler fires [changes] times),
    the flag is lowered in the [finally] clause.  The result is
    [usdz_data]. *)
Definition export_usdz_in_main_thread_cb (result : option (list byte))
    (caught : bool) (changes : list Q) : M (option (list byte)) :=
  modify (with_globals (set_is_exporting_usdz true));;
  modify (with_globals (λ g, foldl (λ g t, depsgraph_handler_update_time t g) g changes));;
  (if caught then timers_register (StatusUpdate ExportError) else mret tt);;
  modify (with_globals (set_is_exporting_usdz false));;
  mret result.

(** Lines 509-510: the callback is scheduled and the worker waits up to
    five seconds.  The result is [(event.is_set(), usdz_data)]. *)
Definition schedule_export_and_wait (path : Dir) (o : ExportOutcome)
    (changes : list Q) : M (bool * option (list byte)) :=
  timers_register (ExportCallback path);;
  match o with
  | Exported usdz_data =>
      r ← export_usdz_in_main_thread_cb (Some usdz_data) false changes;
      mret (true, r)
  | ExportRaised caught =>
      r ← export_usdz_in_main_thread_cb None caught changes;
      mret (true, r)
  | ExportTimedOut running =>
      (if running then
         modify (with_globals (set_is_exporting_usdz true));;
         modify (with_globals (λ g, foldl (λ g t, depsgraph_handler_update_time t g) g changes))
       else mret tt);;
      mret (false, None)
  end.

(** [data_length.to_bytes(4, 'big')]. *)
Definition to_bytes_4_big (data_length : Z) : M (list byte) :=
  match Wire.to_bytes data_length 4 with
  | Some header => mret header
  | None => raise OverflowError
  end.

(** [sock.sendall(data)]. *)
Definition sock_sendall (data : list byte) (o : SendOutcome) : M unit := λ w,
  match o with
  | SendCompleted => (Normal tt, with_outside (write_wire data) w, [Sendall data])
  | SendRaised k written =>
      (Raise (OSError k), with_outside (write_wire (take written data)) w,
       [Sendall data])
  end.

(** ** The worker: one iteration of the [while] loop (lines 428-545) *)

(** Lines 430-449. *)
Definition activity_gate (c : Cycle) : M unit :=
  scene_props ← get scene;
  if stream_only_when_active scene_props then
    let current_time := now c in
    last ← get (λ w, last_model_change_time (globals w));
    let idle_duration := (current_time - last)%Q in
    let is_active := Qltb idle_duration (inactivity_threshold scene_props) in
    if negb is_active then
      timers_register (StatusUpdate (Idle idle_duration));;
      time_sleep (1 # 2);;
      continue
    else mret tt
  else mret tt.

(** Lines 456-536, the body of the inner [try]. *)
Definition export_and_send (c : Cycle) : M unit :=
  d ← mkdtemp (mkdtemp_error c);
  modify (set_temp_dir (Some d));;
  r ← schedule_export_and_wait d (export c) (changes c);
  match r with
  | (true, Some usdz_data) =>
      let data_length := Wire.len usdz_data in
      header ← to_bytes_4_big data_length;
      try_except
        (sock_sendall (header ++ usdz_data) (send c);;
         fps ← get (λ w, render_fps (scene w));
         timers_register (StatusUpdate (Sent data_length fps));;
         time_sleep (1 # fps))
        is_OSError
        (λ e, raise e)
  | _ =>
      timers_register (StatusUpdate ExportFailedTimedOut);;
      fps ← get (λ w, render_fps (scene w));
      time_sleep (1 # fps);;
      continue
  end.

(** Lines 537-545, the [finally] clause of the inner [try]. *)
Definition release_and_check_pending : M unit :=
  export_lock_release;;
  pending ← get (λ w, pending_changes_during_export (globals w));
  if (pending : bool) then
    modify (with_globals (set_pending_changes_during_export false));;
    continue
  else mret tt.

(** Lines 451-545: the export, under the lock. *)
Definition guarded_export (c : Cycle) : M unit :=
  acquired ← export_lock_acquire;
  if negb (acquired : bool) then continue
  else try_finally (export_and_send c) release_and_check_pending.

Definition loop_body (c : Cycle) : M unit :=
  activity_gate c;;
  guarded_export c.

(** ** What the main thread does between two iterations *)

(** [VSP_OT_StopStreaming.execute] (lines 637-657). *)
Definition stop_streaming_execute (w : World) : World :=
  with_scene (set_is_streaming false)
    (with_globals (set_stop_streaming_event true) w).

Inductive External :=
  | DepsgraphUpdate (now : Q)
      (** Blender fires [depsgraph_update_post] *)
  | StopStreaming
      (** the user presses Stop Streaming *)
  | ExportCallbackReturns
      (** the [finally] clause of a callback that outlived the wait *)
  | SceneEdited (s : Scene).
      (** the user edits scene properties *)

Definition apply_external (w : World) (x : External) : World :=
  match x with
  | DepsgraphUpdate t => with_globals (depsgraph_handler_update_time t) w
  | StopStreaming => stop_streaming_execute w
  | ExportCallbackReturns => with_globals (set_is_exporting_usdz false) w
  | SceneEdited s => with_scene (λ _, s) w
  end.

(** One turn of the loop: what happened since the previous iteration
    ended, then the environment of the iteration itself. *)
Record Step := {
  before : list External;
  cycle : Cycle;
}.

(** ** The worker: [stream_scene_data] (lines 415-570) *)

(** How far a finite schedule takes the loop: out of it, or still
    inside when the schedule ends. *)
Inductive LoopExit :=
  | Exited
  | StillRunning.

(** [while not stop_event.is_set(): ...]. *)
Fixpoint while_not_stopped (sched : list Step) : M LoopExit := λ w,
  match sched with
  | [] => (Normal StillRunning, w, [])
  | st :: rest =>
      let w0 := foldl apply_external w (before st) in
      if stop_streaming_event (globals w0) then (Normal Exited, w0, [])
      else
        match loop_body (cycle st) w0 with
        | (Raise e, w1, ev1) => (Raise e, w1, ev1)
        | (_, w1, ev1) =>
            match while_not_stopped rest w1 with
            | (o, w2, ev2) => (o, w2, ev1 ++ ev2)
            end
        end
  end.

(** The three [except] clauses of lines 547-558 name
    [BrokenPipeError], [ConnectionResetError], [ConnectionAbortedError],
    then [socket.error], then [RuntimeError] and [IOError]; they have
    the same body. *)
Definition caught_by_stream (e : Exn) : bool :=
  match e with
  | OSError _ => true
  | OverflowError => false
  end.

Definition stream_error_handler : M LoopExit :=
  timers_register DisconnectOperator;;
  modify (with_globals (set_stop_streaming_event true));;
  mret Exited.

(** Lines 559-565, the outer [finally] clause. *)
Definition cleanup_temp_dir (rmtree_ok : bool) : M unit := λ w,
  match temp_dir w with
  | Some d =>
      if bool_decide (d ∈ tmp_dirs (outside w)) then
        if rmtree_ok
        then (Normal tt, with_outside (remove_dir d) w, [Rmtree d])
        else (Normal tt, w, [Rmtree d])
      else (Normal tt, w, [])
  | None => (Normal tt, w, [])
  end.

(** A statement that leaves the way [o] says. *)
Definition leave {A} (o : Outcome A) : M A := λ w, (o, w, []).

(** Lines 547-570: what happens once the [while] statement is left
    the way [o] says: the [except] clauses, the [finally] clause, the
    last status update. *)
Definition stream_exit (o : Outcome LoopExit) (rmtree_ok : bool) : M LoopExit :=
  try_finally
    (try_except (leave o) caught_by_stream (λ _, stream_error_handler))
    (cleanup_temp_dir rmtree_ok);;
  timers_register (StatusUpdate StreamingStopped);;
  mret Exited.

(** Lines 421-427: the statements before the [try]. *)
Definition stream_enter : M unit :=
  timers_register (StatusUpdate Streaming);;
  modify (set_temp_dir None).

(** The thread function.  [StillRunning] when the schedule ends with
    the thread still inside the loop. *)
Definition stream_scene_data (sched : list Step) (rmtree_ok : bool)
    : M LoopExit := λ w,
  match (stream_enter;; while_not_stopped sched) w with
  | (Normal StillRunning, w1, ev1) => (Normal StillRunning, w1, ev1)
  | (o, w1, ev1) =>
      match stream_exit o rmtree_ok w1 with
      | (o2, w2, ev2) => (o2, w2, ev1 ++ ev2)
      end
  end.

(** ** The operators *)

Inductive OpResult :=
  | FINISHED
  | CANCELLED
  | POLL_FAILED.
      (** Blender refuses to run an operator whose [poll] is false *)

(** [bpy.ops.<operator>()]: [poll], then [execute]. *)
Definition call (poll : World → bool) (execute : World → OpResult * World)
    (w : World) : OpResult * World :=
  if poll w then execute w else (POLL_FAILED, w).

(** *** [VSP_OT_ConnectToVisionPro] (lines 316-367) *)

Inductive ConnectOutcome :=
  | ConnectSucceeds
  | ConnectRaises.   (** [socket.error], the five-second timeout included *)

Definition connect_poll (w : World) : bool :=
  let name := selected_device_name (scene w) in
  negb (String.eqb name "")
  && bool_decide (is_Some (vision_pro_devices (globals w) !! name))
  && bool_decide (current_connection (globals w) = None).

(** Lines 342-343. *)
Definition connect_target (device_info : DeviceInfo) : string * Z :=
  (match addresses device_info with
   | a :: _ => a
   | [] => host device_info
   end,
   port device_info).

Definition connect_execute (o : ConnectOutcome) (w : World) : OpResult * World :=
  let device_full_name := selected_device_name (scene w) in
  match vision_pro_devices (globals w) !! device_full_name with
  | None => (CANCELLED, w)
  | Some device_info =>
      let s := next_socket (outside w) in
      match o with
      | ConnectSucceeds =>
          (FINISHED,
           with_globals (set_current_connection (Some s))
             (with_outside (open_socket s) w))
      | ConnectRaises =>
          (CANCELLED,
           with_globals (set_current_connection None)
             (with_outside fresh_socket w))
      end
  end.

Definition VSP_OT_ConnectToVisionPro (o : ConnectOutcome) :=
  call connect_poll (connect_execute o).

(** *** [VSP_OT_DisconnectVisionPro] (lines 369-412) *)

Definition disconnect_poll (w : World) : bool :=
  bool_decide (current_connection (globals w) ≠ None).

Definition disconnect_execute (w : World) : OpResult * World :=
  let w1 :=
    match streaming_thread (globals w) with
    | Some true =>
        with_scene (set_is_streaming false)
          (with_globals
             (λ g, set_stop_streaming_event false (set_streaming_thread None g)) w)
    | _ => w
    end in
  match current_connection (globals w1) with
  | Some s =>
      (FINISHED,
       with_globals (set_current_connection None)
         (with_outside (close_socket s) w1))
  | None => (FINISHED, w1)
  end.

Definition VSP_OT_DisconnectVisionPro :=
  call disconnect_poll disconnect_execute.

(** *** [VSP_OT_StartStreaming] (lines 573-623) *)

Definition thread_is_alive (w : World) : bool :=
  match streaming_thread (globals w) with
  | Some alive => alive
  | None => false
  end.

Definition start_streaming_poll (w : World) : bool :=
  bool_decide (current_connection (globals w) ≠ None) && negb (thread_is_alive w).

(** [now] is the reading of [time.time()] on line 604.  On [FINISHED]
    the worker thread has been started on [current_connection]. *)
Definition start_streaming_execute (now : Q) (w : World) : OpResult * World :=
  let w1 :=
    with_globals (set_stop_streaming_event false)
      (with_scene (set_is_streaming true) w) in
  match current_connection (globals w1) with
  | None => (CANCELLED, w1)
  | Some _ =>
      if thread_is_alive w1 then (CANCELLED, w1)
      else
        let w2 :=
          if stream_only_when_active (scene w1)
          then with_globals (set_last_model_change_time now) w1
          else w1 in
        (FINISHED, with_globals (set_streaming_thread (Some true)) w2)
  end.

Definition VSP_OT_StartStreaming (now : Q) :=
  call start_streaming_poll (start_streaming_execute now).

(** *** [VSP_OT_StopStreaming] (lines 625-657) *)

Definition stop_streaming_poll (w : World) : bool := thread_is_alive w.

Definition VSP_OT_StopStreaming :=
  call stop_streaming_poll (λ w, (FINISHED, stop_streaming_execute w)).

(** ** The state the add-on starts in (lines 78-91) *)

Definition initial_globals : Globals :=
  {| vision_pro_devices := ∅; current_connection := None;
     streaming_thread := None; stop_streaming_event := false;
     last_model_change_time := 0%Q; is_exporting_usdz := false;
     export_lock := false; pending_changes_during_export := false |}.

(** The property defaults of lines 762-803. *)
Definition default_scene : Scene :=
  {| selected_device_name := "NONE"; is_streaming := false;
     stream_only_when_active := false; inactivity_threshold := 2%Q;
     render_fps := 24%positive; props_render_fps := 30%positive |}.

Definition empty_outside : Outside :=
  {| live_sockets := ∅; next_socket := 0%nat; tmp_dirs := ∅;
     next_dir := 0%nat; wire := [] |}.

Definition initial_world : World :=
  {| globals := initial_globals; scene := default_scene;
     outside := empty_outside; temp_dir := None |}.

(** ** The discovery listener (lines 117-155) *)

(** [add_service] and [update_service], once the service info is
    resolved. *)
Definition add_service (name : string) (info : DeviceInfo) (g : Globals) : Globals :=
  {| vision_pro_devices := <[name := info]> (vision_pro_devices g);
     current_connection := current_connection g;
     streaming_thread := streaming_thread g;
     stop_streaming_event := stop_streaming_event g;
     last_model_change_time := last_model_change_time g;
     is_exporting_usdz := is_exporting_usdz g; export_lock := export_lock g;
     pending_changes_during_export := pending_changes_during_export g |}.

Definition remove_service (name : string) (g : Globals) : Globals :=
  {| vision_pro_devices := delete name (vision_pro_devices g);
     current_connection := current_connection g;
     streaming_thread := streaming_thread g;
     stop_streaming_event := stop_streaming_event g;
     last_model_change_time := last_model_change_time g;
     is_exporting_usdz := is_exporting_usdz g; export_lock := export_lock g;
     pending_changes_during_export := pending_changes_during_export g |}.

(** ** The process as a transition system

    The main thread runs operators, the listener and the handler; the
    worker runs iterations and eventually leaves its loop.  Any
    interleaving of these is a list of actions. *)

Inductive Action :=
  | ServiceAdded (name : string) (info : DeviceInfo)
  | ServiceRemoved (name : string)
  | Host (x : External)
  | Connect (o : ConnectOutcome)
  | Disconnect
  | StartStreamingOp (now : Q)
  | StopStreamingOp
  | WorkerEnters
  | WorkerIterates (c : Cycle)
  | WorkerLeaves (o : Outcome LoopExit) (rmtree_ok : bool).

(** The thread object once its function has returned. *)
Definition thread_returned (g : Globals) : Globals :=
  match streaming_thread g with
  | Some _ => set_streaming_thread (Some false) g
  | None => g
  end.

Definition perform (w : World) (a : Action) : World :=
  match a with
  | ServiceAdded name info => with_globals (add_service name info) w
  | ServiceRemoved name => with_globals (remove_service name) w
  | Host x => apply_external w x
  | Connect o => (VSP_OT_ConnectToVisionPro o w).2
  | Disconnect => (VSP_OT_DisconnectVisionPro w).2
  | StartStreamingOp now => (VSP_OT_StartStreaming now w).2
  | StopStreamingOp => (VSP_OT_StopStreaming w).2
  | WorkerEnters => (stream_enter w).1.2
  | WorkerIterates c => (loop_body c w).1.2
  | WorkerLeaves o rmtree_ok =>
      with_globals thread_returned (stream_exit o rmtree_ok w).1.2
  end.

Definition run (acts : list Action) : World := foldl perform initial_world acts.

(** ** Sample data *)

Definition sample_name : string := "Vision Pro._visionpro_blender._tcp.local.".

Definition sample_device : DeviceInfo :=
  {| host := "vision-pro.local."; port := 8080; addresses := ["192.168.1.20"] |}.

(** A second of wall-clock time well after the epoch. *)
Definition sample_time : Q := 1000%Q.

Definition active_only_scene : Scene :=
  {| selected_device_name := sample_name; is_streaming := false;
     stream_only_when_active := true; inactivity_threshold := 2%Q;
     render_fps := 30%positive; props_render_fps := 30%positive |}.

Definition always_scene : Scene :=
  {| selected_device_name := sample_name; is_streaming := false;
     stream_only_when_active := false; inactivity_threshold := 2%Q;
     render_fps := 30%positive; props_render_fps := 30%positive |}.

(** Discovered, selected and connected; streaming limited to active
    periods. *)
Definition connected_world : World :=
  run [ServiceAdded sample_name sample_device;
       Host (SceneEdited active_only_scene);
       Connect ConnectSucceeds].

(** The same, with streaming started at [sample_time]. *)
Definition streaming_world : World :=
  perform connected_world (StartStreamingOp sample_time).

(** Connected and streaming without the activity gate. *)
Definition ungated_world : World :=
  run [ServiceAdded sample_name sample_device;
       Host (SceneEdited always_scene);
       Connect ConnectSucceeds;
       StartStreamingOp sample_time].

Definition sample_payload : list byte := [x55; x53; x44].

(** An iteration at time [t] whose export yields [sample_payload] and
    whose [sendall] completes. *)
Definition good_cycle (t : Q) : Cycle :=
  {| now := t; mkdtemp_error := None; export := Exported sample_payload;
     changes := []; send := SendCompleted |}.

(** An iteration at time [t] whose export callback is still running
    when the wait gives up. *)
Definition timed_out_cycle (t : Q) : Cycle :=
  {| now := t; mkdtemp_error := None; export := ExportTimedOut true;
     changes := []; send := SendCompleted |}.

(** An iteration at time [t] during whose export the scene changed
    once; the export succeeds and [sendall] completes. *)
Definition edited_cycle (t : Q) : Cycle :=
  {| now := t; mkdtemp_error := None; export := Exported sample_payload;
     changes := [t]; send := SendCompleted |}.

(** The same, but the peer resets the connection during [sendall]. *)
Definition edited_reset_cycle (t : Q) : Cycle :=
  {| now := t; mkdtemp_error := None; export := Exported sample_payload;
     changes := [t]; send := SendRaised ConnectionResetError 0 |}.

(** The peer resets the connection during [sendall]; the scene did not
    change during the export. *)
Definition reset_cycle (t : Q) : Cycle :=
  {| now := t; mkdtemp_error := None; export := Exported sample_payload;
     changes := []; send := SendRaised ConnectionResetError 0 |}.

(** Two iterations that export and send, then the user stops the
    stream. *)
Definition two_cycles_then_stop : list Step :=
  [{| before := []; cycle := good_cycle sample_time |};
   {| before := []; cycle := good_cycle (sample_time + 1) |};
   {| before := [StopStreaming]; cycle := good_cycle (sample_time + 2) |}].

(** A payload of exactly 4 GiB, one byte more than a length prefix can
    announce. *)
Definition oversized_payload : list byte :=
  repeat x00 (Z.to_nat (2 ^ 32)).

(** An iteration whose export yields [oversized_payload]. *)
Definition oversized_cycle (t : Q) : Cycle :=
  {| now := t; mkdtemp_error := None; export := Exported oversized_payload;
     changes := []; send := SendCompleted |}.

(** An iteration for which [tempfile.mkdtemp] fails. *)
Definition disk_full_cycle (t : Q) : Cycle :=
  {| now := t; mkdtemp_error := Some OtherOSError;
     export := Exported sample_payload; changes := []; send := SendCompleted |}.

(** ** The listener with service resolution (lines 112-155) *)

(** What [zeroconf.get_service_info] and the conversion of the
    addresses give for one event: nothing ([info] is [None]), an
    [OSError] or [RuntimeError] (caught and printed), or the record that
    is stored, under the key [info.name]. *)
Inductive Resolution :=
  | NotResolved
  | ResolveRaised
  | Resolved (info_name : string) (device : DeviceInfo).

Inductive ListenerEvent :=
  | AddService (name : string) (r : Resolution)
  | UpdateService (name : string) (r : Resolution)
  | RemoveService (name : string).

(** [VisionProServiceListener.add_service]. *)
Definition listener_add_service (r : Resolution) (g : Globals) : Globals :=
  match r with
  | Resolved info_name device => add_service info_name device g
  | NotResolved | ResolveRaised => g
  end.

(** One callback of the listener; [update_service] calls
    [add_service]. *)
Definition listener_event (g : Globals) (ev : ListenerEvent) : Globals :=
  match ev with
  | AddService _ r => listener_add_service r g
  | UpdateService _ r => listener_add_service r g
  | RemoveService name => remove_service name g
  end.

(** What an event does to the entry of [key]: [None] when it leaves the
    entry alone. *)
Definition effect_on (key : string) (ev : ListenerEvent)
    : option (option DeviceInfo) :=
  match ev with
  | AddService _ (Resolved n d) | UpdateService _ (Resolved n d) =>
      if String.eqb n key then Some (Some d) else None
  | RemoveService n => if String.eqb n key then Some None else None
  | _ => None
  end.

(** ** The device list of the panel (lines 158-213, 746-760) *)

(** [name.split('.')[0]]. *)
Fixpoint display_name (name : string) : string :=
  match name with
  | EmptyString => EmptyString
  | String ch rest =>
      if Ascii.eqb ch "."%char then EmptyString
      else String ch (display_name rest)
  end.

(** The description of an enum item. *)
Definition describe (data : DeviceInfo) : string :=
  ("Host: " +:+ host data +:+ ", Port: " +:+ pretty (port data)
   +:+ ", IPs: " +:+ String.concat ", " (addresses data))%string.

Definition EnumItem : Type := string * string * string.

Definition identifier (item : EnumItem) : string := item.1.1.

(** The loop over [vision_pro_devices.items()].  A Python dict is
    iterated in insertion order, which the finite map does not record:
    [order] supplies it, as a listing of the keys. *)
Definition device_items (order : list string)
    (devices : gmap string DeviceInfo) : list EnumItem :=
  flat_map (λ name,
              match devices !! name with
              | Some data => [(name, display_name name, describe data)]
              | None => []
              end) order.

Definition none_item : EnumItem :=
  ("NONE", "No devices found", "No Vision Pro devices discovered yet.").

(** [get_discovered_devices_enum], and [items_for_enum] of
    [update_device_list]: the items, or the placeholder when there are
    none. *)
Definition get_discovered_devices_enum (order : list string)
    (devices : gmap string DeviceInfo) : list EnumItem :=
  match device_items order devices with
  | [] => [none_item]
  | items => items
  end.

Definition set_selected_device_name (v : string) (s : Scene) : Scene :=
  {| selected_device_name := v; is_streaming := is_streaming s;
     stream_only_when_active := stream_only_when_active s;
     inactivity_threshold := inactivity_threshold s;
     render_fps := render_fps s;
     props_render_fps := props_render_fps s |}.

(** [update_device_list]: the new world and the status message it
    sets, if any.  (The cache string, the redraw flag and the redraw
    itself concern the panel only.) *)
Definition update_device_list (order : list string) (w : World)
    : World * option string :=
  let items_for_enum :=
    get_discovered_devices_enum order (vision_pro_devices (globals w)) in
  let current_selection := selected_device_name (scene w) in
  let valid_identifiers := map identifier items_for_enum in
  if bool_decide (current_selection ∈ valid_identifiers) then (w, None)
  else if match valid_identifiers with
          | first :: _ => negb (String.eqb first "NONE")
          | [] => false
          end
  then (with_scene (set_selected_device_name (default "" (head valid_identifiers))) w,
        Some "Selected first discovered device.")
  else if bool_decide ("NONE" ∈ valid_identifiers)
  then (with_scene (set_selected_device_name "NONE") w,
        Some "No Vision Pro devices found.")
  else (with_scene (set_selected_device_name "") w,
        Some "Device list cleared.").

(** [order] lists the keys of the dict, each once. *)
Definition lists_keys (order : list string)
    (devices : gmap string DeviceInfo) : Prop :=
  NoDup order ∧ ∀ name, name ∈ order ↔ is_Some (devices !! name).

(** A second device, for examples. *)
Definition other_name : string := "Studio._visionpro_blender._tcp.local.".

Definition other_device : DeviceInfo :=
  {| host := "studio.local."; port := 9090; addresses := [] |}.

(** ** Discovery (lines 77-85, 231-313) *)

(** The discovery globals, the flag set by the import at the top of
    the module, and outside the interpreter the Zeroconf instances that
    have been created and not closed. *)
Record Discovery := {
  ZEROCONF_AVAILABLE : bool;
  zeroconf_instance : option nat;
  zeroconf_browser : option nat;
  open_instances : gset nat;
  next_instance : nat;
}.

(** The whole add-on. *)
Record Addon := {
  discovery : Discovery;
  world : World;
}.

Definition with_discovery (f : Discovery → Discovery) (a : Addon) : Addon :=
  {| discovery := f (discovery a); world := world a |}.

Definition with_world (f : World → World) (a : Addon) : Addon :=
  {| discovery := discovery a; world := f (world a) |}.

(** [vision_pro_devices.clear()]. *)
Definition clear_devices (g : Globals) : Globals :=
  {| vision_pro_devices := ∅;
     current_connection := current_connection g;
     streaming_thread := streaming_thread g;
     stop_streaming_event := stop_streaming_event g;
     last_model_change_time := last_model_change_time g;
     is_exporting_usdz := is_exporting_usdz g; export_lock := export_lock g;
     pending_changes_during_export := pending_changes_during_export g |}.

Definition set_zeroconf_instance (v : option nat) (d : Discovery) : Discovery :=
  {| ZEROCONF_AVAILABLE := ZEROCONF_AVAILABLE d; zeroconf_instance := v;
     zeroconf_browser := zeroconf_browser d;
     open_instances := open_instances d; next_instance := next_instance d |}.

Definition set_zeroconf_browser (v : option nat) (d : Discovery) : Discovery :=
  {| ZEROCONF_AVAILABLE := ZEROCONF_AVAILABLE d;
     zeroconf_instance := zeroconf_instance d; zeroconf_browser := v;
     open_instances := open_instances d; next_instance := next_instance d |}.

(** [Zeroconf()] returns a new instance. *)
Definition create_instance (d : Discovery) : Discovery :=
  {| ZEROCONF_AVAILABLE := ZEROCONF_AVAILABLE d;
     zeroconf_instance := zeroconf_instance d;
     zeroconf_browser := zeroconf_browser d;
     open_instances := {[next_instance d]} ∪ open_instances d;
     next_instance := S (next_instance d) |}.

(** [instance.close()]: it returns and the instance is closed
    ([closes]), or it raises and the instance is taken to stay open. *)
Definition close_instance (closes : bool) (i : nat) (d : Discovery) : Discovery :=
  if closes then
    {| ZEROCONF_AVAILABLE := ZEROCONF_AVAILABLE d;
       zeroconf_instance := zeroconf_instance d;
       zeroconf_browser := zeroconf_browser d;
       open_instances := open_instances d ∖ {[i]};
       next_instance := next_instance d |}
  else d.

(** Where the [try] of [VSP_OT_DiscoverVisionPro.execute] stops. *)
Inductive DiscoverOutcome :=
  | DiscoveryStarted
  | ZeroconfRaises     (** [Zeroconf()] raised *)
  | BrowserRaises      (** [ServiceBrowser(...)] raised *)
  | ThreadRaises.      (** starting the daemon thread raised *)

(** [bpy.ops.<operator>()] on the whole add-on. *)
Definition call_addon (poll : Addon → bool) (execute : Addon → OpResult * Addon)
    (a : Addon) : OpResult * Addon :=
  if poll a then execute a else (POLL_FAILED, a).

Definition discover_poll (a : Addon) : bool :=
  ZEROCONF_AVAILABLE (discovery a)
  && bool_decide (zeroconf_instance (discovery a) = None).

(** Lines 276-285, the [except] clause. *)
Definition discover_failed (closes : bool) (d : Discovery) : Discovery :=
  match zeroconf_instance d with
  | Some i => set_zeroconf_instance None (close_instance closes i d)
  | None => d
  end.

Definition discover_execute (o : DiscoverOutcome) (closes : bool) (a : Addon)
    : OpResult * Addon :=
  if negb (ZEROCONF_AVAILABLE (discovery a)) then (CANCELLED, a)
  else
    let a1 := with_world (with_globals clear_devices) a in
    let i := next_instance (discovery a) in
    match o with
    | DiscoveryStarted =>
        (FINISHED,
         with_discovery
           (λ d, set_zeroconf_browser (Some i)
                   (set_zeroconf_instance (Some i) (create_instance d))) a1)
    | ZeroconfRaises =>
        (CANCELLED, with_discovery (discover_failed closes) a1)
    | BrowserRaises =>
        (CANCELLED,
         with_discovery
           (λ d, discover_failed closes
                   (set_zeroconf_instance (Some i) (create_instance d))) a1)
    | ThreadRaises =>
        (CANCELLED,
         with_discovery
           (λ d, discover_failed closes
                   (set_zeroconf_browser (Some i)
                      (set_zeroconf_instance (Some i) (create_instance d)))) a1)
    end.

Definition VSP_OT_DiscoverVisionPro (o : DiscoverOutcome) (closes : bool) :=
  call_addon discover_poll (discover_execute o closes).

Definition stop_discovery_poll (a : Addon) : bool :=
  ZEROCONF_AVAILABLE (discovery a)
  && bool_decide (zeroconf_instance (discovery a) ≠ None).

(** [VSP_OT_StopDiscovery.execute] (lines 300-313).  The result is
    [None] when [close()] raises: the exception leaves [execute]. *)
Definition stop_discovery_execute (closes : bool) (a : Addon)
    : option OpResult * Addon :=
  let a1 :=
    match zeroconf_browser (discovery a) with
    | Some _ => with_discovery (set_zeroconf_browser None) a
    | None => a
    end in
  match zeroconf_instance (discovery a1) with
  | Some i =>
      if closes then
        (Some FINISHED,
         with_world (with_globals clear_devices)
           (with_discovery
              (λ d, set_zeroconf_instance None (close_instance true i d)) a1))
      else (None, a1)
  | None => (Some FINISHED, a1)
  end.

Definition VSP_OT_StopDiscovery (closes : bool) (a : Addon)
    : option OpResult * Addon :=
  if stop_discovery_poll a then stop_discovery_execute closes a
  else (Some POLL_FAILED, a).

(** ** [unregister] (lines 838-884)

    The handler, the properties and the classes are the host's; what
    is left is the clean-up of the globals.  [closes] is the outcome of
    [zeroconf_instance.close()], whose exception nothing catches: the
    result is [false] when it leaves [unregister]. *)
Definition unregister (closes : bool) (a : Addon) : bool * Addon :=
  let w := world a in
  let w1 :=
    match streaming_thread (globals w) with
    | Some true => with_globals (set_stop_streaming_event true) w
    | _ => w
    end in
  let w2 :=
    match current_connection (globals w1) with
    | Some s => with_outside (close_socket s) w1
    | None => w1
    end in
  let a2 := {| discovery := discovery a; world := w2 |} in
  match zeroconf_instance (discovery a2) with
  | Some i =>
      if closes then
        (true,
         {| discovery :=
              set_zeroconf_browser None
                (set_zeroconf_instance None
                   (close_instance true i (discovery a2)));
            world :=
              with_globals
                (λ g, clear_devices
                        (set_streaming_thread None
                           (set_current_connection None
                              (set_stop_streaming_event false g)))) w2 |})
      else (false, a2)
  | None =>
      (true,
       {| discovery :=
            set_zeroconf_browser None (set_zeroconf_instance None (discovery a2));
          world :=
            with_globals
              (λ g, clear_devices
                      (set_streaming_thread None
                         (set_current_connection None
                            (set_stop_streaming_event false g)))) w2 |})
  end.

(** ** The add-on as a transition system *)

Inductive AddonAction :=
  | Discover (o : DiscoverOutcome) (closes : bool)
  | StopDiscovery (closes : bool)
  | Listener (ev : ListenerEvent)
  | Refresh (order : list string)
  | Core (act : Action).

Definition perform_addon (a : Addon) (x : AddonAction) : Addon :=
  match x with
  | Discover o closes => (VSP_OT_DiscoverVisionPro o closes a).2
  | StopDiscovery closes => (VSP_OT_StopDiscovery closes a).2
  | Listener ev => with_world (with_globals (λ g, listener_event g ev)) a
  | Refresh order => with_world (λ w, (update_device_list order w).1) a
  | Core act => with_world (λ w, perform w act) a
  end.

(** The add-on once the module is loaded; [available] says whether the
    import of the [zeroconf] package succeeded. *)
Definition initial_addon (available : bool) : Addon :=
  {| discovery :=
       {| ZEROCONF_AVAILABLE := available; zeroconf_instance := None;
          zeroconf_browser := None; open_instances := ∅;
          next_instance := 0%nat |};
     world := initial_world |}.

Definition run_addon (available : bool) (xs : list AddonAction) : Addon :=
  foldl perform_addon (initial_addon available) xs.

(** Every [close()] of the run returns. *)
Definition closes_return (x : AddonAction) : bool :=
  match x with
  | Discover _ closes => closes
  | StopDiscovery closes => closes
  | _ => true
  end.

Definition set_props_render_fps (v : positive) (s : Scene) : Scene :=
  {| selected_device_name := selected_device_name s;
     is_streaming := is_streaming s;
     stream_only_when_active := stream_only_when_active s;
     inactivity_threshold := inactivity_threshold s;
     render_fps := render_fps s;
     props_render_fps := v |}.

(** The user has set "Stream FPS" to 60 in the panel; Blender's render
    frame rate is 30. *)
Definition stream_fps_60_world : World :=
  with_scene (set_props_render_fps 60) streaming_world.

(** * Properties *)

(** ** Reading the result of a statement *)

Definition outcome_of {A} (r : Outcome A * World * list Event) : Outcome A := r.1.1.
Definition world_of {A} (r : Outcome A * World * list Event) : World := r.1.2.
Definition events_of {A} (r : Outcome A * World * list Event) : list Event := r.2.

Definition is_sendall (e : Event) : bool :=
  match e with Sendall _ => true | _ => false end.

Definition is_export_request (e : Event) : bool :=
  match e with Register (ExportCallback _) => true | _ => false end.

Definition is_disconnect_request (e : Event) : bool :=
  match e with Register DisconnectOperator => true | _ => false end.

Definition is_sleep (e : Event) : bool :=
  match e with Sleep _ => true | _ => false end.

Definition is_dir_event (e : Event) : bool :=
  match e with Mkdtemp _ | Rmtree _ => true | _ => false end.

(** The activity gate of an iteration is closed: streaming is limited
    to active periods and the scene has been idle for the threshold or
    longer. *)
Definition gate_closed (c : Cycle) (w : World) : bool :=
  stream_only_when_active (scene w)
  && negb (Qltb (now c - last_model_change_time (globals w))
                (inactivity_threshold (scene w))).

(** The handler calls of one export, applied in order. *)
Definition handler_calls (ts : list Q) (g : Globals) : Globals :=
  foldl (λ g t, depsgraph_handler_update_time t g) g ts.

(** The world when [event.wait] returns. *)
Definition after_wait (c : Cycle) (w : World) : World :=
  match export c with
  | Exported _ | ExportRaised _ =>
      with_globals (set_is_exporting_usdz false)
        (with_globals (handler_calls (changes c))
           (with_globals (set_is_exporting_usdz true) w))
  | ExportTimedOut true =>
      with_globals (handler_calls (changes c))
        (with_globals (set_is_exporting_usdz true) w)
  | ExportTimedOut false => w
  end.

(** The world in which the callback is scheduled: the lock is held,
    the scratch directory exists and [temp_dir] names it. *)
Definition export_started (w : World) : World :=
  set_temp_dir (Some (next_dir (outside w)))
    (with_outside create_dir w).

(** The events of a cycle up to the end of the wait. *)
Definition export_events (c : Cycle) (w : World) : list Event :=
  [Mkdtemp (next_dir (outside w));
   Register (ExportCallback (next_dir (outside w)))]
  ++ match export c with
     | ExportRaised true => [Register (StatusUpdate ExportError)]
     | _ => []
     end.

Ltac run :=
  cbv [loop_body activity_gate guarded_export export_lock_acquire
       export_lock_release
       export_and_send release_and_check_pending mkdtemp
       schedule_export_and_wait export_usdz_in_main_thread_cb
       to_bytes_4_big sock_sendall timers_register time_sleep
       try_finally try_except is_OSError leave
       mbind M_bind mret M_ret get modify emit continue raise negb];
  cbn [app].

(** The bytes that have reached the peer when a statement is over. *)
Definition sent_bytes {A} (r : Outcome A * World * list Event) : list byte :=
  wire (outside (world_of r)).

(** The 4-byte unsigned big-endian encoding of the specification,
    written with shifts: the most significant byte first. *)
Definition big_endian32 (L : Z) : list byte :=
  [Wire.byte_of_Z (Z.shiftr L 24); Wire.byte_of_Z (Z.shiftr L 16);
   Wire.byte_of_Z (Z.shiftr L 8); Wire.byte_of_Z L].

(** Main-thread activity that is neither a handler call nor an edit
    of the scene properties. *)
Definition is_quiet (x : External) : bool :=
  match x with
  | StopStreaming | ExportCallbackReturns => true
  | DepsgraphUpdate _ | SceneEdited _ => false
  end.

(** A turn of the loop during which the handler is never called and
    the properties are not edited. *)
Definition undisturbed (st : Step) : Prop :=
  forallb is_quiet (before st) = true ∧ changes (cycle st) = [].

(** The two events of an idle iteration. *)
Definition idle_event (e : Event) : Prop :=
  (∃ idle_duration, e = Register (StatusUpdate (Idle idle_duration)))
  ∨ e = Sleep (1 # 2).

(** What the activity gate reads, and the lock: [w'] has them as [w]
    has. *)
Definition gate_inputs_kept (w w' : World) : Prop :=
  stream_only_when_active (scene w') = stream_only_when_active (scene w)
  ∧ inactivity_threshold (scene w') = inactivity_threshold (scene w)
  ∧ last_model_change_time (globals w') = last_model_change_time (globals w)
  ∧ wire (outside w') = wire (outside w)
  ∧ export_lock (globals w') = export_lock (globals w).

(** The connected sockets of the process are exactly the one
    [current_connection] holds, if any. *)
Definition connection_invariant (w : World) : Prop :=
  live_sockets (outside w)
  = match current_connection (globals w) with
    | Some s => {[s]}
    | None => ∅
    end.

Definition is_mkdtemp (e : Event) : bool :=
  match e with Mkdtemp _ => true | _ => false end.

Definition is_final_status (e : Event) : bool :=
  match e with Register (StatusUpdate StreamingStopped) => true | _ => false end.

(** [mkdtemp] has always returned names past those on disk. *)
Definition dirs_fresh (w : World) : Prop :=
  ∀ d : Dir, d ∈ tmp_dirs (outside w) → (d < next_dir (outside w))%nat.

(** The number of directories the events create. *)
Definition created_dirs (evs : list Event) : nat :=
  length (List.filter is_mkdtemp evs).

(** From [w0] to [w] the loop created [n] directories and removed
    none; [temp_dir], when it changed, names one of the new ones. *)
Definition dirs_grown (w0 w : World) (n : nat) : Prop :=
  tmp_dirs (outside w0) ⊆ tmp_dirs (outside w)
  ∧ dirs_fresh w
  ∧ size (tmp_dirs (outside w)) = (size (tmp_dirs (outside w0)) + n)%nat
  ∧ (next_dir (outside w0) ≤ next_dir (outside w))%nat
  ∧ (∀ d, temp_dir w = Some d →
          temp_dir w0 = Some d ∨ (next_dir (outside w0) ≤ d)%nat).

(** The open Zeroconf instances are exactly the one
    [zeroconf_instance] holds, if any. *)
Definition discovery_invariant (d : Discovery) : Prop :=
  open_instances d
  = match zeroconf_instance d with
    | Some i => {[i]}
    | None => ∅
    end.

(** The frame an iteration sends when its export succeeds. *)
Definition cycle_frame (c : Cycle) : list byte :=
  match export c with
  | Exported P => big_endian32 (Wire.len P) ++ P
  | ExportRaised _ | ExportTimedOut _ => []
  end.

(** A turn of the loop that begins less than [threshold] after [t0]
    and on which nothing interferes: the handler is silent, no stop is
    requested, the scratch directory is created, the export yields a
    payload below 4 GiB and [sendall] completes. *)
Definition first_cycle (t0 threshold : Q) (st : Step) : Prop :=
  undisturbed st
  ∧ ¬ In StopStreaming (before st)
  ∧ (now (cycle st) - t0 < threshold)%Q
  ∧ mkdtemp_error (cycle st) = None
  ∧ (∃ P, export (cycle st) = Exported P ∧ Wire.len P < 2 ^ 32)
  ∧ send (cycle st) = SendCompleted.

Definition export_requests (evs : list Event) : nat :=
  length (List.filter is_export_request evs).

Definition sendall_calls (evs : list Event) : nat :=
  length (List.filter is_sendall evs).

(** The events of an idle iteration at a turn, [t0] being the time of
    the last change. *)
Definition idle_events (t0 : Q) (st : Step) : list Event :=
  [Register (StatusUpdate (Idle (now (cycle st) - t0))); Sleep (1 # 2)].

(** What the worker does while it is in its loop. *)
Definition worker_in_loop (a : Action) : bool :=
  match a with
  | WorkerEnters | WorkerIterates _ => true
  | _ => false
  end.

(** *** Facts about the length prefix *)

Section WireFacts.
Import Wire.

Lemma byte_val_range b : 0 <= byte_val b < 256.
Proof.
  unfold byte_val. pose proof (Byte.to_N_bounded b). lia.
Qed.

Lemma byte_val_of_Z z : byte_val (byte_of_Z z) = z mod 256.
Proof.
  unfold byte_val, byte_of_Z.
  assert (Hr : 0 <= z mod 256 < 256) by (apply Z.mod_pos_bound; lia).
  destruct (Byte.of_N (Z.to_N (z mod 256))) as [b|] eqn:E.
  - apply Byte.to_of_N in E. simpl. rewrite E. lia.
  - apply Byte.of_N_None_iff in E. lia.
Qed.

Lemma length_digits_le n v : length (digits_le n v) = n.
Proof. revert v. induction n as [|n IH]; intros v; simpl; [done|]. by rewrite IH. Qed.

Lemma from_bytes_acc ys a :
  fold_left (fun acc b => acc * 256 + byte_val b) ys a
  = a * 256 ^ Z.of_nat (length ys) + from_bytes ys.
Proof.
  unfold from_bytes. revert a.
  induction ys as [|y ys IH]; intros a; simpl fold_left.
  - simpl. lia.
  - rewrite IH, (IH (0 * 256 + byte_val y)).
    simpl length. rewrite Nat2Z.inj_succ, Z.pow_succ_r by lia. lia.
Qed.

Lemma from_bytes_app xs ys :
  from_bytes (xs ++ ys)
  = from_bytes xs * 256 ^ Z.of_nat (length ys) + from_bytes ys.
Proof.
  unfold from_bytes at 1. rewrite fold_left_app.
  apply from_bytes_acc.
Qed.

Lemma from_bytes_digits n v :
  from_bytes (rev (digits_le n v)) = v mod 256 ^ Z.of_nat n.
Proof.
  revert v. induction n as [|n IH]; intros v.
  - simpl. by rewrite Z.mod_1_r.
  - cbn [digits_le rev]. rewrite from_bytes_app, IH.
    change (from_bytes [byte_of_Z v]) with (0 * 256 + byte_val (byte_of_Z v)).
    rewrite byte_val_of_Z. simpl length. change (256 ^ Z.of_nat 1) with 256.
    rewrite Nat2Z.inj_succ, Z.pow_succ_r by lia.
    rewrite Z.rem_mul_r by lia. lia.
Qed.

Lemma to_bytes_Some v n :
  0 <= v < 256 ^ Z.of_nat n → to_bytes v n = Some (rev (digits_le n v)).
Proof.
  intros [H0 H1]. unfold to_bytes.
  destruct (Z.leb_spec 0 v); [|lia]. destruct (Z.ltb_spec v (256 ^ Z.of_nat n)); [done|lia].
Qed.

Lemma to_bytes_inv v n bs :
  to_bytes v n = Some bs →
  0 <= v < 256 ^ Z.of_nat n ∧ length bs = n ∧ from_bytes bs = v.
Proof.
  unfold to_bytes.
  destruct (Z.leb_spec 0 v); simpl; [|done].
  destruct (Z.ltb_spec v (256 ^ Z.of_nat n)); [|done].
  intros [= <-]. split; [lia|]. split.
  - by rewrite length_rev, length_digits_le.
  - rewrite from_bytes_digits. apply Z.mod_small. lia.
Qed.

Lemma to_bytes_None v n :
  to_bytes v n = None ↔ v < 0 ∨ 256 ^ Z.of_nat n <= v.
Proof.
  unfold to_bytes.
  destruct (Z.leb_spec 0 v); destruct (Z.ltb_spec v (256 ^ Z.of_nat n)); simpl;
    split; intros; try done; try lia; auto.
Qed.

Lemma read_frame_app header payload rest :
  length header = 4%nat →
  from_bytes header = len payload →
  read_frame ((header ++ payload) ++ rest) = Some (payload, rest).
Proof.
  intros Hl Hv. unfold read_frame.
  rewrite <- app_assoc.
  destruct (Nat.ltb_spec (length (header ++ payload ++ rest)) 4) as [Hlt|_].
  { rewrite length_app in Hlt. lia. }
  rewrite take_app_length' by done.
  rewrite drop_app_length' by done.
  rewrite Hv. unfold len. rewrite Nat2Z.id.
  destruct (Nat.ltb_spec (length (payload ++ rest)) (length payload)) as [Hlt|_].
  { rewrite length_app in Hlt. lia. }
  by rewrite take_app_length, drop_app_length.
Qed.

End WireFacts.

Section Paths.
Variables (c : Cycle) (w : World).

Lemma Qltb_lt x y : Qltb x y = true ↔ (x < y)%Q.
Proof.
  unfold Qltb. rewrite negb_true_iff, <- not_true_iff_false, Qle_bool_iff.
  split; [apply Qnot_le_lt | apply Qlt_not_le].
Qed.

Lemma Qltb_ge x y : Qltb x y = false ↔ (y <= x)%Q.
Proof.
  unfold Qltb. rewrite negb_false_iff. apply Qle_bool_iff.
Qed.

Lemma gate_closed_iff :
  gate_closed c w = true ↔
  stream_only_when_active (scene w) = true ∧
  (inactivity_threshold (scene w)
     <= now c - last_model_change_time (globals w))%Q.
Proof.
  unfold gate_closed. rewrite andb_true_iff, negb_true_iff, Qltb_ge. done.
Qed.

Lemma gate_open_iff :
  gate_closed c w = false ↔
  stream_only_when_active (scene w) = false ∨
  (now c - last_model_change_time (globals w)
     < inactivity_threshold (scene w))%Q.
Proof.
  unfold gate_closed. rewrite andb_false_iff, negb_false_iff, Qltb_lt. done.
Qed.

(** The idle path, lines 439-446. *)
Lemma loop_body_idle :
  gate_closed c w = true →
  loop_body c w
  = (Continue, w,
     [Register (StatusUpdate
                  (Idle (now c - last_model_change_time (globals w))));
      Sleep (1 # 2)]).
Proof.
  unfold gate_closed. intros [Hs Hq]%andb_true_iff.
  run. rewrite Hs. run. apply negb_true_iff in Hq. rewrite Hq. done.
Qed.

(** The lock is taken, lines 452-454. *)
Lemma loop_body_locked :
  gate_closed c w = false →
  export_lock (globals w) = true →
  loop_body c w = (Continue, w, []).
Proof.
  unfold gate_closed. intros Hg Hl. run.
  destruct (stream_only_when_active (scene w)); simpl in Hg.
  - apply negb_false_iff in Hg. rewrite Hg. run. by rewrite Hl.
  - run. by rewrite Hl.
Qed.

(** The gate is open: the iteration is the guarded export. *)
Lemma loop_body_active :
  gate_closed c w = false →
  loop_body c w = guarded_export c w.
Proof.
  unfold gate_closed. intros Hg. unfold loop_body, activity_gate.
  cbv [mbind M_bind mret M_ret get].
  destruct (stream_only_when_active (scene w)); simpl in Hg.
  - apply negb_false_iff in Hg. rewrite Hg. cbn [negb].
    by destruct (guarded_export c w) as [[??]?].
  - by destruct (guarded_export c w) as [[??]?].
Qed.

(** The lock is free: the inner [try]. *)
Lemma guarded_export_unlocked :
  export_lock (globals w) = false →
  guarded_export c w
  = try_finally (export_and_send c) release_and_check_pending
      (with_globals (set_export_lock true) w).
Proof.
  intros Hl. unfold guarded_export.
  cbv [mbind M_bind export_lock_acquire]. rewrite Hl. cbn [negb].
  by destruct (try_finally _ _ _) as [[??]?].
Qed.

Lemma loop_body_export :
  gate_closed c w = false →
  export_lock (globals w) = false →
  loop_body c w
  = try_finally (export_and_send c) release_and_check_pending
      (with_globals (set_export_lock true) w).
Proof.
  intros Hg Hl. by rewrite loop_body_active, guarded_export_unlocked.
Qed.

End Paths.

Section ExportPaths.
Variables (c : Cycle) (w : World).

(** [mkdtemp] raises: nothing else happens inside the [try]. *)
Lemma export_and_send_mkdtemp_error k :
  mkdtemp_error c = Some k →
  export_and_send c w = (Raise (OSError k), w, []).
Proof. intros H. run. by rewrite H. Qed.

(** Lines 513-517: no data when the wait returns. *)
Lemma export_and_send_failed :
  mkdtemp_error c = None →
  (∀ P, export c ≠ Exported P) →
  export_and_send c w
  = (Continue, after_wait c (export_started w),
     export_events c w
     ++ [Register (StatusUpdate ExportFailedTimedOut); Sleep (1 # render_fps (scene w))]).
Proof.
  intros Hm He. unfold after_wait, export_events. run. rewrite Hm.
  destruct (export c) as [P|[|]|[|]]; [by destruct (He P)|..]; reflexivity.
Qed.

(** Line 521 raises [OverflowError]: the payload is 4 GiB or more. *)
Lemma export_and_send_overflow P :
  mkdtemp_error c = None →
  export c = Exported P →
  Wire.to_bytes (Wire.len P) 4 = None →
  export_and_send c w
  = (Raise OverflowError, after_wait c (export_started w), export_events c w).
Proof.
  intros Hm He Ho. unfold after_wait, export_events. run.
  rewrite Hm, He, Ho. reflexivity.
Qed.

(** Lines 525-533: the frame is sent. *)
Lemma export_and_send_sent P header :
  mkdtemp_error c = None →
  export c = Exported P →
  Wire.to_bytes (Wire.len P) 4 = Some header →
  send c = SendCompleted →
  export_and_send c w
  = (Normal tt,
     with_outside (write_wire (header ++ P)) (after_wait c (export_started w)),
     export_events c w
     ++ [Sendall (header ++ P);
         Register (StatusUpdate (Sent (Wire.len P) (render_fps (scene w))));
         Sleep (1 # render_fps (scene w))]).
Proof.
  intros Hm He Ho Hs. unfold after_wait, export_events. run.
  rewrite Hm, He, Ho, Hs. reflexivity.
Qed.

(** Lines 534-536: [sendall] raises and the error is raised again. *)
Lemma export_and_send_send_error P header k n :
  mkdtemp_error c = None →
  export c = Exported P →
  Wire.to_bytes (Wire.len P) 4 = Some header →
  send c = SendRaised k n →
  export_and_send c w
  = (Raise (OSError k),
     with_outside (write_wire (take n (header ++ P)))
       (after_wait c (export_started w)),
     export_events c w ++ [Sendall (header ++ P)]).
Proof.
  intros Hm He Ho Hs. unfold after_wait, export_events. run.
  rewrite Hm, He, Ho, Hs. reflexivity.
Qed.

End ExportPaths.

(** The [finally] clause of the inner [try], lines 537-545: the lock is
    released; when [pending_changes_during_export] is set it is cleared
    and the iteration leaves through [continue], whatever the body was
    leaving with. *)
Lemma try_finally_release {A} (body : M A) w o w1 ev :
  body w = (o, w1, ev) →
  try_finally body release_and_check_pending w
  = if pending_changes_during_export (globals w1)
    then (Continue,
          with_globals (set_pending_changes_during_export false)
            (with_globals (set_export_lock false) w1), ev)
    else (o, with_globals (set_export_lock false) w1, ev).
Proof.
  intros H. unfold try_finally. rewrite H. run. cbn.
  destruct (pending_changes_during_export (globals w1)); by rewrite app_nil_r.
Qed.

(** ** The length prefix is the specification's [big-endian32] *)

Lemma to_bytes_big_endian32 L :
  0 <= L < 2 ^ 32 → Wire.to_bytes L 4 = Some (big_endian32 L).
Proof.
  intros HL. rewrite to_bytes_Some by (change (256 ^ Z.of_nat 4) with (2 ^ 32); lia).
  unfold big_endian32. cbn [Wire.digits_le rev app].
  rewrite !Z.shiftr_div_pow2 by lia.
  rewrite !Z.div_div by lia. reflexivity.
Qed.

Example big_endian32_0 : big_endian32 0 = [x00; x00; x00; x00].
Proof. reflexivity. Qed.

Example big_endian32_1 : big_endian32 1 = [x00; x00; x00; x01].
Proof. reflexivity. Qed.

Example big_endian32_65536 : big_endian32 65536 = [x00; x01; x00; x00].
Proof. reflexivity. Qed.

Example big_endian32_5000000 : big_endian32 5000000 = [x00; x4c; x4b; x40].
Proof. reflexivity. Qed.

Lemma header_is_big_endian32 P header :
  Wire.to_bytes (Wire.len P) 4 = Some header →
  0 <= Wire.len P < 2 ^ 32 ∧ header = big_endian32 (Wire.len P).
Proof.
  intros H. destruct (to_bytes_inv _ _ _ H) as (Hr & _ & _).
  change (256 ^ Z.of_nat 4) with (2 ^ 32) in Hr. split; [done|].
  rewrite to_bytes_big_endian32 in H by done. congruence.
Qed.

Lemma read_frame_big_endian32 P rest :
  0 <= Wire.len P < 2 ^ 32 →
  Wire.read_frame ((big_endian32 (Wire.len P) ++ P) ++ rest) = Some (P, rest).
Proof.
  intros HL. pose proof (to_bytes_big_endian32 _ HL) as H.
  destruct (to_bytes_inv _ _ _ H) as (_ & Hlen & Hval).
  by apply read_frame_app.
Qed.

(** ** What the inner [finally] leaves untouched *)

Lemma wire_after_wait c w :
  wire (outside (after_wait c w)) = wire (outside w).
Proof. unfold after_wait. by destruct (export c) as [|?|[|]]. Qed.

Lemma scene_after_wait c w : scene (after_wait c w) = scene w.
Proof. unfold after_wait. by destruct (export c) as [|?|[|]]. Qed.

Lemma try_finally_release_events {A} (body : M A) w o w1 ev :
  body w = (o, w1, ev) →
  events_of (try_finally body release_and_check_pending w) = ev.
Proof.
  intros H. rewrite (try_finally_release _ _ _ _ _ H).
  by destruct (pending_changes_during_export (globals w1)).
Qed.

Lemma try_finally_release_wire {A} (body : M A) w o w1 ev :
  body w = (o, w1, ev) →
  sent_bytes (try_finally body release_and_check_pending w) = wire (outside w1).
Proof.
  intros H. rewrite (try_finally_release _ _ _ _ _ H).
  by destruct (pending_changes_during_export (globals w1)).
Qed.

(** ** C1: the content-change handler *)

(** C1. Every call of [depsgraph_handler_update_time]: while
    [is_exporting_usdz] is false it stores the current time in
    [last_model_change_time] and leaves [pending_changes_during_export]
    as it was; while the flag is true it sets
    [pending_changes_during_export] and leaves [last_model_change_time]
    as it was. *)
Theorem depsgraph_handler_records_change (now : Q) (g : Globals) :
  let g' := depsgraph_handler_update_time now g in
  if is_exporting_usdz g
  then pending_changes_during_export g' = true
       ∧ last_model_change_time g' = last_model_change_time g
  else last_model_change_time g' = now
       ∧ pending_changes_during_export g' = pending_changes_during_export g.
Proof.
  unfold depsgraph_handler_update_time.
  destruct (is_exporting_usdz g); simpl; split; reflexivity.
Qed.

(** ** C2: framing *)

(** The events of the export phase hold no [sendall]. *)
Lemma export_events_no_sendall c w data :
  ¬ In (Sendall data) (export_events c w).
Proof.
  unfold export_events. destruct (export c) as [|[|]|]; simpl; intuition discriminate.
Qed.

(** C2. Whatever an iteration hands to [sock.sendall] is the export
    result [P] of that iteration behind the 4-byte unsigned big-endian
    encoding of its length; a reader of the wire protocol gets [P] back
    from it, whatever follows on the stream; and when [sendall]
    completes, exactly these bytes are appended to what the peer has
    received. *)
Theorem sent_message_is_length_prefixed (c : Cycle) (w : World) (data : list byte) :
  In (Sendall data) (events_of (loop_body c w)) →
  ∃ P, export c = Exported P
     ∧ 0 <= Wire.len P < 2 ^ 32
     ∧ data = big_endian32 (Wire.len P) ++ P
     ∧ (∀ rest, Wire.read_frame (data ++ rest) = Some (P, rest))
     ∧ (send c = SendCompleted →
        sent_bytes (loop_body c w) = wire (outside w) ++ data).
Proof.
  destruct (gate_closed c w) eqn:Hg.
  { rewrite loop_body_idle by done. simpl. intuition discriminate. }
  destruct (export_lock (globals w)) eqn:Hl.
  { rewrite loop_body_locked by done. simpl. tauto. }
  rewrite loop_body_export by done.
  set (wl := with_globals (set_export_lock true) w).
  destruct (mkdtemp_error c) as [k|] eqn:Hm.
  { rewrite (try_finally_release_events _ _ _ _ _
               (export_and_send_mkdtemp_error c wl k Hm)). simpl. tauto. }
  destruct (export c) as [P| |] eqn:He.
  2,3: rewrite (try_finally_release_events _ _ _ _ _
                  (export_and_send_failed c wl Hm ltac:(by rewrite He)));
       rewrite in_app_iff; intros [Hin|Hin];
       [ by apply export_events_no_sendall in Hin
       | simpl in Hin; intuition discriminate ].
  destruct (Wire.to_bytes (Wire.len P) 4) as [header|] eqn:Ho.
  2: { rewrite (try_finally_release_events _ _ _ _ _
                  (export_and_send_overflow c wl P Hm He Ho)).
       intros Hin. by apply export_events_no_sendall in Hin. }
  destruct (header_is_big_endian32 _ _ Ho) as [HL ->].
  assert (Hdata : ∀ evs, In (Sendall data) (export_events c wl ++ Sendall (big_endian32 (Wire.len P) ++ P) :: evs) →
                         (∀ e, In e evs → is_sendall e = false) →
                         data = big_endian32 (Wire.len P) ++ P).
  { intros evs Hin Hevs. apply in_app_iff in Hin as [Hin|[Hin|Hin]].
    - by apply export_events_no_sendall in Hin.
    - congruence.
    - by apply Hevs in Hin. }
  destruct (send c) as [|k n] eqn:Hs.
  - pose proof (export_and_send_sent c wl P _ Hm He Ho Hs) as Hrun.
    rewrite (try_finally_release_events _ _ _ _ _ Hrun).
    rewrite (try_finally_release_wire _ _ _ _ _ Hrun).
    intros Hin. apply Hdata in Hin as ->.
    2: { simpl. intros e [<-|[<-|[]]]; reflexivity. }
    exists P. split_and!; [done|lia|lia|done| |].
    + intros rest. by apply read_frame_big_endian32.
    + intros _. cbn. by rewrite wire_after_wait.
  - pose proof (export_and_send_send_error c wl P _ k n Hm He Ho Hs) as Hrun.
    rewrite (try_finally_release_events _ _ _ _ _ Hrun).
    intros Hin. apply Hdata in Hin as ->.
    2: { simpl. tauto. }
    exists P. split_and!; [done|lia|lia|done| |done].
    intros rest. by apply read_frame_big_endian32.
Qed.

Lemma sent_message_is_length_prefixed_witness :
  In (Sendall (big_endian32 3 ++ sample_payload))
     (events_of (loop_body (good_cycle sample_time) streaming_world))
  ∧ ∃ P, export (good_cycle sample_time) = Exported P
     ∧ 0 <= Wire.len P < 2 ^ 32
     ∧ big_endian32 3 ++ sample_payload = big_endian32 (Wire.len P) ++ P
     ∧ (∀ rest, Wire.read_frame ((big_endian32 3 ++ sample_payload) ++ rest)
                = Some (P, rest))
     ∧ (send (good_cycle sample_time) = SendCompleted →
        sent_bytes (loop_body (good_cycle sample_time) streaming_world)
        = wire (outside streaming_world) ++ big_endian32 3 ++ sample_payload).
Proof.
  assert (H : In (Sendall (big_endian32 3 ++ sample_payload))
                 (events_of (loop_body (good_cycle sample_time) streaming_world))).
  { vm_compute. tauto. }
  split; [exact H|].
  exact (sent_message_is_length_prefixed _ _ _ H).
Defined.

(** ** Handler calls during an export *)

Lemma handler_calls_exporting ts g :
  is_exporting_usdz g = true →
  handler_calls ts g
  = match ts with
    | [] => g
    | _ :: _ => set_pending_changes_during_export true g
    end.
Proof.
  intros Hx. destruct ts as [|t ts]; [done|].
  unfold handler_calls. cbn [foldl].
  unfold depsgraph_handler_update_time at 2. rewrite Hx. cbn [negb].
  set (g1 := set_pending_changes_during_export true g).
  assert (Hidem : ∀ t', depsgraph_handler_update_time t' g1 = g1).
  { intros t'. unfold depsgraph_handler_update_time, g1. cbn. by rewrite Hx. }
  clearbody g1. induction ts as [|t' ts IH]; [done|].
  cbn [foldl]. by rewrite Hidem.
Qed.

(** The wait changes no global but [is_exporting_usdz] and
    [pending_changes_during_export]. *)
Lemma after_wait_globals c w :
  let g := globals w in
  let g' := globals (after_wait c w) in
  vision_pro_devices g' = vision_pro_devices g
  ∧ current_connection g' = current_connection g
  ∧ streaming_thread g' = streaming_thread g
  ∧ stop_streaming_event g' = stop_streaming_event g
  ∧ last_model_change_time g' = last_model_change_time g
  ∧ export_lock g' = export_lock g.
Proof.
  unfold after_wait.
  destruct (export c) as [|?|[|]]; cbn;
    rewrite ?handler_calls_exporting by done;
    destruct (changes c); cbn; by repeat split.
Qed.

Lemma after_wait_outside c w : outside (after_wait c w) = outside w.
Proof. unfold after_wait. by destruct (export c) as [|?|[|]]. Qed.

Lemma after_wait_temp_dir c w : temp_dir (after_wait c w) = temp_dir w.
Proof. unfold after_wait. by destruct (export c) as [|?|[|]]. Qed.

(** Whether a handler call of this export set the flag. *)
Lemma after_wait_pending c w :
  pending_changes_during_export (globals (after_wait c w))
  = match export c, changes c with
    | ExportTimedOut false, _ | _, [] => pending_changes_during_export (globals w)
    | _, _ :: _ => true
    end.
Proof.
  unfold after_wait.
  destruct (export c) as [|?|[|]]; cbn;
    rewrite ?handler_calls_exporting by done;
    by destruct (changes c).
Qed.

(** ** C3: the activity gate *)

(** C3. With [stream_only_when_active] set: when
    [now - last_model_change_time] has reached [inactivity_threshold],
    the iteration leaves the world as it was (nothing exported, nothing
    sent, no stop request), registers the idle status, sleeps half a
    second and leaves through [continue]; otherwise the iteration is the
    guarded export, which with the lock free and a scratch directory
    created schedules the export callback. *)
Theorem activity_gate_skips_when_idle (c : Cycle) (w : World) :
  stream_only_when_active (scene w) = true →
  let idle := (now c - last_model_change_time (globals w))%Q in
  ((inactivity_threshold (scene w) <= idle)%Q →
   loop_body c w
   = (Continue, w, [Register (StatusUpdate (Idle idle)); Sleep (1 # 2)]))
  ∧ ((idle < inactivity_threshold (scene w))%Q →
     loop_body c w = guarded_export c w
     ∧ (export_lock (globals w) = false →
        mkdtemp_error c = None →
        ∃ evs, events_of (loop_body c w)
               = Mkdtemp (next_dir (outside w))
                 :: Register (ExportCallback (next_dir (outside w))) :: evs)).
Proof.
  intros Hs idle. split.
  - intros Hi. apply loop_body_idle, gate_closed_iff. done.
  - intros Hi.
    assert (Hg : gate_closed c w = false) by (apply gate_open_iff; by right).
    split; [by apply loop_body_active|].
    intros Hl Hm. rewrite loop_body_export by done.
    set (wl := with_globals (set_export_lock true) w).
    destruct (export c) as [P| |] eqn:He.
    2,3: rewrite (try_finally_release_events _ _ _ _ _
                    (export_and_send_failed c wl Hm ltac:(by rewrite He)));
         unfold export_events; cbn; eauto.
    destruct (Wire.to_bytes (Wire.len P) 4) as [header|] eqn:Ho.
    2: { rewrite (try_finally_release_events _ _ _ _ _
                    (export_and_send_overflow c wl P Hm He Ho)).
         unfold export_events. cbn. eauto. }
    destruct (send c) as [|k n] eqn:Hsd.
    + rewrite (try_finally_release_events _ _ _ _ _
                 (export_and_send_sent c wl P _ Hm He Ho Hsd)).
      unfold export_events. cbn. eauto.
    + rewrite (try_finally_release_events _ _ _ _ _
                 (export_and_send_send_error c wl P _ k n Hm He Ho Hsd)).
      unfold export_events. cbn. eauto.
Qed.

Lemma activity_gate_skips_when_idle_witness :
  stream_only_when_active (scene streaming_world) = true
  ∧ loop_body (good_cycle (sample_time + 5)) streaming_world
    = (Continue, streaming_world,
       [Register (StatusUpdate (Idle (sample_time + 5 - sample_time)));
        Sleep (1 # 2)])
  ∧ loop_body (good_cycle (sample_time + 1)) streaming_world
    = guarded_export (good_cycle (sample_time + 1)) streaming_world.
Proof.
  assert (Hs : stream_only_when_active (scene streaming_world) = true)
    by reflexivity.
  split; [exact Hs|]. split.
  - apply (proj1 (activity_gate_skips_when_idle
                    (good_cycle (sample_time + 5)) streaming_world Hs)).
    vm_compute. discriminate.
  - apply (proj2 (activity_gate_skips_when_idle
                    (good_cycle (sample_time + 1)) streaming_world Hs)).
    vm_compute. reflexivity.
Defined.

(** ** C6: an export that fails *)

(** One more turn of the [while] statement, for an iteration that does
    not raise. *)
Lemma while_not_stopped_step st rest w :
  let w0 := foldl apply_external w (before st) in
  stop_streaming_event (globals w0) = false →
  (∀ e, outcome_of (loop_body (cycle st) w0) ≠ Raise e) →
  while_not_stopped (st :: rest) w
  = (outcome_of (while_not_stopped rest (world_of (loop_body (cycle st) w0))),
     world_of (while_not_stopped rest (world_of (loop_body (cycle st) w0))),
     events_of (loop_body (cycle st) w0)
     ++ events_of (while_not_stopped rest (world_of (loop_body (cycle st) w0)))).
Proof.
  intros w0 Hstop Hno. cbn [while_not_stopped]. fold w0. rewrite Hstop.
  destruct (loop_body (cycle st) w0) as [[o w1] ev1] eqn:Hb.
  unfold outcome_of, world_of, events_of in *. cbn [fst snd] in *.
  destruct (while_not_stopped rest w1) as [[o2 w2] ev2].
  destruct o as [[]| |e]; [done|done|by destruct (Hno e)].
Qed.

(** The recovery from a failed export.  An iteration that reaches the
    export and whose callback raises, does not finish within the five
    seconds, or leaves [usdz_data] at [None]: nothing is handed to
    [sendall] and the peer receives nothing, the status "USDZ export
    failed/timed out." is registered, the worker sleeps
    [1 / scene.render.fps], no disconnect is requested and the stop
    event is not set; the iteration leaves through [continue], so the
    [while] statement goes on with the next turn. *)
Theorem export_failure_is_not_fatal (c : Cycle) (w : World) :
  gate_closed c w = false →
  export_lock (globals w) = false →
  mkdtemp_error c = None →
  (∀ P, export c ≠ Exported P) →
  let r := loop_body c w in
  outcome_of r = Continue
  ∧ events_of r
    = export_events c w
      ++ [Register (StatusUpdate ExportFailedTimedOut);
          Sleep (1 # render_fps (scene w))]
  ∧ (∀ e, In e (events_of r) →
          is_sendall e = false ∧ is_disconnect_request e = false)
  ∧ sent_bytes r = wire (outside w)
  ∧ stop_streaming_event (globals (world_of r)) = stop_streaming_event (globals w)
  ∧ (∀ rest,
       stop_streaming_event (globals w) = false →
       while_not_stopped ({| before := []; cycle := c |} :: rest) w
       = (outcome_of (while_not_stopped rest (world_of r)),
          world_of (while_not_stopped rest (world_of r)),
          events_of r ++ events_of (while_not_stopped rest (world_of r)))).
Proof.
  intros Hg Hl Hm He r.
  set (wl := with_globals (set_export_lock true) w).
  pose proof (export_and_send_failed c wl Hm He) as Hrun.
  assert (Hr : r = try_finally (export_and_send c) release_and_check_pending wl)
    by (unfold r; by rewrite loop_body_export).
  assert (Hout : outcome_of r = Continue).
  { rewrite Hr, (try_finally_release _ _ _ _ _ Hrun).
    by destruct (pending_changes_during_export _). }
  assert (Hev : events_of r
                = export_events c w
                  ++ [Register (StatusUpdate ExportFailedTimedOut);
                      Sleep (1 # render_fps (scene w))]).
  { rewrite Hr. apply (try_finally_release_events _ _ _ _ _ Hrun). }
  split_and!; try done.
  - intros e. rewrite Hev, in_app_iff. unfold export_events.
    destruct (export c) as [|[|]|]; simpl; intuition (subst; done).
  - rewrite Hr, (try_finally_release_wire _ _ _ _ _ Hrun).
    by rewrite wire_after_wait.
  - rewrite Hr, (try_finally_release _ _ _ _ _ Hrun).
    destruct (after_wait_globals c (export_started wl)) as (_ & _ & _ & Hstop & _).
    cbn zeta in Hstop.
    by destruct (pending_changes_during_export _); cbn; rewrite Hstop.
  - intros rest Hstop.
    apply (while_not_stopped_step {| before := []; cycle := c |} rest w Hstop).
    intros e. cbn. fold r. by rewrite Hout.
Qed.

Lemma export_failure_is_not_fatal_witness :
  let c := timed_out_cycle sample_time in
  let r := loop_body c streaming_world in
  outcome_of r = Continue
  ∧ events_of r
    = export_events c streaming_world
      ++ [Register (StatusUpdate ExportFailedTimedOut);
          Sleep (1 # render_fps (scene streaming_world))]
  ∧ (∀ e, In e (events_of r) →
          is_sendall e = false ∧ is_disconnect_request e = false)
  ∧ sent_bytes r = wire (outside streaming_world)
  ∧ stop_streaming_event (globals (world_of r))
    = stop_streaming_event (globals streaming_world)
  ∧ (∀ rest,
       stop_streaming_event (globals streaming_world) = false →
       while_not_stopped ({| before := []; cycle := c |} :: rest) streaming_world
       = (outcome_of (while_not_stopped rest (world_of r)),
          world_of (while_not_stopped rest (world_of r)),
          events_of r ++ events_of (while_not_stopped rest (world_of r)))).
Proof.
  apply (export_failure_is_not_fatal (timed_out_cycle sample_time) streaming_world).
  - vm_compute. reflexivity.
  - reflexivity.
  - reflexivity.
  - intros P. simpl. discriminate.
Defined.

(** ** C5: a change during the export *)

(** C5 (the code departs from it). In an iteration whose export saw a
    handler call and whose [sendall] completed, the inner [finally]
    clause clears [pending_changes_during_export] and leaves through
    [continue], but the pacing sleep of [1 / fps] has already been
    performed by then: it is the last event of the iteration, exactly as
    when no change is pending. *)
Theorem pacing_sleep_precedes_pending_check (c : Cycle) (w : World)
    (P header : list byte) :
  gate_closed c w = false →
  export_lock (globals w) = false →
  mkdtemp_error c = None →
  export c = Exported P →
  Wire.to_bytes (Wire.len P) 4 = Some header →
  send c = SendCompleted →
  changes c ≠ [] →
  let r := loop_body c w in
  outcome_of r = Continue
  ∧ pending_changes_during_export (globals (world_of r)) = false
  ∧ events_of r
    = export_events c w
      ++ [Sendall (header ++ P);
          Register (StatusUpdate (Sent (Wire.len P) (render_fps (scene w))));
          Sleep (1 # render_fps (scene w))].
Proof.
  intros Hg Hl Hm He Ho Hs Hc r.
  set (wl := with_globals (set_export_lock true) w).
  pose proof (export_and_send_sent c wl P header Hm He Ho Hs) as Hrun.
  assert (Hp : pending_changes_during_export
                 (globals (with_outside (write_wire (header ++ P))
                             (after_wait c (export_started wl)))) = true).
  { change (pending_changes_during_export
              (globals (after_wait c (export_started wl))) = true).
    rewrite after_wait_pending, He. by destruct (changes c). }
  unfold r. rewrite loop_body_export by done. fold wl.
  rewrite (try_finally_release _ _ _ _ _ Hrun), Hp. done.
Qed.

Lemma pacing_sleep_precedes_pending_check_witness :
  let c := edited_cycle sample_time in
  let r := loop_body c streaming_world in
  outcome_of r = Continue
  ∧ pending_changes_during_export (globals (world_of r)) = false
  ∧ events_of r
    = export_events c streaming_world
      ++ [Sendall (big_endian32 3 ++ sample_payload);
          Register (StatusUpdate (Sent 3 30));
          Sleep (1 # 30)].
Proof.
  apply (pacing_sleep_precedes_pending_check
           (edited_cycle sample_time) streaming_world
           sample_payload (big_endian32 3)).
  - vm_compute. reflexivity.
  - reflexivity.
  - reflexivity.
  - reflexivity.
  - reflexivity.
  - reflexivity.
  - simpl. discriminate.
Defined.

(** ** C7: a transport error during a send *)

(** The outer [except] clauses and [finally] clause, for an [OSError]
    that left the loop: one disconnect request, the stop event set, the
    scratch directory of the last cycle removed, the final status. *)
Lemma stream_exit_oserror k rmtree_ok w :
  stream_exit (Raise (OSError k)) rmtree_ok w
  = (Normal Exited,
     world_of (cleanup_temp_dir rmtree_ok
                 (with_globals (set_stop_streaming_event true) w)),
     [Register DisconnectOperator]
     ++ events_of (cleanup_temp_dir rmtree_ok
                     (with_globals (set_stop_streaming_event true) w))
     ++ [Register (StatusUpdate StreamingStopped)]).
Proof.
  unfold stream_exit, stream_error_handler.
  cbv [try_finally try_except leave caught_by_stream mbind M_bind mret M_ret
       timers_register emit modify].
  destruct (cleanup_temp_dir rmtree_ok _) as [[o w1] ev] eqn:Hc.
  assert (o = Normal tt) as ->.
  { unfold cleanup_temp_dir in Hc.
    destruct (temp_dir _); [|congruence].
    destruct (bool_decide _); [|congruence]. destruct rmtree_ok; congruence. }
  reflexivity.
Qed.

(** Where the claim holds: no change is pending when the inner
    [finally] clause runs.  The error leaves the loop, whatever the
    schedule holds next. *)
Lemma send_error_leaves_loop c w P header k n rest :
  stop_streaming_event (globals w) = false →
  gate_closed c w = false →
  export_lock (globals w) = false →
  mkdtemp_error c = None →
  export c = Exported P →
  Wire.to_bytes (Wire.len P) 4 = Some header →
  send c = SendRaised k n →
  pending_changes_during_export (globals w) = false →
  changes c = [] →
  outcome_of (while_not_stopped ({| before := []; cycle := c |} :: rest) w)
  = Raise (OSError k).
Proof.
  intros Hstop Hg Hl Hm He Ho Hs Hp Hc.
  cbn [while_not_stopped before cycle foldl]. rewrite Hstop.
  rewrite loop_body_export by done.
  set (wl := with_globals (set_export_lock true) w).
  rewrite (try_finally_release _ _ _ _ _
             (export_and_send_send_error c wl P header k n Hm He Ho Hs)).
  change (pending_changes_during_export (globals (with_outside _ ?x)))
    with (pending_changes_during_export (globals x)).
  rewrite after_wait_pending, He, Hc. cbn. by rewrite Hp.
Qed.

(** C7 (the code departs from it). When a handler call fell into the
    export of the iteration, an [OSError] raised by [sendall] never
    reaches the [except] clauses: the [continue] of the inner [finally]
    clause discards it.  The iteration ends like one that skipped its
    pacing: no disconnect is requested, the stop event stays clear, and
    the [while] statement goes on with the next turn. *)
Theorem send_error_discarded_when_change_pending (c : Cycle) (w : World)
    (P header : list byte) (k : OSErr) (n : nat) :
  stop_streaming_event (globals w) = false →
  gate_closed c w = false →
  export_lock (globals w) = false →
  mkdtemp_error c = None →
  export c = Exported P →
  Wire.to_bytes (Wire.len P) 4 = Some header →
  send c = SendRaised k n →
  changes c ≠ [] →
  let r := loop_body c w in
  outcome_of r = Continue
  ∧ events_of r = export_events c w ++ [Sendall (header ++ P)]
  ∧ stop_streaming_event (globals (world_of r)) = false
  ∧ (∀ rest,
       while_not_stopped ({| before := []; cycle := c |} :: rest) w
       = (outcome_of (while_not_stopped rest (world_of r)),
          world_of (while_not_stopped rest (world_of r)),
          events_of r ++ events_of (while_not_stopped rest (world_of r)))).
Proof.
  intros Hstop Hg Hl Hm He Ho Hs Hc r.
  set (wl := with_globals (set_export_lock true) w).
  pose proof (export_and_send_send_error c wl P header k n Hm He Ho Hs) as Hrun.
  assert (Hp : pending_changes_during_export
                 (globals (with_outside (write_wire (take n (header ++ P)))
                             (after_wait c (export_started wl)))) = true).
  { change (pending_changes_during_export
              (globals (after_wait c (export_started wl))) = true).
    rewrite after_wait_pending, He. by destruct (changes c). }
  assert (Hr : r = (Continue,
                    with_globals (set_pending_changes_during_export false)
                      (with_globals (set_export_lock false)
                         (with_outside (write_wire (take n (header ++ P)))
                            (after_wait c (export_started wl)))),
                    export_events c w ++ [Sendall (header ++ P)])).
  { unfold r. rewrite loop_body_export by done. fold wl.
    by rewrite (try_finally_release _ _ _ _ _ Hrun), Hp. }
  split_and!.
  - by rewrite Hr.
  - by rewrite Hr.
  - rewrite Hr. cbn.
    destruct (after_wait_globals c (export_started wl)) as (_ & _ & _ & H & _).
    cbn zeta in H. by rewrite H.
  - intros rest.
    apply (while_not_stopped_step {| before := []; cycle := c |} rest w Hstop).
    intros e. cbn. fold r. by rewrite Hr.
Qed.

Lemma send_error_discarded_when_change_pending_witness :
  let c := edited_reset_cycle sample_time in
  let r := loop_body c ungated_world in
  outcome_of r = Continue
  ∧ events_of r
    = export_events c ungated_world ++ [Sendall (big_endian32 3 ++ sample_payload)]
  ∧ stop_streaming_event (globals (world_of r)) = false
  ∧ (∀ rest,
       while_not_stopped ({| before := []; cycle := c |} :: rest) ungated_world
       = (outcome_of (while_not_stopped rest (world_of r)),
          world_of (while_not_stopped rest (world_of r)),
          events_of r ++ events_of (while_not_stopped rest (world_of r)))).
Proof.
  apply (send_error_discarded_when_change_pending
           (edited_reset_cycle sample_time) ungated_world
           sample_payload (big_endian32 3) ConnectionResetError 0).
  - reflexivity.
  - reflexivity.
  - reflexivity.
  - reflexivity.
  - reflexivity.
  - reflexivity.
  - reflexivity.
  - simpl. discriminate.
Defined.

(** The retry the claim rules out, on a run: two iterations in a row
    hit a reset connection, [sendall] is called in both, and the thread
    is still looping with no disconnect requested. *)
Example retry_after_reset :
  let r := stream_scene_data
             [{| before := []; cycle := edited_reset_cycle sample_time |};
              {| before := []; cycle := edited_reset_cycle (sample_time + 1) |}]
             true ungated_world in
  outcome_of r = Normal StillRunning
  ∧ length (filter is_sendall (events_of r)) = 2%nat
  ∧ length (filter is_disconnect_request (events_of r)) = 0%nat.
Proof. vm_compute. done. Qed.

(** The same two iterations without a change during the export: the
    first error ends the thread with one disconnect request. *)
Example reset_stops_stream :
  let r := stream_scene_data
             [{| before := []; cycle := reset_cycle sample_time |};
              {| before := []; cycle := reset_cycle (sample_time + 1) |}]
             true ungated_world in
  outcome_of r = Normal Exited
  ∧ stop_streaming_event (globals (world_of r)) = true
  ∧ length (filter is_sendall (events_of r)) = 1%nat
  ∧ length (filter is_disconnect_request (events_of r)) = 1%nat.
Proof. vm_compute. done. Qed.

(** ** What an iteration leaves as it was *)

(** The five ways through [export_and_send]. *)
Ltac export_cases c wl Hrun :=
  let Hm := fresh "Hm" in
  let He := fresh "He" in
  let Ho := fresh "Ho" in
  let Hs := fresh "Hs" in
  destruct (mkdtemp_error c) as [?k|] eqn:Hm;
  [ pose proof (export_and_send_mkdtemp_error c wl _ Hm) as Hrun
  | destruct (export c) as [?P|?caught|?running] eqn:He;
    [ match goal with
      | P : list byte |- _ =>
          destruct (Wire.to_bytes (Wire.len P) 4) as [?header|] eqn:Ho;
          [ destruct (send c) as [|?k ?n] eqn:Hs;
            [ pose proof (export_and_send_sent c wl _ _ Hm He Ho Hs) as Hrun
            | pose proof (export_and_send_send_error c wl _ _ _ _ Hm He Ho Hs) as Hrun ]
          | pose proof (export_and_send_overflow c wl _ Hm He Ho) as Hrun ]
      end
    | pose proof (export_and_send_failed c wl Hm
                    ltac:(intros ?; rewrite He; discriminate)) as Hrun
    | pose proof (export_and_send_failed c wl Hm
                    ltac:(intros ?; rewrite He; discriminate)) as Hrun ] ].

(** An iteration changes neither the scene, nor the connection, the
    thread, the stop event or the time of the last change; it leaves
    the lock free when it found it free. *)
Lemma loop_body_frame c w :
  let w' := world_of (loop_body c w) in
  scene w' = scene w
  ∧ vision_pro_devices (globals w') = vision_pro_devices (globals w)
  ∧ current_connection (globals w') = current_connection (globals w)
  ∧ streaming_thread (globals w') = streaming_thread (globals w)
  ∧ stop_streaming_event (globals w') = stop_streaming_event (globals w)
  ∧ last_model_change_time (globals w') = last_model_change_time (globals w)
  ∧ live_sockets (outside w') = live_sockets (outside w)
  ∧ next_socket (outside w') = next_socket (outside w)
  ∧ (export_lock (globals w) = false → export_lock (globals w') = false).
Proof.
  destruct (gate_closed c w) eqn:Hg.
  { rewrite loop_body_idle by done. cbn. by repeat split. }
  destruct (export_lock (globals w)) eqn:Hl.
  { rewrite loop_body_locked by done. cbn. by repeat split. }
  rewrite loop_body_export by done.
  set (wl := with_globals (set_export_lock true) w).
  destruct (after_wait_globals c (export_started wl)) as (H1 & H2 & H3 & H4 & H5 & _).
  pose proof (after_wait_outside c (export_started wl)) as H6.
  pose proof (scene_after_wait c (export_started wl)) as H7.
  cbn zeta in *.
  export_cases c wl Hrun;
    rewrite (try_finally_release _ _ _ _ _ Hrun);
    destruct (pending_changes_during_export _); cbn;
    rewrite ?H1, ?H2, ?H3, ?H4, ?H5, ?H6, ?H7; by repeat split.
Qed.

(** ** Runs of the loop without handler calls *)

Lemma quiet_externals_keep xs w :
  forallb is_quiet xs = true →
  gate_inputs_kept w (foldl apply_external w xs).
Proof.
  revert w. induction xs as [|x xs IH]; intros w Hq.
  - by repeat split.
  - cbn [forallb] in Hq. apply andb_true_iff in Hq as [Hx Hxs].
    cbn [foldl]. destruct (IH (apply_external w x) Hxs) as (H1 & H2 & H3 & H4 & H5).
    unfold gate_inputs_kept. rewrite H1, H2, H3, H4, H5.
    destruct x; try discriminate; by repeat split.
Qed.

(** A schedule in two parts. *)
Lemma while_not_stopped_app early late w :
  while_not_stopped (early ++ late) w
  = match while_not_stopped early w with
    | (Normal StillRunning, w1, ev1) =>
        (outcome_of (while_not_stopped late w1),
         world_of (while_not_stopped late w1),
         ev1 ++ events_of (while_not_stopped late w1))
    | r => r
    end.
Proof.
  revert w. induction early as [|st early IH]; intros w.
  - cbn. by destruct (while_not_stopped late w) as [[??]?].
  - cbn [app while_not_stopped].
    destruct (stop_streaming_event _); [done|].
    destruct (loop_body _ _) as [[o w1] ev1].
    destruct o as [[]| |e]; [| |done].
    all: rewrite IH; destruct (while_not_stopped early w1) as [[o2 w2] ev2];
      destruct o2 as [[]| |]; try done; cbn; by rewrite app_assoc.
Qed.

(** Once the threshold has passed, and as long as the handler is not
    called, every turn is an idle one: nothing reaches the peer. *)
Lemma while_not_stopped_idle late w :
  stream_only_when_active (scene w) = true →
  Forall undisturbed late →
  Forall (λ st, (inactivity_threshold (scene w)
                   <= now (cycle st) - last_model_change_time (globals w))%Q) late →
  let r := while_not_stopped late w in
  sent_bytes r = wire (outside w)
  ∧ Forall idle_event (events_of r)
  ∧ (∀ e, outcome_of r ≠ Raise e).
Proof.
  revert w. induction late as [|st late IH]; intros w Hs Hu Ht.
  - cbn. split_and!; [done|constructor|done].
  - apply Forall_cons in Hu as [[Hq _] Hu]. apply Forall_cons in Ht as [Hnow Ht].
    cbn [while_not_stopped].
    set (w0 := foldl apply_external w (before st)).
    destruct (quiet_externals_keep (before st) w Hq) as (K1 & K2 & K3 & K4 & K5).
    fold w0 in K1, K2, K3, K4, K5.
    destruct (stop_streaming_event (globals w0)).
    { cbn. unfold sent_bytes. cbn. split_and!; [done|constructor|done]. }
    assert (Hg : gate_closed (cycle st) w0 = true).
    { apply gate_closed_iff. rewrite K1, K2, K3. done. }
    rewrite (loop_body_idle _ _ Hg).
    destruct (IH w0) as (I1 & I2 & I3).
    { by rewrite K1. }
    { done. }
    { by rewrite K2, K3. }
    destruct (while_not_stopped late w0) as [[o2 w2] ev2].
    unfold sent_bytes, events_of, outcome_of, world_of in *. cbn in *.
    split_and!; [congruence| |done].
    constructor; [left; eauto|]. constructor; [by right|done].
Qed.

(** The handler is not called: the time of the last change and the
    gate settings stay as they are, whatever the iterations do. *)
Lemma while_not_stopped_keeps sched w :
  Forall undisturbed sched →
  let w' := world_of (while_not_stopped sched w) in
  stream_only_when_active (scene w') = stream_only_when_active (scene w)
  ∧ inactivity_threshold (scene w') = inactivity_threshold (scene w)
  ∧ last_model_change_time (globals w') = last_model_change_time (globals w)
  ∧ (export_lock (globals w) = false → export_lock (globals w') = false).
Proof.
  revert w. induction sched as [|st sched IH]; intros w Hu.
  - cbn. by repeat split.
  - apply Forall_cons in Hu as [[Hq _] Hu]. cbn [while_not_stopped].
    set (w0 := foldl apply_external w (before st)).
    destruct (quiet_externals_keep (before st) w Hq) as (K1 & K2 & K3 & K4 & K5).
    fold w0 in K1, K2, K3, K4, K5.
    destruct (stop_streaming_event (globals w0)).
    { cbn. rewrite K1, K2, K3, K5. by repeat split. }
    destruct (loop_body_frame (cycle st) w0) as (F1 & _ & _ & _ & _ & F6 & _ & _ & F9).
    cbn zeta in *.
    destruct (loop_body (cycle st) w0) as [[o w1] ev1].
    unfold world_of in *. cbn [fst snd] in *.
    generalize (IH w1 Hu). cbn zeta.
    destruct (while_not_stopped sched w1) as [[o2 w2] ev2].
    cbn [fst snd]. intros (I1 & I2 & I3 & I4).
    destruct o as [[]| |e]; cbn [fst snd].
    1,2: rewrite I1, I2, I3, F1, F6, K1, K2, K3; split_and!; try done;
         intros Hl; apply I4, F9; by rewrite K5.
    rewrite F1, F6, K1, K2, K3. split_and!; try done.
    intros Hl. apply F9. by rewrite K5.
Qed.

(** ** Start streaming, and the thread as a whole *)

Lemma start_streaming_finished t0 w0 w1 :
  start_streaming_execute t0 w0 = (FINISHED, w1) →
  scene w1 = set_is_streaming true (scene w0)
  ∧ outside w1 = outside w0
  ∧ export_lock (globals w1) = export_lock (globals w0)
  ∧ stop_streaming_event (globals w1) = false
  ∧ streaming_thread (globals w1) = Some true
  ∧ last_model_change_time (globals w1)
    = (if stream_only_when_active (scene w0) then t0
       else last_model_change_time (globals w0)).
Proof.
  unfold start_streaming_execute. cbn.
  destruct (current_connection (globals w0)); [|discriminate].
  destruct (thread_is_alive _); [discriminate|].
  destruct (stream_only_when_active (scene w0)); intros [= <-]; cbn;
    by repeat split.
Qed.

Lemma stream_enter_while sched w :
  (stream_enter;; while_not_stopped sched) w
  = (outcome_of (while_not_stopped sched (set_temp_dir None w)),
     world_of (while_not_stopped sched (set_temp_dir None w)),
     Register (StatusUpdate Streaming)
     :: events_of (while_not_stopped sched (set_temp_dir None w))).
Proof.
  unfold stream_enter.
  cbv [mbind M_bind timers_register emit modify].
  by destruct (while_not_stopped sched (set_temp_dir None w)) as [[[[]| |]?]?].
Qed.

(** Leaving the loop writes nothing to the socket. *)
Lemma stream_exit_wire o rmtree_ok w :
  sent_bytes (stream_exit o rmtree_ok w) = wire (outside w).
Proof.
  unfold stream_exit, stream_error_handler, sent_bytes, world_of.
  cbv [try_finally try_except leave caught_by_stream mbind M_bind mret M_ret
       timers_register emit modify cleanup_temp_dir].
  destruct o as [a| |[k|]]; cbn;
    repeat match goal with
           | |- context [match temp_dir ?x with _ => _ end] =>
               destruct (temp_dir x); cbn
           | |- context [if bool_decide ?p then _ else _] =>
               destruct (bool_decide p); cbn
           | |- context [if rmtree_ok then _ else _] =>
               destruct rmtree_ok; cbn
           end; reflexivity.
Qed.

(** The thread is still in its loop exactly when the [while] statement
    is. *)
Lemma stream_scene_data_running sched rmtree_ok w w2 ev :
  stream_scene_data sched rmtree_ok w = (Normal StillRunning, w2, ev) →
  while_not_stopped sched (set_temp_dir None w)
  = (Normal StillRunning, w2, tail ev).
Proof.
  unfold stream_scene_data. rewrite stream_enter_while.
  destruct (while_not_stopped sched (set_temp_dir None w)) as [[o w1] ev1].
  unfold outcome_of, world_of, events_of. cbn [fst snd].
  destruct o as [[]| |e].
  - unfold stream_exit.
    cbv [try_finally try_except leave mbind M_bind mret M_ret timers_register emit].
    destruct (cleanup_temp_dir rmtree_ok w1) as [[[[]| |]?]?]; discriminate.
  - by intros [= <- <-].
  - unfold stream_exit.
    cbv [try_finally try_except leave mbind M_bind mret M_ret timers_register emit].
    destruct (cleanup_temp_dir rmtree_ok w1) as [[[[]| |]?]?]; discriminate.
  - unfold stream_exit, stream_error_handler.
    cbv [try_finally try_except leave mbind M_bind mret M_ret timers_register
         emit modify].
    destruct (caught_by_stream e);
      destruct (cleanup_temp_dir rmtree_ok _) as [[[[]| |]?]?]; discriminate.
Qed.

(** An iteration that gets past the gate and the lock, and whose
    scratch directory is created, schedules the export callback. *)
Lemma loop_body_requests_export c w :
  gate_closed c w = false →
  export_lock (globals w) = false →
  mkdtemp_error c = None →
  ∃ evs, events_of (loop_body c w)
         = Mkdtemp (next_dir (outside w))
           :: Register (ExportCallback (next_dir (outside w))) :: evs.
Proof.
  intros Hg Hl Hm0. rewrite loop_body_export by done.
  set (wl := with_globals (set_export_lock true) w).
  export_cases c wl Hrun; try congruence;
    rewrite (try_finally_release_events _ _ _ _ _ Hrun);
    unfold export_events; cbn; eauto.
Qed.

(** ... and when the export yields [P] and [sendall] completes, the
    peer receives the frame of [P]. *)
Lemma loop_body_sends c w P :
  gate_closed c w = false →
  export_lock (globals w) = false →
  mkdtemp_error c = None →
  export c = Exported P →
  Wire.len P < 2 ^ 32 →
  send c = SendCompleted →
  sent_bytes (loop_body c w)
  = wire (outside w) ++ big_endian32 (Wire.len P) ++ P.
Proof.
  intros Hg Hl Hm He HL Hs. rewrite loop_body_export by done.
  set (wl := with_globals (set_export_lock true) w).
  assert (Ho : Wire.to_bytes (Wire.len P) 4 = Some (big_endian32 (Wire.len P))).
  { apply to_bytes_big_endian32. unfold Wire.len in *. lia. }
  rewrite (try_finally_release_wire _ _ _ _ _
             (export_and_send_sent c wl P _ Hm He Ho Hs)).
  cbn. by rewrite wire_after_wait.
Qed.

(** ** C4: no change is ever recorded *)

(** C4 as stated fails: start-streaming stamps the current time, so an
    iteration that follows at once passes the gate, exports and sends,
    though the handler was never called. *)
Lemma idle_from_the_first_iteration_fails :
  ¬ (∀ (w0 : World) (t0 : Q) (w1 : World) (sched : list Step) (rmtree_ok : bool),
       stream_only_when_active (scene w0) = true →
       start_streaming_execute t0 w0 = (FINISHED, w1) →
       Forall undisturbed sched →
       sent_bytes (stream_scene_data sched rmtree_ok w1) = wire (outside w1)).
Proof.
  intros H.
  specialize (H connected_world sample_time streaming_world
                [{| before := []; cycle := good_cycle sample_time |}] true).
  assert (Hu : Forall undisturbed
                 [{| before := []; cycle := good_cycle sample_time |}]).
  { repeat constructor. }
  specialize (H eq_refl eq_refl Hu).
  vm_compute in H. discriminate H.
Qed.


(** ** C10: the session begins active *)


(** The first two iterations of a session on which the handler is never
    called: both export and send. *)
Example first_cycles_send :
  let r := stream_scene_data
             [{| before := []; cycle := good_cycle sample_time |};
              {| before := []; cycle := good_cycle (sample_time + 1) |}]
             true streaming_world in
  outcome_of r = Normal StillRunning
  ∧ sent_bytes r
    = (big_endian32 3 ++ sample_payload) ++ (big_endian32 3 ++ sample_payload).
Proof. vm_compute. done. Qed.

(** ** C9: scratch directories *)

(** Leaving the loop removes no directory but the one [temp_dir]
    names. *)
Lemma stream_exit_keeps_other_dirs o rmtree_ok w (d : Dir) :
  d ∈ tmp_dirs (outside w) →
  temp_dir w ≠ Some d →
  d ∈ tmp_dirs (outside (world_of (stream_exit o rmtree_ok w))).
Proof.
  intros Hd Hne.
  unfold stream_exit, stream_error_handler, world_of.
  cbv [try_finally try_except leave caught_by_stream mbind M_bind mret M_ret
       timers_register emit modify cleanup_temp_dir].
  destruct o as [a| |[k|]]; cbn;
    destruct (temp_dir w) as [d'|] eqn:Ht; cbn; try done;
    destruct (bool_decide (d' ∈ tmp_dirs (outside w))); cbn; try done;
    destruct rmtree_ok; cbn; try done;
    apply elem_of_difference; split; try done;
    rewrite elem_of_singleton; congruence.
Qed.

(** Every exporting iteration points [temp_dir] at a new directory; the
    one it pointed at before is no longer known to the loop. *)
Lemma export_and_send_overwrites_temp_dir c w :
  mkdtemp_error c = None →
  let w' := world_of (export_and_send c w) in
  temp_dir w' = Some (next_dir (outside w))
  ∧ tmp_dirs (outside w') = {[next_dir (outside w)]} ∪ tmp_dirs (outside w).
Proof.
  intros Hm0.
  pose proof (after_wait_outside c (export_started w)) as Ho.
  pose proof (after_wait_temp_dir c (export_started w)) as Ht.
  export_cases c w Hrun; try congruence; rewrite Hrun; unfold world_of; cbn;
    rewrite ?Ho, ?Ht; done.
Qed.

(** C9 (the code departs from it). Two iterations export, then the
    stream is stopped: the loop exits through its [finally] clause,
    which removes the directory of the second iteration only; the
    directory of the first is still on disk. *)
Theorem scratch_directory_of_earlier_cycle_remains :
  let r := stream_scene_data two_cycles_then_stop true ungated_world in
  outcome_of r = Normal Exited
  ∧ filter is_dir_event (events_of r)
    = [Mkdtemp 0%nat; Mkdtemp 1%nat; Rmtree 1%nat]
  ∧ tmp_dirs (outside ungated_world) = ∅
  ∧ tmp_dirs (outside (world_of r)) = {[0%nat]}.
Proof. vm_compute. done. Qed.

(** ** C8: a single connection *)

Lemma stream_exit_connection o rmtree_ok w :
  let w' := world_of (stream_exit o rmtree_ok w) in
  current_connection (globals w') = current_connection (globals w)
  ∧ live_sockets (outside w') = live_sockets (outside w).
Proof.
  unfold stream_exit, stream_error_handler, world_of.
  cbv [try_finally try_except leave caught_by_stream mbind M_bind mret M_ret
       timers_register emit modify cleanup_temp_dir].
  destruct o as [a| |[k|]]; cbn;
    repeat match goal with
           | |- context [match temp_dir ?x with _ => _ end] =>
               destruct (temp_dir x); cbn
           | |- context [if bool_decide ?p then _ else _] =>
               destruct (bool_decide p); cbn
           | |- context [if rmtree_ok then _ else _] =>
               destruct rmtree_ok; cbn
           end; done.
Qed.

(** With a connection held, the Connect operator does not run. *)
Lemma connect_poll_connected o w :
  current_connection (globals w) ≠ None →
  VSP_OT_ConnectToVisionPro o w = (POLL_FAILED, w).
Proof.
  intros Hc. unfold VSP_OT_ConnectToVisionPro, call, connect_poll.
  rewrite (bool_decide_eq_false_2 _ Hc). by rewrite andb_false_r.
Qed.

Lemma perform_keeps_connection_invariant w a :
  connection_invariant w → connection_invariant (perform w a).
Proof.
  unfold connection_invariant. intros Hinv.
  destruct a as [name info|name|x|o| |t| | |c|o rmtree_ok]; cbn [perform].
  - done.
  - done.
  - destruct x as [t| | |s]; try done.
    cbn. unfold depsgraph_handler_update_time.
    by destruct (negb (is_exporting_usdz (globals w))).
  - unfold VSP_OT_ConnectToVisionPro, call.
    destruct (connect_poll w) eqn:Hp; [|done].
    unfold connect_poll in Hp.
    apply andb_true_iff in Hp as [_ Hp]. apply bool_decide_eq_true in Hp.
    rewrite Hp in Hinv. unfold connect_execute.
    destruct (vision_pro_devices (globals w) !! _); [|cbn; by rewrite Hp].
    destruct o; cbn; rewrite Hinv; [apply union_empty_r_L|done].
  - unfold VSP_OT_DisconnectVisionPro, call.
    destruct (disconnect_poll w); [|done].
    unfold disconnect_execute.
    set (w1 := match streaming_thread (globals w) with
               | Some true => _
               | _ => w
               end).
    assert (H1 : current_connection (globals w1) = current_connection (globals w)
                 ∧ live_sockets (outside w1) = live_sockets (outside w)).
    { unfold w1. by destruct (streaming_thread (globals w)) as [[|]|]. }
    destruct H1 as [H1 H2].
    destruct (current_connection (globals w1)) as [s|] eqn:Hc; cbn.
    + rewrite H2, Hinv, <- H1. apply difference_diag_L.
    + by rewrite Hc, H2, Hinv, <- H1.
  - unfold VSP_OT_StartStreaming, call.
    destruct (start_streaming_poll w); [|done].
    unfold start_streaming_execute. cbn.
    destruct (current_connection (globals w)) eqn:Hc; cbn; [|by rewrite Hc].
    destruct (thread_is_alive _); cbn; [by rewrite Hc|].
    destruct (stream_only_when_active (scene w)); cbn; by rewrite Hc.
  - unfold VSP_OT_StopStreaming, call.
    by destruct (stop_streaming_poll w).
  - done.
  - destruct (loop_body_frame c w) as (_ & _ & F3 & _ & _ & _ & F7 & _).
    cbn zeta in F3, F7. unfold world_of in *. by rewrite F3, F7.
  - destruct (stream_exit_connection o rmtree_ok w) as [F1 F2].
    cbn zeta in F1, F2. unfold world_of in *.
    assert (Ht : ∀ g, current_connection (thread_returned g) = current_connection g).
    { intros g. unfold thread_returned. by destruct (streaming_thread g). }
    cbn. by rewrite Ht, F1, F2.
Qed.

Lemma run_connection_invariant acts : connection_invariant (run acts).
Proof.
  unfold run.
  assert (H : connection_invariant initial_world) by reflexivity.
  revert H. generalize initial_world.
  induction acts as [|a acts IH]; intros w H; [done|].
  cbn [foldl]. by apply IH, perform_keeps_connection_invariant.
Qed.

(** C8. In every state the process can reach, at most one connected
    socket exists; and while one exists, calling the Connect operator
    is refused by its [poll] (the refusal the specification names
    [AlreadyConnectedError]): [execute] does not run, no socket is
    opened and the state is unchanged. *)
Theorem connect_refused_while_connected (acts : list Action) (o : ConnectOutcome) :
  let w := run acts in
  (size (live_sockets (outside w)) ≤ 1)%nat
  ∧ (live_sockets (outside w) ≠ ∅ →
     VSP_OT_ConnectToVisionPro o w = (POLL_FAILED, w)
     ∧ perform w (Connect o) = w).
Proof.
  intros w. pose proof (run_connection_invariant acts) as Hinv.
  fold w in Hinv. unfold connection_invariant in Hinv. split.
  - rewrite Hinv. destruct (current_connection (globals w)).
    + by rewrite size_singleton.
    + rewrite size_empty. lia.
  - intros Hlive.
    assert (Hc : current_connection (globals w) ≠ None).
    { intros Hc. rewrite Hc in Hinv. done. }
    cbn [perform]. by rewrite connect_poll_connected.
Qed.

Lemma connect_refused_while_connected_witness :
  live_sockets (outside connected_world) ≠ ∅
  ∧ (size (live_sockets (outside connected_world)) ≤ 1)%nat
  ∧ VSP_OT_ConnectToVisionPro ConnectSucceeds connected_world
    = (POLL_FAILED, connected_world).
Proof.
  assert (Hl : live_sockets (outside connected_world) ≠ ∅).
  { intros H. apply (f_equal size) in H. vm_compute in H. discriminate H. }
  split; [exact Hl|].
  destruct (connect_refused_while_connected
              [ServiceAdded sample_name sample_device;
               Host (SceneEdited active_only_scene);
               Connect ConnectSucceeds] ConnectSucceeds) as [H1 H2].
  split; [exact H1|]. exact (proj1 (H2 Hl)).
Defined.

(** The guard is [poll] alone: [execute], run on its own while a
    connection is held, opens a second socket. *)
Example execute_alone_opens_second_socket :
  size (live_sockets (outside (connect_execute ConnectSucceeds connected_world).2))
  = 2%nat.
Proof. vm_compute. reflexivity. Qed.

(** * Further properties of the worker *)

(** ** The frame *)

(** A frame is a prefix code: two streams that begin with frames and
    are equal begin with the same payload and go on alike. *)
Theorem frame_prefix_free (P1 P2 b1 b2 rest1 rest2 : list byte) :
  Wire.frame P1 = Some b1 →
  Wire.frame P2 = Some b2 →
  b1 ++ rest1 = b2 ++ rest2 →
  P1 = P2 ∧ rest1 = rest2.
Proof.
  unfold Wire.frame. intros H1 H2 Heq.
  destruct (Wire.to_bytes (Wire.len P1) 4) as [h1|] eqn:E1; [|discriminate].
  destruct (Wire.to_bytes (Wire.len P2) 4) as [h2|] eqn:E2; [|discriminate].
  injection H1 as <-. injection H2 as <-.
  destruct (to_bytes_inv _ _ _ E1) as (_ & L1 & V1).
  destruct (to_bytes_inv _ _ _ E2) as (_ & L2 & V2).
  pose proof (read_frame_app h1 P1 rest1 L1 V1) as R1.
  pose proof (read_frame_app h2 P2 rest2 L2 V2) as R2.
  rewrite Heq in R1. rewrite R1 in R2. by injection R2.
Qed.

Lemma frame_prefix_free_witness :
  Wire.frame sample_payload = Some (big_endian32 3 ++ sample_payload)
  ∧ (big_endian32 3 ++ sample_payload) ++ [x01]
    = (big_endian32 3 ++ sample_payload) ++ [x01]
  ∧ sample_payload = sample_payload ∧ [x01] = [x01].
Proof.
  assert (H : Wire.frame sample_payload = Some (big_endian32 3 ++ sample_payload))
    by reflexivity.
  split; [exact H|]. split; [reflexivity|].
  exact (frame_prefix_free sample_payload sample_payload _ _ [x01] [x01]
           H H eq_refl).
Defined.

(** [frame] fails exactly for payloads of 4 GiB or more; otherwise the
    message is four bytes longer than the payload, starts with the
    length and ends with the payload. *)
Theorem frame_defined_below_4GiB (P : list byte) :
  (Wire.frame P = None ↔ 2 ^ 32 <= Wire.len P)
  ∧ (∀ bs, Wire.frame P = Some bs →
           length bs = (4 + length P)%nat
           ∧ Wire.from_bytes (take 4 bs) = Wire.len P
           ∧ drop 4 bs = P).
Proof.
  unfold Wire.frame. split.
  - destruct (Wire.to_bytes (Wire.len P) 4) as [h|] eqn:E.
    + destruct (to_bytes_inv _ _ _ E) as (Hr & _ & _).
      change (256 ^ Z.of_nat 4) with (2 ^ 32) in Hr. split; [done|lia].
    + apply to_bytes_None in E. change (256 ^ Z.of_nat 4) with (2 ^ 32) in E.
      unfold Wire.len in *. split; [lia|done].
  - intros bs. destruct (Wire.to_bytes (Wire.len P) 4) as [h|] eqn:E; [|done].
    intros [= <-]. destruct (to_bytes_inv _ _ _ E) as (_ & Hl & Hv).
    rewrite length_app, Hl. split; [done|].
    replace 4%nat with (length h) by done.
    by rewrite take_app_length, drop_app_length.
Qed.

(** ** Locks, flags and what an iteration never touches *)

(** Every iteration leaves [export_lock] as it found it, whichever way
    it ends: a lock it took is released even when the body raises, and
    a lock held by someone else is not released. *)
Theorem iteration_restores_export_lock (c : Cycle) (w : World) :
  export_lock (globals (world_of (loop_body c w))) = export_lock (globals w).
Proof.
  destruct (gate_closed c w) eqn:Hg.
  { by rewrite loop_body_idle. }
  destruct (export_lock (globals w)) eqn:Hl.
  { by rewrite loop_body_locked. }
  by destruct (loop_body_frame c w) as (_ & _ & _ & _ & _ & _ & _ & _ & ->).
Qed.

(** An iteration changes neither the scene properties, the discovered
    devices, the connection, the thread handle, the stop event nor the
    time of the last change, however many handler calls fall into its
    export; and it opens and closes no socket. *)
Theorem iteration_leaves_session_state (c : Cycle) (w : World) :
  let w' := world_of (loop_body c w) in
  scene w' = scene w
  ∧ vision_pro_devices (globals w') = vision_pro_devices (globals w)
  ∧ current_connection (globals w') = current_connection (globals w)
  ∧ streaming_thread (globals w') = streaming_thread (globals w)
  ∧ stop_streaming_event (globals w') = stop_streaming_event (globals w)
  ∧ last_model_change_time (globals w') = last_model_change_time (globals w)
  ∧ live_sockets (outside w') = live_sockets (outside w).
Proof.
  destruct (loop_body_frame c w) as (H1 & H2 & H3 & H4 & H5 & H6 & H7 & _).
  by repeat split.
Qed.

(** A burst of handler calls outside an export leaves the time of the
    last call and does not touch the pending flag; inside an export the
    calls leave the time alone. *)
Theorem handler_burst_keeps_last_call (ts : list Q) (g : Globals) :
  let g' := handler_calls ts g in
  is_exporting_usdz g' = is_exporting_usdz g
  ∧ if is_exporting_usdz g
    then last_model_change_time g' = last_model_change_time g
         ∧ pending_changes_during_export g'
           = (pending_changes_during_export g || negb (bool_decide (ts = [])))
    else last_model_change_time g' = default (last_model_change_time g) (last ts)
         ∧ pending_changes_during_export g' = pending_changes_during_export g.
Proof.
  cbn zeta. destruct (is_exporting_usdz g) eqn:Hx.
  - rewrite handler_calls_exporting by done.
    destruct ts; cbn; [by rewrite Hx, orb_false_r|by rewrite Hx, orb_true_r].
  - revert g Hx. induction ts as [|t ts IH]; intros g Hx; [done|].
    unfold handler_calls in *. cbn [foldl].
    assert (Hg : depsgraph_handler_update_time t g = set_last_model_change_time t g).
    { unfold depsgraph_handler_update_time. by rewrite Hx. }
    rewrite Hg. destruct (IH (set_last_model_change_time t g) Hx) as (I1 & I2 & I3).
    rewrite I1, I2, I3. cbn. split; [done|]. split; [|done].
    destruct ts as [|t' ts]; [done|].
    change (last (t :: t' :: ts)) with (last (t' :: ts)).
    destruct (last (t' :: ts)) eqn:E; [done|].
    by apply last_None in E.
Qed.

(** ** A timed-out export *)

(** When the wait gives up on a callback that is still running,
    [is_exporting_usdz] stays raised after the iteration: a change the
    user makes then is recorded as pending and does not count as
    activity, until the callback returns. *)
Theorem timed_out_export_masks_activity (c : Cycle) (w : World) (t : Q) :
  gate_closed c w = false →
  export_lock (globals w) = false →
  mkdtemp_error c = None →
  export c = ExportTimedOut true →
  let w' := world_of (loop_body c w) in
  is_exporting_usdz (globals w') = true
  ∧ last_model_change_time (globals (apply_external w' (DepsgraphUpdate t)))
    = last_model_change_time (globals w)
  ∧ pending_changes_during_export
      (globals (apply_external w' (DepsgraphUpdate t))) = true
  ∧ last_model_change_time
      (globals (apply_external (apply_external w' ExportCallbackReturns)
                  (DepsgraphUpdate t))) = t.
Proof.
  intros Hg Hl Hm He. cbn zeta.
  rewrite loop_body_export by done.
  set (wl := with_globals (set_export_lock true) w).
  rewrite (try_finally_release _ _ _ _ _
             (export_and_send_failed c wl Hm ltac:(by rewrite He))).
  assert (Hx : is_exporting_usdz (globals (after_wait c (export_started wl))) = true).
  { unfold after_wait. rewrite He. cbn.
    rewrite handler_calls_exporting by done. by destruct (changes c). }
  destruct (after_wait_globals c (export_started wl)) as (_ & _ & _ & _ & Hlast & _).
  cbn zeta in Hlast.
  destruct (pending_changes_during_export _); cbn;
    unfold depsgraph_handler_update_time; cbn; rewrite Hx; cbn;
    by rewrite ?Hlast.
Qed.

Lemma timed_out_export_masks_activity_witness :
  let w' := world_of (loop_body (timed_out_cycle sample_time) streaming_world) in
  is_exporting_usdz (globals w') = true
  ∧ last_model_change_time
      (globals (apply_external w' (DepsgraphUpdate (sample_time + 1))))
    = last_model_change_time (globals streaming_world)
  ∧ pending_changes_during_export
      (globals (apply_external w' (DepsgraphUpdate (sample_time + 1)))) = true
  ∧ last_model_change_time
      (globals (apply_external (apply_external w' ExportCallbackReturns)
                  (DepsgraphUpdate (sample_time + 1)))) = (sample_time + 1)%Q.
Proof.
  apply (timed_out_export_masks_activity
           (timed_out_cycle sample_time) streaming_world (sample_time + 1)).
  - vm_compute. reflexivity.
  - reflexivity.
  - reflexivity.
  - reflexivity.
Defined.

(** ** The gate over time *)

(** Without a new change the gate never re-opens: closed at one time,
    it is closed at every later time. *)
Theorem gate_stays_closed (c c' : Cycle) (w : World) :
  gate_closed c w = true →
  (now c <= now c')%Q →
  gate_closed c' w = true.
Proof.
  rewrite !gate_closed_iff. intros [Hs Hq] Hle. split; [done|].
  eapply Qle_trans; [exact Hq|].
  unfold Qminus. apply Qplus_le_compat; [done|apply Qle_refl].
Qed.

Lemma gate_stays_closed_witness :
  gate_closed (good_cycle (sample_time + 2)) streaming_world = true
  ∧ gate_closed (good_cycle (sample_time + 7)) streaming_world = true.
Proof.
  assert (H : gate_closed (good_cycle (sample_time + 2)) streaming_world = true)
    by (vm_compute; reflexivity).
  split; [exact H|].
  apply (gate_stays_closed (good_cycle (sample_time + 2))
           (good_cycle (sample_time + 7)) streaming_world H).
  vm_compute. discriminate.
Defined.

(** A change recorded outside an export re-opens the gate: an
    iteration that begins before the threshold has passed since the
    change gets past the gate and, with the lock free and the scratch
    directory created, schedules the export. *)
Theorem recorded_change_reopens_gate (c : Cycle) (w : World) (t : Q) :
  is_exporting_usdz (globals w) = false →
  (now c - t < inactivity_threshold (scene w))%Q →
  export_lock (globals w) = false →
  mkdtemp_error c = None →
  let w' := apply_external w (DepsgraphUpdate t) in
  last_model_change_time (globals w') = t
  ∧ gate_closed c w' = false
  ∧ ∃ evs, events_of (loop_body c w')
           = Mkdtemp (next_dir (outside w))
             :: Register (ExportCallback (next_dir (outside w))) :: evs.
Proof.
  intros Hx Ht Hl Hm. cbn zeta.
  assert (Hw : apply_external w (DepsgraphUpdate t)
               = with_globals (set_last_model_change_time t) w).
  { cbn. unfold with_globals, depsgraph_handler_update_time. by rewrite Hx. }
  rewrite Hw.
  assert (Hg : gate_closed c (with_globals (set_last_model_change_time t) w) = false).
  { apply gate_open_iff. by right. }
  split_and!; [done|done|].
  by apply (loop_body_requests_export c
              (with_globals (set_last_model_change_time t) w)).
Qed.

Lemma recorded_change_reopens_gate_witness :
  gate_closed (good_cycle (sample_time + 7)) streaming_world = true
  ∧ let w' := apply_external streaming_world (DepsgraphUpdate (sample_time + 6)) in
    last_model_change_time (globals w') = (sample_time + 6)%Q
    ∧ gate_closed (good_cycle (sample_time + 7)) w' = false
    ∧ ∃ evs, events_of (loop_body (good_cycle (sample_time + 7)) w')
             = Mkdtemp (next_dir (outside streaming_world))
               :: Register (ExportCallback (next_dir (outside streaming_world)))
               :: evs.
Proof.
  split; [vm_compute; reflexivity|].
  apply (recorded_change_reopens_gate
           (good_cycle (sample_time + 7)) streaming_world (sample_time + 6)).
  - reflexivity.
  - vm_compute. reflexivity.
  - reflexivity.
  - reflexivity.
Defined.

(** ** Ways out of the loop *)

Lemma cleanup_temp_dir_outcome rmtree_ok w :
  outcome_of (cleanup_temp_dir rmtree_ok w) = Normal tt.
Proof.
  unfold cleanup_temp_dir.
  destruct (temp_dir w); [|done].
  destruct (bool_decide _); [|done]. by destruct rmtree_ok.
Qed.

(** The clean-up changes nothing but the directories on disk. *)
Lemma cleanup_temp_dir_world rmtree_ok w :
  let w' := world_of (cleanup_temp_dir rmtree_ok w) in
  globals w' = globals w ∧ scene w' = scene w ∧ temp_dir w' = temp_dir w
  ∧ wire (outside w') = wire (outside w)
  ∧ live_sockets (outside w') = live_sockets (outside w).
Proof.
  unfold cleanup_temp_dir.
  destruct (temp_dir w) eqn:Ht; [|by rewrite ?Ht].
  destruct (bool_decide _); [|by rewrite ?Ht].
  destruct rmtree_ok; cbn; by rewrite ?Ht.
Qed.

Lemma stream_exit_normal rmtree_ok w :
  stream_exit (Normal Exited) rmtree_ok w
  = (Normal Exited, world_of (cleanup_temp_dir rmtree_ok w),
     events_of (cleanup_temp_dir rmtree_ok w)
     ++ [Register (StatusUpdate StreamingStopped)]).
Proof.
  pose proof (cleanup_temp_dir_outcome rmtree_ok w) as Ho.
  unfold stream_exit.
  cbv [try_finally try_except leave mbind M_bind mret M_ret timers_register emit].
  destruct (cleanup_temp_dir rmtree_ok w) as [[o w1] ev].
  unfold outcome_of in Ho. cbn in Ho. subst o. reflexivity.
Qed.

Lemma stream_exit_overflow rmtree_ok w :
  stream_exit (Raise OverflowError) rmtree_ok w
  = (Raise OverflowError, world_of (cleanup_temp_dir rmtree_ok w),
     events_of (cleanup_temp_dir rmtree_ok w)).
Proof.
  pose proof (cleanup_temp_dir_outcome rmtree_ok w) as Ho.
  unfold stream_exit.
  cbv [try_finally try_except leave caught_by_stream mbind M_bind mret M_ret
       timers_register emit].
  destruct (cleanup_temp_dir rmtree_ok w) as [[o w1] ev].
  unfold outcome_of in Ho. cbn in Ho. subst o. reflexivity.
Qed.

(** The thread function once the [while] statement is left. *)
Lemma stream_scene_data_left sched rmtree_ok w o w1 ev :
  while_not_stopped sched (set_temp_dir None w) = (o, w1, ev) →
  o ≠ Normal StillRunning →
  stream_scene_data sched rmtree_ok w
  = (outcome_of (stream_exit o rmtree_ok w1),
     world_of (stream_exit o rmtree_ok w1),
     Register (StatusUpdate Streaming)
     :: ev ++ events_of (stream_exit o rmtree_ok w1)).
Proof.
  intros Hrun Hne. unfold stream_scene_data.
  rewrite stream_enter_while, Hrun.
  unfold outcome_of, world_of, events_of. cbn [fst snd].
  destruct (stream_exit o rmtree_ok w1) as [[o2 w2] ev2].
  by destruct o as [[]| |e].
Qed.

(** Once set, the stop event is not cleared by anything the main
    thread does between two iterations. *)
Lemma externals_keep_stop xs w :
  stop_streaming_event (globals w) = true →
  stop_streaming_event (globals (foldl apply_external w xs)) = true.
Proof.
  revert w. induction xs as [|x xs IH]; intros w H; [done|].
  cbn [foldl]. apply IH. destruct x; cbn; try done.
  unfold depsgraph_handler_update_time. by destruct (negb _).
Qed.

Lemma externals_set_stop xs w :
  In StopStreaming xs →
  stop_streaming_event (globals (foldl apply_external w xs)) = true.
Proof.
  revert w. induction xs as [|x xs IH]; intros w; [done|].
  intros [->|Hin]; cbn [foldl].
  - by apply externals_keep_stop.
  - by apply IH.
Qed.

Lemma externals_keep_temp_dir xs w :
  temp_dir (foldl apply_external w xs) = temp_dir w
  ∧ outside (foldl apply_external w xs) = outside w.
Proof.
  revert w. induction xs as [|x xs IH]; intros w; [done|].
  cbn [foldl]. destruct (IH (apply_external w x)) as [-> ->]. by destruct x.
Qed.

(** A stop request is honoured at the next loop test: the iteration of
    that turn is not run, whatever the schedule holds next; the thread
    leaves with the final status as its only event, requests no
    disconnect and leaves the connection as it is. *)
Theorem stop_request_ends_loop (bef : list External) (c : Cycle)
    (rest : list Step) (rmtree_ok : bool) (w : World) :
  In StopStreaming bef →
  temp_dir w = None →
  let w0 := foldl apply_external w bef in
  while_not_stopped ({| before := bef; cycle := c |} :: rest) w
  = (Normal Exited, w0, [])
  ∧ stream_exit (Normal Exited) rmtree_ok w0
    = (Normal Exited, w0, [Register (StatusUpdate StreamingStopped)]).
Proof.
  intros Hin Ht w0. split.
  - cbn [while_not_stopped before]. fold w0.
    unfold w0. by rewrite externals_set_stop.
  - rewrite stream_exit_normal.
    assert (Ht0 : temp_dir w0 = None).
    { unfold w0. by rewrite (proj1 (externals_keep_temp_dir bef w)). }
    unfold cleanup_temp_dir. by rewrite Ht0.
Qed.

Lemma stop_request_ends_loop_witness :
  let w0 := foldl apply_external streaming_world [StopStreaming] in
  while_not_stopped
    [{| before := [StopStreaming]; cycle := good_cycle sample_time |};
     {| before := []; cycle := good_cycle (sample_time + 1) |}]
    streaming_world
  = (Normal Exited, w0, [])
  ∧ stream_exit (Normal Exited) true w0
    = (Normal Exited, w0, [Register (StatusUpdate StreamingStopped)]).
Proof.
  apply (stop_request_ends_loop [StopStreaming] (good_cycle sample_time)
           [{| before := []; cycle := good_cycle (sample_time + 1) |}]
           true streaming_world).
  - simpl. tauto.
  - reflexivity.
Defined.

(** Whichever way the loop is left, the directory [temp_dir] names is
    gone afterwards when [rmtree] succeeds; when [rmtree] fails the
    thread ends the same way, with the same events. *)
Theorem exit_removes_last_scratch_directory (o : Outcome LoopExit)
    (w : World) (d : Dir) :
  temp_dir w = Some d →
  (d ∉ tmp_dirs (outside (world_of (stream_exit o true w))))
  ∧ outcome_of (stream_exit o false w) = outcome_of (stream_exit o true w)
  ∧ events_of (stream_exit o false w) = events_of (stream_exit o true w).
Proof.
  intros Ht.
  unfold stream_exit, stream_error_handler, world_of, outcome_of, events_of.
  cbv [try_finally try_except leave caught_by_stream mbind M_bind mret M_ret
       timers_register emit modify cleanup_temp_dir].
  destruct o as [a| |[k|]]; cbn; rewrite Ht;
    destruct (bool_decide (d ∈ _)) eqn:Hd; cbn;
    (split; [|done]);
    try (apply bool_decide_eq_false in Hd; exact Hd);
    set_solver.
Qed.

Lemma exit_removes_last_scratch_directory_witness :
  let w := world_of (loop_body (good_cycle sample_time) streaming_world) in
  temp_dir w = Some 0%nat
  ∧ (0%nat ∉ tmp_dirs (outside (world_of (stream_exit (Raise OverflowError) true w))))
  ∧ outcome_of (stream_exit (Raise OverflowError) false w)
    = outcome_of (stream_exit (Raise OverflowError) true w)
  ∧ events_of (stream_exit (Raise OverflowError) false w)
    = events_of (stream_exit (Raise OverflowError) true w).
Proof.
  assert (H : temp_dir (world_of (loop_body (good_cycle sample_time)
                                    streaming_world)) = Some 0%nat)
    by (vm_compute; reflexivity).
  split; [exact H|].
  exact (exit_removes_last_scratch_directory (Raise OverflowError) _ _ H).
Defined.

Lemma cleanup_temp_dir_existing rmtree_ok w d :
  temp_dir w = Some d →
  d ∈ tmp_dirs (outside w) →
  events_of (cleanup_temp_dir rmtree_ok w) = [Rmtree d].
Proof.
  intros Ht Hd. unfold cleanup_temp_dir. rewrite Ht.
  rewrite (bool_decide_eq_true_2 _ Hd). by destruct rmtree_ok.
Qed.

(** An export of 4 GiB or more: [to_bytes] raises [OverflowError],
    which none of the [except] clauses names.  The thread ends there:
    nothing is sent, no disconnect is requested, the stop event stays
    clear and the final status is never registered; the lock is
    released and the scratch directory is handed to [rmtree]. *)
Theorem oversized_payload_ends_thread_silently (c : Cycle) (rest : list Step)
    (rmtree_ok : bool) (w : World) (P : list byte) :
  stop_streaming_event (globals w) = false →
  gate_closed c w = false →
  export_lock (globals w) = false →
  mkdtemp_error c = None →
  export c = Exported P →
  2 ^ 32 <= Wire.len P →
  changes c = [] →
  pending_changes_during_export (globals w) = false →
  let r := stream_scene_data ({| before := []; cycle := c |} :: rest) rmtree_ok w in
  outcome_of r = Raise OverflowError
  ∧ events_of r
    = [Register (StatusUpdate Streaming);
       Mkdtemp (next_dir (outside w));
       Register (ExportCallback (next_dir (outside w)));
       Rmtree (next_dir (outside w))]
  ∧ sent_bytes r = wire (outside w)
  ∧ stop_streaming_event (globals (world_of r)) = false
  ∧ export_lock (globals (world_of r)) = false.
Proof.
  intros Hstop Hg Hl Hm He HL Hc Hp r.
  set (w' := set_temp_dir None w).
  set (wl := with_globals (set_export_lock true) w').
  assert (Ho : Wire.to_bytes (Wire.len P) 4 = None).
  { apply to_bytes_None. right. exact HL. }
  pose proof (export_and_send_overflow c wl P Hm He Ho) as Hrun.
  set (wa := after_wait c (export_started wl)) in *.
  assert (Hpa : pending_changes_during_export (globals wa) = false).
  { unfold wa. rewrite after_wait_pending, He, Hc. exact Hp. }
  assert (Hbody : loop_body c w'
                  = (Raise OverflowError, with_globals (set_export_lock false) wa,
                     export_events c wl)).
  { rewrite (loop_body_export c w' Hg Hl). fold wl.
    by rewrite (try_finally_release _ _ _ _ _ Hrun), Hpa. }
  assert (Hwhile : while_not_stopped ({| before := []; cycle := c |} :: rest) w'
                   = (Raise OverflowError, with_globals (set_export_lock false) wa,
                      export_events c wl)).
  { cbn [while_not_stopped before cycle foldl].
    change (stop_streaming_event (globals w')) with (stop_streaming_event (globals w)).
    by rewrite Hstop, Hbody. }
  assert (Hr : r = _) by apply (stream_scene_data_left _ rmtree_ok w _ _ _ Hwhile ltac:(done)).
  rewrite stream_exit_overflow in Hr.
  set (w1 := with_globals (set_export_lock false) wa) in *.
  assert (Ht : temp_dir w1 = Some (next_dir (outside w))).
  { unfold w1, wa. cbn. by rewrite after_wait_temp_dir. }
  assert (Hd : next_dir (outside w) ∈ tmp_dirs (outside w1)).
  { unfold w1, wa. cbn. rewrite after_wait_outside. cbn. set_solver. }
  destruct (cleanup_temp_dir_world rmtree_ok w1) as (Cg & _ & _ & Cw & _).
  cbn zeta in Cg, Cw.
  rewrite (cleanup_temp_dir_existing rmtree_ok w1 _ Ht Hd) in Hr.
  rewrite Hr. unfold outcome_of, events_of, sent_bytes, world_of. cbn [fst snd].
  unfold world_of in Cg, Cw. rewrite Cg, Cw.
  destruct (after_wait_globals c (export_started wl)) as (_ & _ & _ & Hs & _).
  cbn zeta in Hs. fold wa in Hs.
  split_and!.
  - done.
  - unfold export_events. by rewrite He.
  - unfold w1, wa. cbn. by rewrite wire_after_wait.
  - unfold w1. cbn. by rewrite Hs.
  - done.
Qed.

Lemma oversized_payload_ends_thread_silently_witness :
  let r := stream_scene_data
             [{| before := []; cycle := oversized_cycle sample_time |};
              {| before := []; cycle := good_cycle (sample_time + 1) |}]
             true ungated_world in
  outcome_of r = Raise OverflowError
  ∧ events_of r
    = [Register (StatusUpdate Streaming);
       Mkdtemp (next_dir (outside ungated_world));
       Register (ExportCallback (next_dir (outside ungated_world)));
       Rmtree (next_dir (outside ungated_world))]
  ∧ sent_bytes r = wire (outside ungated_world)
  ∧ stop_streaming_event (globals (world_of r)) = false
  ∧ export_lock (globals (world_of r)) = false.
Proof.
  apply (oversized_payload_ends_thread_silently
           (oversized_cycle sample_time)
           [{| before := []; cycle := good_cycle (sample_time + 1) |}]
           true ungated_world oversized_payload).
  - reflexivity.
  - reflexivity.
  - reflexivity.
  - reflexivity.
  - reflexivity.
  - unfold Wire.len, oversized_payload. rewrite repeat_length.
    rewrite Z2Nat.id; lia.
  - reflexivity.
  - reflexivity.
Defined.

(** A failure of [tempfile.mkdtemp] is an [OSError] inside the inner
    [try]: with no change pending it is handled like a dead socket.
    Nothing is exported or sent, one disconnect is requested, the stop
    event is set and the thread ends with the final status. *)
Theorem mkdtemp_failure_requests_disconnect (c : Cycle) (rest : list Step)
    (rmtree_ok : bool) (w : World) (k : OSErr) :
  stop_streaming_event (globals w) = false →
  gate_closed c w = false →
  export_lock (globals w) = false →
  mkdtemp_error c = Some k →
  pending_changes_during_export (globals w) = false →
  let r := stream_scene_data ({| before := []; cycle := c |} :: rest) rmtree_ok w in
  outcome_of r = Normal Exited
  ∧ events_of r
    = [Register (StatusUpdate Streaming);
       Register DisconnectOperator;
       Register (StatusUpdate StreamingStopped)]
  ∧ sent_bytes r = wire (outside w)
  ∧ tmp_dirs (outside (world_of r)) = tmp_dirs (outside w)
  ∧ stop_streaming_event (globals (world_of r)) = true
  ∧ export_lock (globals (world_of r)) = false.
Proof.
  intros Hstop Hg Hl Hm Hp r.
  set (w' := set_temp_dir None w).
  set (wl := with_globals (set_export_lock true) w').
  pose proof (export_and_send_mkdtemp_error c wl k Hm) as Hrun.
  assert (Hbody : loop_body c w'
                  = (Raise (OSError k), with_globals (set_export_lock false) wl, [])).
  { rewrite (loop_body_export c w' Hg Hl). fold wl.
    rewrite (try_finally_release _ _ _ _ _ Hrun).
    change (pending_changes_during_export (globals wl))
      with (pending_changes_during_export (globals w)).
    by rewrite Hp. }
  assert (Hwhile : while_not_stopped ({| before := []; cycle := c |} :: rest) w'
                   = (Raise (OSError k), with_globals (set_export_lock false) wl, [])).
  { cbn [while_not_stopped before cycle foldl].
    change (stop_streaming_event (globals w')) with (stop_streaming_event (globals w)).
    by rewrite Hstop, Hbody. }
  assert (Hr : r = _) by apply (stream_scene_data_left _ rmtree_ok w _ _ _ Hwhile ltac:(done)).
  rewrite stream_exit_oserror in Hr. rewrite Hr.
  unfold outcome_of, events_of, sent_bytes, world_of, cleanup_temp_dir.
  cbn. by repeat split.
Qed.

Lemma mkdtemp_failure_requests_disconnect_witness :
  let r := stream_scene_data
             [{| before := []; cycle := disk_full_cycle sample_time |};
              {| before := []; cycle := good_cycle (sample_time + 1) |}]
             true ungated_world in
  outcome_of r = Normal Exited
  ∧ events_of r
    = [Register (StatusUpdate Streaming);
       Register DisconnectOperator;
       Register (StatusUpdate StreamingStopped)]
  ∧ sent_bytes r = wire (outside ungated_world)
  ∧ tmp_dirs (outside (world_of r)) = tmp_dirs (outside ungated_world)
  ∧ stop_streaming_event (globals (world_of r)) = true
  ∧ export_lock (globals (world_of r)) = false.
Proof.
  apply (mkdtemp_failure_requests_disconnect
           (disk_full_cycle sample_time)
           [{| before := []; cycle := good_cycle (sample_time + 1) |}]
           true ungated_world OtherOSError).
  - reflexivity.
  - reflexivity.
  - reflexivity.
  - reflexivity.
  - reflexivity.
Defined.

(** ** Scratch directories over a whole session *)

Lemma created_dirs_app evs1 evs2 :
  created_dirs (evs1 ++ evs2) = (created_dirs evs1 + created_dirs evs2)%nat.
Proof. unfold created_dirs. by rewrite List.filter_app, length_app. Qed.

Lemma created_dirs_export_events c w : created_dirs (export_events c w) = 1%nat.
Proof. unfold export_events. by destruct (export c) as [|[|]|]. Qed.

(** An iteration either leaves the directories alone or creates
    exactly one and points [temp_dir] at it. *)
Lemma loop_body_dirs c w :
  let r := loop_body c w in
  (outside (world_of r) = outside w ∧ temp_dir (world_of r) = temp_dir w
   ∧ created_dirs (events_of r) = 0%nat)
  ∨ (tmp_dirs (outside (world_of r)) = {[next_dir (outside w)]} ∪ tmp_dirs (outside w)
     ∧ next_dir (outside (world_of r)) = S (next_dir (outside w))
     ∧ temp_dir (world_of r) = Some (next_dir (outside w))
     ∧ created_dirs (events_of r) = 1%nat).
Proof.
  cbn zeta. destruct (gate_closed c w) eqn:Hg.
  { rewrite loop_body_idle by done. by left. }
  destruct (export_lock (globals w)) eqn:Hl.
  { rewrite loop_body_locked by done. by left. }
  rewrite loop_body_export by done.
  set (wl := with_globals (set_export_lock true) w).
  pose proof (after_wait_outside c (export_started wl)) as Ho.
  pose proof (after_wait_temp_dir c (export_started wl)) as Ht.
  export_cases c wl Hrun;
    rewrite (try_finally_release _ _ _ _ _ Hrun);
    destruct (pending_changes_during_export _);
    unfold world_of, events_of; cbn [fst snd];
    first [ by left
          | right; rewrite ?created_dirs_app, ?created_dirs_export_events;
            cbn; rewrite ?Ho, ?Ht; by repeat split ].
Qed.

Lemma dirs_grown_refl w : dirs_fresh w → dirs_grown w w 0.
Proof. intros H. unfold dirs_grown. split_and!; [done|done|lia|lia|by left]. Qed.

Lemma dirs_grown_trans w0 w1 w2 n1 n2 :
  dirs_grown w0 w1 n1 → dirs_grown w1 w2 n2 → dirs_grown w0 w2 (n1 + n2).
Proof.
  intros (A1 & A2 & A3 & A4 & A5) (B1 & B2 & B3 & B4 & B5).
  unfold dirs_grown. split_and!; [set_solver|done|lia|lia|].
  intros d Hd. destruct (B5 d Hd) as [H|H]; [by apply A5|right; lia].
Qed.

Lemma loop_body_dirs_grown c w :
  dirs_fresh w →
  dirs_grown w (world_of (loop_body c w)) (created_dirs (events_of (loop_body c w))).
Proof.
  intros Hf. destruct (loop_body_dirs c w) as [(Ho & Ht & Hn)|(Hd & Hnx & Ht & Hn)];
    cbn zeta in *; rewrite Hn; unfold dirs_grown, dirs_fresh in *.
  - rewrite Ho, Ht. split_and!; [done|done|lia|lia|by left].
  - rewrite Hd, Hnx, Ht. split_and!.
    + set_solver.
    + intros d [->%elem_of_singleton|Hin]%elem_of_union; [lia|].
      apply Hf in Hin. lia.
    + rewrite size_union, size_singleton; [lia|].
      apply disjoint_singleton_l. intros Hin. apply Hf in Hin. lia.
    + lia.
    + intros d [= <-]. right. lia.
Qed.

Lemma while_not_stopped_dirs_grown sched w :
  dirs_fresh w →
  dirs_grown w (world_of (while_not_stopped sched w))
    (created_dirs (events_of (while_not_stopped sched w))).
Proof.
  revert w. induction sched as [|st sched IH]; intros w Hf.
  - by apply dirs_grown_refl.
  - cbn [while_not_stopped].
    set (w0 := foldl apply_external w (before st)).
    destruct (externals_keep_temp_dir (before st) w) as [Et Eo]. fold w0 in Et, Eo.
    assert (G0 : dirs_grown w w0 0).
    { unfold dirs_grown, dirs_fresh in *. rewrite Eo, Et.
      split_and!; [done|done|lia|lia|by left]. }
    destruct (stop_streaming_event (globals w0)); [exact G0|].
    assert (Hf0 : dirs_fresh w0) by apply G0.
    pose proof (loop_body_dirs_grown (cycle st) w0 Hf0) as G1.
    destruct (loop_body (cycle st) w0) as [[o w1] ev1].
    unfold world_of, events_of in G1. cbn [fst snd] in G1.
    assert (Hf1 : dirs_fresh w1) by apply G1.
    pose proof (IH w1 Hf1) as G2.
    destruct (while_not_stopped sched w1) as [[o2 w2] ev2].
    unfold world_of, events_of in *. cbn [fst snd] in *.
    destruct o as [[]| |e]; cbn [fst snd].
    1,2: rewrite created_dirs_app;
         apply (dirs_grown_trans w w0 w2 0 _ G0), (dirs_grown_trans _ w1); done.
    apply (dirs_grown_trans w w0 w1 0 _ G0 G1).
Qed.

(** Leaving the loop creates no directory and removes at most the one
    [temp_dir] names. *)
Lemma stream_exit_dirs o rmtree_ok w :
  let r := stream_exit o rmtree_ok w in
  created_dirs (events_of r) = 0%nat
  ∧ (tmp_dirs (outside (world_of r)) = tmp_dirs (outside w)
     ∨ ∃ d, temp_dir w = Some d ∧ d ∈ tmp_dirs (outside w)
            ∧ tmp_dirs (outside (world_of r)) = tmp_dirs (outside w) ∖ {[d]}).
Proof.
  unfold stream_exit, stream_error_handler, world_of, events_of.
  cbv [try_finally try_except leave caught_by_stream mbind M_bind mret M_ret
       timers_register emit modify cleanup_temp_dir].
  destruct o as [a| |[k|]]; cbn;
    (destruct (temp_dir w) as [d|] eqn:Ht; cbn; [|by split; [|left]]);
    (destruct (bool_decide (d ∈ tmp_dirs (outside w))) eqn:Hd; cbn;
     [|by split; [|left]]);
    apply bool_decide_eq_true in Hd;
    (destruct rmtree_ok; cbn; [|by split; [|left]]);
    (split; [done|right; by exists d]).
Qed.

(** Over a whole run of the thread that creates [n] scratch
    directories, no directory that was on disk before is removed, and
    at least [n - 1] of the new ones are still on disk at the end: the
    thread deletes one directory at most. *)
Theorem scratch_directories_accumulate (sched : list Step) (rmtree_ok : bool)
    (w : World) :
  dirs_fresh w →
  let r := stream_scene_data sched rmtree_ok w in
  tmp_dirs (outside w) ⊆ tmp_dirs (outside (world_of r))
  ∧ (size (tmp_dirs (outside w)) + created_dirs (events_of r)
     ≤ size (tmp_dirs (outside (world_of r))) + 1)%nat.
Proof.
  intros Hf. cbn zeta. unfold stream_scene_data. rewrite stream_enter_while.
  set (w' := set_temp_dir None w).
  assert (Hf' : dirs_fresh w') by exact Hf.
  pose proof (while_not_stopped_dirs_grown sched w' Hf') as (G1 & G2 & G3 & G4 & G5).
  destruct (while_not_stopped sched w') as [[o w1] ev1].
  unfold outcome_of, world_of, events_of in *. cbn [fst snd] in *.
  change (tmp_dirs (outside w')) with (tmp_dirs (outside w)) in *.
  change (next_dir (outside w')) with (next_dir (outside w)) in *.
  assert (Hrun : ∀ n, created_dirs (Register (StatusUpdate Streaming) :: ev1 ++ n)
                      = (created_dirs ev1 + created_dirs n)%nat).
  { intros n. by rewrite <- created_dirs_app. }
  assert (Hexit : ∀ o',
            let x := stream_exit o' rmtree_ok w1 in
            tmp_dirs (outside w) ⊆ tmp_dirs (outside x.1.2)
            ∧ (size (tmp_dirs (outside w))
               + created_dirs (Register (StatusUpdate Streaming) :: ev1 ++ x.2)
               ≤ size (tmp_dirs (outside x.1.2)) + 1)%nat).
  { intros o'. cbn zeta. rewrite Hrun.
    destruct (stream_exit_dirs o' rmtree_ok w1) as [Hn [Hs|(d & Ht & Hd & Hs)]];
      unfold world_of, events_of in *; cbn zeta in *; rewrite Hn, Hs.
    - split; [done|lia].
    - destruct (G5 d Ht) as [Habs|Hge]; [done|]. split.
      + intros d0 Hd0. apply elem_of_difference. split; [by apply G1|].
        rewrite elem_of_singleton. intros ->. apply Hf in Hd0. lia.
      + rewrite size_difference by (by apply singleton_subseteq_l).
        rewrite size_singleton.
        assert (size (tmp_dirs (outside w1)) ≠ 0)%nat.
        { intros Hz. apply size_empty_inv in Hz. set_solver. }
        lia. }
  destruct o as [[]| |e].
  - specialize (Hexit (Normal Exited)). cbn zeta in Hexit.
    by destruct (stream_exit (Normal Exited) rmtree_ok w1) as [[??]?].
  - cbn [fst snd]. split; [done|].
    rewrite <- (app_nil_r ev1), Hrun. cbn. lia.
  - specialize (Hexit Continue). cbn zeta in Hexit.
    by destruct (stream_exit Continue rmtree_ok w1) as [[??]?].
  - specialize (Hexit (Raise e)). cbn zeta in Hexit.
    by destruct (stream_exit (Raise e) rmtree_ok w1) as [[??]?].
Qed.

Lemma scratch_directories_accumulate_witness :
  let r := stream_scene_data two_cycles_then_stop true ungated_world in
  tmp_dirs (outside ungated_world) ⊆ tmp_dirs (outside (world_of r))
  ∧ (size (tmp_dirs (outside ungated_world)) + created_dirs (events_of r)
     ≤ size (tmp_dirs (outside (world_of r))) + 1)%nat.
Proof.
  apply (scratch_directories_accumulate two_cycles_then_stop true ungated_world).
  intros d Hd. vm_compute in Hd. discriminate Hd.
Defined.

(** * Further properties of the operators *)

(** Once Start Streaming has spawned the worker, a second call is
    refused by [poll] and changes nothing; [execute] on its own would
    be cancelled without stamping the time again. *)
Theorem start_refused_while_worker_alive (t t' : Q) (w w1 : World) :
  VSP_OT_StartStreaming t w = (FINISHED, w1) →
  VSP_OT_StartStreaming t' w1 = (POLL_FAILED, w1)
  ∧ (start_streaming_execute t' w1).1 = CANCELLED
  ∧ last_model_change_time (globals (start_streaming_execute t' w1).2)
    = last_model_change_time (globals w1).
Proof.
  unfold VSP_OT_StartStreaming, call.
  destruct (start_streaming_poll w); [|discriminate].
  intros Hstart.
  destruct (start_streaming_finished _ _ _ Hstart) as (_ & _ & _ & _ & Ht & _).
  assert (Ha : thread_is_alive w1 = true) by (unfold thread_is_alive; by rewrite Ht).
  unfold start_streaming_poll. rewrite Ha, andb_false_r. split; [done|].
  unfold start_streaming_execute.
  change (thread_is_alive (with_globals _ (with_scene _ w1))) with (thread_is_alive w1).
  cbn. destruct (current_connection (globals w1)); [by rewrite Ha|done].
Qed.

Lemma start_refused_while_worker_alive_witness :
  VSP_OT_StartStreaming sample_time connected_world = (FINISHED, streaming_world)
  ∧ VSP_OT_StartStreaming (sample_time + 1) streaming_world
    = (POLL_FAILED, streaming_world)
  ∧ (start_streaming_execute (sample_time + 1) streaming_world).1 = CANCELLED
  ∧ last_model_change_time
      (globals (start_streaming_execute (sample_time + 1) streaming_world).2)
    = last_model_change_time (globals streaming_world).
Proof.
  assert (H : VSP_OT_StartStreaming sample_time connected_world
              = (FINISHED, streaming_world)) by reflexivity.
  split; [exact H|].
  exact (start_refused_while_worker_alive sample_time (sample_time + 1) _ _ H).
Defined.

(** In every reachable state the Disconnect operator leaves no
    connected socket and no connection; a second call is refused and
    changes nothing. *)
Theorem disconnect_closes_the_connection (acts : list Action) :
  let w' := perform (run acts) Disconnect in
  live_sockets (outside w') = ∅
  ∧ current_connection (globals w') = None
  ∧ VSP_OT_DisconnectVisionPro w' = (POLL_FAILED, w')
  ∧ perform w' Disconnect = w'.
Proof.
  cbn zeta.
  pose proof (perform_keeps_connection_invariant _ Disconnect
                (run_connection_invariant acts)) as Hinv.
  set (w' := perform (run acts) Disconnect) in *.
  assert (Hc : current_connection (globals w') = None).
  { unfold w'. cbn [perform]. unfold VSP_OT_DisconnectVisionPro, call, disconnect_poll.
    destruct (bool_decide_reflect (current_connection (globals (run acts)) ≠ None))
      as [Hp|Hp].
    - unfold disconnect_execute.
      set (w1 := match streaming_thread (globals (run acts)) with
                 | Some true => _
                 | _ => run acts
                 end).
      by destruct (current_connection (globals w1)) eqn:E.
    - cbn. by destruct (current_connection (globals (run acts))) as [s|];
        [destruct Hp|]. }
  unfold connection_invariant in Hinv. rewrite Hc in Hinv.
  assert (Hp : VSP_OT_DisconnectVisionPro w' = (POLL_FAILED, w')).
  { unfold VSP_OT_DisconnectVisionPro, call, disconnect_poll. rewrite Hc.
    by rewrite bool_decide_eq_false_2 by (intros H; by apply H). }
  split_and!; try done. cbn [perform]. by rewrite Hp.
Qed.

(** A connect attempt that fails leaves the add-on as disconnected as
    it was, with no socket left open, and Connect can be tried again. *)
Theorem failed_connect_can_be_retried (w : World) :
  connect_poll w = true →
  let r := VSP_OT_ConnectToVisionPro ConnectRaises w in
  r.1 = CANCELLED
  ∧ current_connection (globals r.2) = None
  ∧ live_sockets (outside r.2) = live_sockets (outside w)
  ∧ connect_poll r.2 = true.
Proof.
  intros Hp. cbn zeta. unfold VSP_OT_ConnectToVisionPro, call. rewrite Hp.
  unfold connect_poll in Hp.
  apply andb_true_iff in Hp as [[Hn Hd]%andb_true_iff Hc].
  apply bool_decide_eq_true in Hd as [info Hd].
  unfold connect_execute. rewrite Hd. cbn.
  split_and!; try done.
  unfold connect_poll. cbn. by rewrite Hn, Hd.
Qed.

Lemma failed_connect_can_be_retried_witness :
  let w := run [ServiceAdded sample_name sample_device;
                Host (SceneEdited active_only_scene)] in
  connect_poll w = true
  ∧ (VSP_OT_ConnectToVisionPro ConnectRaises w).1 = CANCELLED
  ∧ current_connection (globals (VSP_OT_ConnectToVisionPro ConnectRaises w).2) = None
  ∧ live_sockets (outside (VSP_OT_ConnectToVisionPro ConnectRaises w).2)
    = live_sockets (outside w)
  ∧ connect_poll (VSP_OT_ConnectToVisionPro ConnectRaises w).2 = true.
Proof.
  assert (H : connect_poll (run [ServiceAdded sample_name sample_device;
                                 Host (SceneEdited active_only_scene)]) = true)
    by (vm_compute; reflexivity).
  split; [exact H|].
  exact (failed_connect_can_be_retried _ H).
Defined.

(** A connect attempt that succeeds stores a socket that was not open
    before as the only change to the connection state; Disconnect
    becomes available, Connect is disabled, and Start Streaming is
    available unless a worker is still alive. *)
Theorem successful_connect_enables_streaming (w : World) :
  connect_poll w = true →
  let r := VSP_OT_ConnectToVisionPro ConnectSucceeds w in
  r.1 = FINISHED
  ∧ current_connection (globals r.2) = Some (next_socket (outside w))
  ∧ live_sockets (outside r.2) = {[next_socket (outside w)]} ∪ live_sockets (outside w)
  ∧ connect_poll r.2 = false
  ∧ disconnect_poll r.2 = true
  ∧ start_streaming_poll r.2 = negb (thread_is_alive w).
Proof.
  intros Hp. cbn zeta. unfold VSP_OT_ConnectToVisionPro, call. rewrite Hp.
  unfold connect_poll in Hp.
  apply andb_true_iff in Hp as [[Hn Hd]%andb_true_iff Hc].
  apply bool_decide_eq_true in Hd as [info Hd].
  unfold connect_execute. rewrite Hd. cbn.
  split_and!; try done.
  unfold connect_poll. cbn. by rewrite andb_false_r.
Qed.

Lemma successful_connect_enables_streaming_witness :
  let w := run [ServiceAdded sample_name sample_device;
                Host (SceneEdited active_only_scene)] in
  let r := VSP_OT_ConnectToVisionPro ConnectSucceeds w in
  connect_poll w = true
  ∧ r.1 = FINISHED
  ∧ current_connection (globals r.2) = Some (next_socket (outside w))
  ∧ live_sockets (outside r.2) = {[next_socket (outside w)]} ∪ live_sockets (outside w)
  ∧ connect_poll r.2 = false
  ∧ disconnect_poll r.2 = true
  ∧ start_streaming_poll r.2 = negb (thread_is_alive w).
Proof.
  assert (H : connect_poll (run [ServiceAdded sample_name sample_device;
                                 Host (SceneEdited active_only_scene)]) = true)
    by (vm_compute; reflexivity).
  split; [exact H|].
  exact (successful_connect_enables_streaming _ H).
Defined.

(** When the selected device disappears from the network, Connect is
    refused by [poll]; and [execute], which looks the device up again
    under the lock, is cancelled without opening a socket. *)
Theorem removed_device_cannot_be_connected (o : ConnectOutcome) (w : World) :
  let w' := with_globals (remove_service (selected_device_name (scene w))) w in
  VSP_OT_ConnectToVisionPro o w' = (POLL_FAILED, w')
  ∧ connect_execute o w' = (CANCELLED, w').
Proof.
  cbn zeta. set (w' := with_globals _ w).
  assert (Hd : vision_pro_devices (globals w') !! selected_device_name (scene w')
               = None).
  { unfold w'. cbn. apply lookup_delete_eq. }
  split.
  - unfold VSP_OT_ConnectToVisionPro, call, connect_poll. rewrite Hd.
    rewrite (bool_decide_eq_false_2 (is_Some None)) by (by intros [??]).
    by rewrite andb_false_r.
  - unfold connect_execute. by rewrite Hd.
Qed.

(** While the worker is in its loop it touches neither the scene, the
    device registry, the connection, the thread handle, the stop event
    nor the set of connected sockets. *)
Lemma worker_in_loop_keeps ws w :
  forallb worker_in_loop ws = true →
  let w' := foldl perform w ws in
  scene w' = scene w
  ∧ vision_pro_devices (globals w') = vision_pro_devices (globals w)
  ∧ current_connection (globals w') = current_connection (globals w)
  ∧ streaming_thread (globals w') = streaming_thread (globals w)
  ∧ stop_streaming_event (globals w') = stop_streaming_event (globals w)
  ∧ live_sockets (outside w') = live_sockets (outside w).
Proof.
  revert w. induction ws as [|a ws IH]; intros w Hws.
  - by repeat split.
  - cbn [forallb] in Hws. apply andb_true_iff in Hws as [Ha Hws].
    cbn [foldl]. destruct (IH (perform w a) Hws) as (H1 & H2 & H3 & H4 & H5 & H6).
    cbn zeta. rewrite H1, H2, H3, H4, H5, H6.
    destruct a; try discriminate; cbn [perform].
    + by repeat split.
    + destruct (loop_body_frame c w) as (F1 & F2 & F3 & F4 & F5 & _ & F7 & _).
      cbn zeta in *. unfold world_of in *. by repeat split.
Qed.

(** Leaving the loop changes, of these, the stop event alone. *)
Lemma stream_exit_frame o rmtree_ok w :
  let w' := world_of (stream_exit o rmtree_ok w) in
  scene w' = scene w
  ∧ vision_pro_devices (globals w') = vision_pro_devices (globals w)
  ∧ streaming_thread (globals w') = streaming_thread (globals w).
Proof.
  unfold stream_exit, stream_error_handler, world_of.
  cbv [try_finally try_except leave caught_by_stream mbind M_bind mret M_ret
       timers_register emit modify cleanup_temp_dir].
  destruct o as [a| |[k|]]; cbn;
    repeat match goal with
           | |- context [match temp_dir ?x with _ => _ end] =>
               destruct (temp_dir x); cbn
           | |- context [if bool_decide ?p then _ else _] =>
               destruct (bool_decide p); cbn
           | |- context [if rmtree_ok then _ else _] =>
               destruct rmtree_ok; cbn
           end; done.
Qed.

(** Connect, Start Streaming, Disconnect, the worker still being in
    its loop when Disconnect is called (it has entered and run any
    number of iterations [ws], or none): from a state in which Connect
    is available the calls end with no connection, no connected
    socket, no thread handle, the stop event clear and [is_streaming]
    off, and Connect is available again.  When the worker has left its
    loop before Disconnect is called, Disconnect still closes the
    connection, but it skips the thread: the handle of the dead thread
    stays, and [is_streaming] and the stop event stay as they were. *)
Theorem connect_start_disconnect_round_trip (t : Q) (w : World)
    (ws : list Action) :
  connection_invariant w →
  connect_poll w = true →
  forallb worker_in_loop ws = true →
  let w2 := foldl perform
              (perform (perform w (Connect ConnectSucceeds)) (StartStreamingOp t))
              ws in
  let w3 := perform w2 Disconnect in
  (current_connection (globals w3) = None
   ∧ live_sockets (outside w3) = ∅
   ∧ streaming_thread (globals w3) = None
   ∧ stop_streaming_event (globals w3) = false
   ∧ is_streaming (scene w3) = false
   ∧ connect_poll w3 = true)
  ∧ (∀ o rmtree_ok,
       let w2' := perform w2 (WorkerLeaves o rmtree_ok) in
       let w3' := perform w2' Disconnect in
       current_connection (globals w3') = None
       ∧ live_sockets (outside w3') = ∅
       ∧ streaming_thread (globals w3') = Some false
       ∧ stop_streaming_event (globals w3') = stop_streaming_event (globals w2')
       ∧ is_streaming (scene w3') = is_streaming (scene w2)
       ∧ connect_poll w3' = true).
Proof.
  intros Hinv Hp Hws. cbn zeta.
  pose proof Hp as Hp'. unfold connect_poll in Hp'.
  apply andb_true_iff in Hp' as [[Hn Hd]%andb_true_iff Hc].
  apply bool_decide_eq_true in Hd as [info Hd].
  apply bool_decide_eq_true in Hc.
  unfold connection_invariant in Hinv. rewrite Hc in Hinv.
  cbn [perform]. unfold VSP_OT_ConnectToVisionPro, call. rewrite Hp.
  unfold connect_execute. rewrite Hd. cbn [snd].
  set (w1 := with_globals _ (with_outside _ w)).
  unfold VSP_OT_StartStreaming, call, start_streaming_poll.
  assert (Hc1 : current_connection (globals w1) = Some (next_socket (outside w)))
    by reflexivity.
  rewrite Hc1, bool_decide_eq_true_2 by done. cbn [andb].
  change (thread_is_alive w1) with (thread_is_alive w).
  assert (Hl1 : live_sockets (outside w1) = {[next_socket (outside w)]}).
  { unfold w1. cbn. rewrite Hinv. apply union_empty_r_L. }
  set (w2 := (if negb (thread_is_alive w) then start_streaming_execute t w1
              else (POLL_FAILED, w1)).2).
  assert (H2 : current_connection (globals w2) = Some (next_socket (outside w))
               ∧ live_sockets (outside w2) = {[next_socket (outside w)]}
               ∧ vision_pro_devices (globals w2) = vision_pro_devices (globals w)
               ∧ selected_device_name (scene w2) = selected_device_name (scene w)
               ∧ streaming_thread (globals w2) = Some true).
  { unfold w2. destruct (thread_is_alive w) eqn:Ha; cbn [negb snd].
    - unfold thread_is_alive in Ha. split_and!; try done.
      change (streaming_thread (globals w1)) with (streaming_thread (globals w)).
      by destruct (streaming_thread (globals w)) as [[|]|].
    - unfold start_streaming_execute.
      change (thread_is_alive (with_globals _ (with_scene _ w1)))
        with (thread_is_alive w).
      cbn. rewrite Ha. by destruct (stream_only_when_active (scene w)). }
  clearbody w2.
  destruct (worker_in_loop_keeps ws w2 Hws) as (K1 & K2 & K3 & K4 & _ & K6).
  cbn zeta in K1, K2, K3, K4, K6.
  set (wk := foldl perform w2 ws) in *.
  destruct H2 as (C1 & C2 & C3 & C4 & C5).
  rewrite <- K3 in C1. rewrite <- K6 in C2. rewrite <- K2 in C3.
  rewrite <- K1 in C4. rewrite <- K4 in C5.
  clearbody wk. clear K1 K2 K3 K4 K6.
  split.
  - unfold VSP_OT_DisconnectVisionPro, call, disconnect_poll.
    rewrite C1, bool_decide_eq_true_2 by done.
    unfold disconnect_execute, connect_poll. rewrite C5. cbn. rewrite C1. cbn.
    rewrite C2, C3, C4, Hn, Hd. cbn.
    split_and!; try done. apply difference_diag_L.
  - intros o rmtree_ok.
    destruct (stream_exit_connection o rmtree_ok wk) as [F1 F2].
    destruct (stream_exit_frame o rmtree_ok wk) as (F3 & F4 & F5).
    cbn zeta in F1, F2, F3, F4, F5. unfold world_of in *.
    set (wx := (stream_exit o rmtree_ok wk).1.2) in *.
    rewrite <- F1 in C1. rewrite <- F2 in C2. rewrite <- F4 in C3.
    rewrite <- F3 in C4. rewrite <- F5 in C5. rewrite <- F3.
    clearbody wx.
    set (wy := with_globals thread_returned wx).
    assert (Hy : current_connection (globals wy) = Some (next_socket (outside w))
                 ∧ live_sockets (outside wy) = {[next_socket (outside w)]}
                 ∧ vision_pro_devices (globals wy) = vision_pro_devices (globals w)
                 ∧ scene wy = scene wx
                 ∧ streaming_thread (globals wy) = Some false).
    { unfold wy. cbn. unfold thread_returned. rewrite C5. cbn.
      by rewrite C1, C2, C3. }
    destruct Hy as (Y1 & Y2 & Y3 & Y4 & Y5). clearbody wy.
    unfold VSP_OT_DisconnectVisionPro, call, disconnect_poll.
    rewrite Y1, bool_decide_eq_true_2 by done.
    unfold disconnect_execute, connect_poll. rewrite Y5. cbn. rewrite Y1. cbn.
    rewrite Y2, Y3, Y4, C4, Hn, Hd. cbn.
    split_and!; try done. apply difference_diag_L.
Qed.

Lemma connect_start_disconnect_round_trip_witness :
  let w := run [ServiceAdded sample_name sample_device;
                Host (SceneEdited active_only_scene)] in
  let ws := [WorkerEnters; WorkerIterates (good_cycle sample_time)] in
  let w2 := foldl perform
              (perform (perform w (Connect ConnectSucceeds))
                 (StartStreamingOp sample_time))
              ws in
  let w3 := perform w2 Disconnect in
  (current_connection (globals w3) = None
   ∧ live_sockets (outside w3) = ∅
   ∧ streaming_thread (globals w3) = None
   ∧ stop_streaming_event (globals w3) = false
   ∧ is_streaming (scene w3) = false
   ∧ connect_poll w3 = true)
  ∧ (∀ o rmtree_ok,
       let w2' := perform w2 (WorkerLeaves o rmtree_ok) in
       let w3' := perform w2' Disconnect in
       current_connection (globals w3') = None
       ∧ live_sockets (outside w3') = ∅
       ∧ streaming_thread (globals w3') = Some false
       ∧ stop_streaming_event (globals w3') = stop_streaming_event (globals w2')
       ∧ is_streaming (scene w3') = is_streaming (scene w2)
       ∧ connect_poll w3' = true).
Proof.
  apply (connect_start_disconnect_round_trip sample_time
           (run [ServiceAdded sample_name sample_device;
                 Host (SceneEdited active_only_scene)])
           [WorkerEnters; WorkerIterates (good_cycle sample_time)]).
  - vm_compute. reflexivity.
  - vm_compute. reflexivity.
  - reflexivity.
Defined.

(** The two schedules, run: the worker iterating when Disconnect is
    called, and the worker gone after an [OSError] of [sendall]. *)
Example disconnect_with_and_without_worker :
  let w := run [ServiceAdded sample_name sample_device;
                Host (SceneEdited active_only_scene);
                Connect ConnectSucceeds; StartStreamingOp sample_time;
                WorkerEnters; WorkerIterates (good_cycle sample_time)] in
  let alive := perform w Disconnect in
  let gone := perform (perform w (WorkerLeaves (Raise (OSError BrokenPipeError)) true))
                Disconnect in
  (streaming_thread (globals alive), stop_streaming_event (globals alive),
   is_streaming (scene alive)) = (None, false, false)
  ∧ (streaming_thread (globals gone), stop_streaming_event (globals gone),
     is_streaming (scene gone)) = (Some false, true, true).
Proof. vm_compute. done. Qed.

(** * Properties of discovery and of the device list *)

(** ** The listener *)

Lemma listener_event_no_effect key ev g :
  effect_on key ev = None →
  vision_pro_devices (listener_event g ev) !! key = vision_pro_devices g !! key.
Proof.
  destruct ev as [n [| |i d]|n [| |i d]|n]; cbn; try done.
  - destruct (String.eqb_spec i key); [done|]. intros _. by apply lookup_insert_ne.
  - destruct (String.eqb_spec i key); [done|]. intros _. by apply lookup_insert_ne.
  - destruct (String.eqb_spec n key); [done|]. intros _. by apply lookup_delete_ne.
Qed.

Lemma listener_event_effect key ev g r :
  effect_on key ev = Some r →
  vision_pro_devices (listener_event g ev) !! key = r.
Proof.
  destruct ev as [n [| |i d]|n [| |i d]|n]; cbn; try done.
  - destruct (String.eqb_spec i key) as [->|]; [|done].
    intros [= <-]. apply lookup_insert_eq.
  - destruct (String.eqb_spec i key) as [->|]; [|done].
    intros [= <-]. apply lookup_insert_eq.
  - destruct (String.eqb_spec n key) as [->|]; [|done].
    intros [= <-]. apply lookup_delete_eq.
Qed.

(** Last writer wins, per name: after any log of listener callbacks,
    the entry of a name is what the last callback that concerned this
    name left, whatever happened to other names before or after. *)
Theorem listener_last_event_wins (pre post : list ListenerEvent)
    (ev : ListenerEvent) (key : string) (r : option DeviceInfo) (g : Globals) :
  effect_on key ev = Some r →
  (∀ e, In e post → effect_on key e = None) →
  vision_pro_devices (foldl listener_event g (pre ++ ev :: post)) !! key = r.
Proof.
  intros Hev Hpost. rewrite foldl_app. cbn [foldl].
  set (g1 := listener_event (foldl listener_event g pre) ev).
  assert (H1 : vision_pro_devices g1 !! key = r)
    by by apply listener_event_effect.
  clearbody g1. revert g1 H1.
  induction post as [|e post IH]; intros g1 H1; [done|].
  cbn [foldl]. apply IH.
  - intros e' He'. apply Hpost. by right.
  - rewrite listener_event_no_effect; [done|]. apply Hpost. by left.
Qed.

Lemma listener_last_event_wins_witness :
  vision_pro_devices
    (foldl listener_event initial_globals
       ([AddService sample_name (Resolved sample_name other_device)]
        ++ UpdateService sample_name (Resolved sample_name sample_device)
           :: [AddService other_name (Resolved other_name other_device);
               RemoveService other_name;
               AddService sample_name NotResolved])) !! sample_name
  = Some sample_device.
Proof.
  apply (listener_last_event_wins
           [AddService sample_name (Resolved sample_name other_device)]
           [AddService other_name (Resolved other_name other_device);
            RemoveService other_name;
            AddService sample_name NotResolved]
           (UpdateService sample_name (Resolved sample_name sample_device))
           sample_name (Some sample_device) initial_globals).
  - reflexivity.
  - intros e [<-|[<-|[<-|[]]]]; reflexivity.
Defined.

(** The registry laws of the two callbacks: removing a name that is
    not present changes nothing; adding a new name and removing it
    gives the globals back; a second resolution of a name replaces the
    first. *)
Theorem device_registry_laws (name : string) (d1 d2 : DeviceInfo) (g : Globals) :
  (vision_pro_devices g !! name = None →
   remove_service name g = g
   ∧ remove_service name (add_service name d1 g) = g)
  ∧ add_service name d2 (add_service name d1 g) = add_service name d2 g.
Proof.
  destruct g as [devs conn thr stop last exporting lock pending].
  unfold remove_service, add_service. cbn. split.
  - intros Hn. split; f_equal.
    + by apply delete_id.
    + by apply delete_insert_id.
  - f_equal. apply insert_insert_eq.
Qed.

Lemma device_registry_laws_witness :
  vision_pro_devices initial_globals !! sample_name = None
  ∧ remove_service sample_name initial_globals = initial_globals
  ∧ remove_service sample_name (add_service sample_name sample_device initial_globals)
    = initial_globals.
Proof.
  assert (H : vision_pro_devices initial_globals !! sample_name = None)
    by reflexivity.
  split; [exact H|].
  exact (proj1 (device_registry_laws sample_name sample_device sample_device
                  initial_globals) H).
Defined.

(** ** The device list *)

Example display_name_sample : display_name sample_name = "Vision Pro".
Proof. reflexivity. Qed.

Example describe_sample :
  describe sample_device = "Host: vision-pro.local., Port: 8080, IPs: 192.168.1.20".
Proof. vm_compute. reflexivity. Qed.

Lemma identifiers_device_items order devices :
  map identifier (device_items order devices)
  = List.filter (λ name, bool_decide (is_Some (devices !! name))) order.
Proof.
  unfold device_items. induction order as [|name order IH]; [done|].
  cbn [flat_map List.filter]. rewrite map_app.
  destruct (devices !! name) as [data|] eqn:E.
  - rewrite bool_decide_eq_true_2 by eauto. cbn [map app]. f_equal. exact IH.
  - rewrite bool_decide_eq_false_2 by (by intros [??]). exact IH.
Qed.

Lemma get_discovered_devices_enum_nonempty order devices :
  get_discovered_devices_enum order devices ≠ [].
Proof.
  unfold get_discovered_devices_enum. by destruct (device_items order devices).
Qed.

(** The identifiers the panel offers: the device names in dict order,
    or the placeholder alone when there is no device. *)
Lemma valid_identifiers_listing order devices :
  lists_keys order devices →
  map identifier (get_discovered_devices_enum order devices)
  = match order with [] => ["NONE"] | _ => order end.
Proof.
  intros [_ Hk]. unfold get_discovered_devices_enum.
  assert (Hl : map identifier (device_items order devices) = order).
  { rewrite identifiers_device_items. apply forallb_filter_id, forallb_forall.
    intros name Hin. apply bool_decide_eq_true, Hk. by apply list_elem_of_In. }
  destruct (device_items order devices) as [|item items] eqn:E.
  - cbn in Hl. by rewrite <- Hl.
  - rewrite Hl. destruct order; [discriminate Hl|done].
Qed.

Lemma update_device_list_selection (order : list string) (w : World) :
  selected_device_name (scene (update_device_list order w).1)
    ∈ map identifier
        (get_discovered_devices_enum order (vision_pro_devices (globals w)))
  ∧ (update_device_list order w).2 ≠ Some "Device list cleared."
  ∧ globals (update_device_list order w).1 = globals w
  ∧ outside (update_device_list order w).1 = outside w.
Proof.
  unfold update_device_list.
  pose proof (get_discovered_devices_enum_nonempty order
                (vision_pro_devices (globals w))) as Hne.
  set (valid := map identifier _).
  assert (Hv : valid ≠ []).
  { unfold valid. by destruct (get_discovered_devices_enum _ _). }
  destruct (bool_decide_reflect (selected_device_name (scene w) ∈ valid))
    as [Hin|Hin].
  { by repeat split. }
  destruct valid as [|first rest] eqn:Ev; [done|].
  destruct (String.eqb_spec first "NONE") as [->|Hf]; cbn [negb].
  - rewrite bool_decide_eq_true_2 by apply list_elem_of_here.
    cbn. split_and!; try done. apply list_elem_of_here.
  - cbn. split_and!; try done. apply list_elem_of_here.
Qed.


(** After a refresh, with the dict holding no empty name and no
    connection open: Connect is available exactly when a device has
    been discovered; the selection is then a discovered device, and
    the placeholder otherwise. *)
Theorem refresh_decides_connect (order : list string) (w : World) :
  lists_keys order (vision_pro_devices (globals w)) →
  vision_pro_devices (globals w) !! "" = None →
  current_connection (globals w) = None →
  let w' := (update_device_list order w).1 in
  match order with
  | [] => selected_device_name (scene w') = "NONE" ∧ connect_poll w' = false
  | _ :: _ =>
      is_Some (vision_pro_devices (globals w) !! selected_device_name (scene w'))
      ∧ connect_poll w' = true
  end.
Proof.
  intros Hk Hempty Hc. cbn zeta.
  destruct (update_device_list_selection order w) as (Hin & _ & Hg & _).
  rewrite (valid_identifiers_listing _ _ Hk) in Hin.
  destruct Hk as [_ Hk].
  unfold connect_poll. rewrite Hg, Hc.
  destruct order as [|k order].
  - apply list_elem_of_singleton in Hin. rewrite Hin. split; [done|].
    assert (Hn : vision_pro_devices (globals w) !! "NONE" = None).
    { destruct (vision_pro_devices (globals w) !! "NONE") eqn:E; [|done].
      assert (H : "NONE" ∈ @nil string) by (apply Hk; eauto).
      by apply not_elem_of_nil in H. }
    rewrite Hn. rewrite (bool_decide_eq_false_2 (is_Some None)) by (by intros [??]).
    by rewrite andb_false_r.
  - apply Hk in Hin. split; [done|].
    rewrite (bool_decide_eq_true_2 _ Hin), bool_decide_eq_true_2 by done.
    destruct (String.eqb_spec (selected_device_name (scene (update_device_list (k :: order) w).1)) "")
      as [He|He]; [|done].
    rewrite He, Hempty in Hin. by destruct Hin.
Qed.

Lemma refresh_decides_connect_witness :
  let w := run [ServiceAdded sample_name sample_device] in
  let w' := (update_device_list [sample_name] w).1 in
  is_Some (vision_pro_devices (globals w) !! selected_device_name (scene w'))
  ∧ connect_poll w' = true.
Proof.
  apply (refresh_decides_connect [sample_name]
           (run [ServiceAdded sample_name sample_device])).
  - split.
    + repeat constructor. intros H. by apply not_elem_of_nil in H.
    + intros name. cbn. rewrite list_elem_of_singleton, lookup_insert_is_Some.
      rewrite lookup_empty. split; [by left|].
      intros [->|[_ [? H]]]; [done|discriminate H].
  - reflexivity.
  - reflexivity.
Defined.

(** ** Discovery sessions *)

Lemma perform_addon_keeps_discovery_invariant a x :
  closes_return x = true →
  discovery_invariant (discovery a) →
  discovery_invariant (discovery (perform_addon a x)).
Proof.
  unfold discovery_invariant. intros Hc Hinv.
  destruct x as [o closes|closes|ev|order|act]; cbn in Hc; subst; cbn [perform_addon];
    try done.
  - unfold VSP_OT_DiscoverVisionPro, call_addon.
    destruct (discover_poll a) eqn:Hp; [|done].
    unfold discover_poll in Hp. apply andb_true_iff in Hp as [Ha Hn].
    apply bool_decide_eq_true in Hn. rewrite Hn in Hinv.
    unfold discover_execute. rewrite Ha. cbn [negb].
    destruct o; cbn; unfold discover_failed; cbn; rewrite ?Hn; cbn;
      rewrite ?Hinv; try done; set_solver.
  - unfold VSP_OT_StopDiscovery.
    destruct (stop_discovery_poll a) eqn:Hp; [|done].
    unfold stop_discovery_execute.
    set (a1 := match zeroconf_browser (discovery a) with
               | Some _ => _
               | None => a
               end).
    assert (H1 : zeroconf_instance (discovery a1) = zeroconf_instance (discovery a)
                 ∧ open_instances (discovery a1) = open_instances (discovery a)).
    { unfold a1. by destruct (zeroconf_browser (discovery a)). }
    destruct H1 as [H1 H2].
    destruct (zeroconf_instance (discovery a1)) as [i|] eqn:Hi; cbn.
    + rewrite H2, Hinv, <- H1. apply difference_diag_L.
    + by rewrite Hi, H2, Hinv, <- H1.
Qed.

Lemma listener_event_keeps_connection g ev :
  current_connection (listener_event g ev) = current_connection g.
Proof. by destruct ev as [n [| |i d]|n [| |i d]|n]. Qed.

Lemma perform_addon_keeps_connection_invariant a x :
  connection_invariant (world a) →
  connection_invariant (world (perform_addon a x)).
Proof.
  intros Hinv.
  destruct x as [o closes|closes|ev|order|act]; cbn [perform_addon].
  - unfold VSP_OT_DiscoverVisionPro, call_addon.
    destruct (discover_poll a); [|done].
    unfold discover_execute. destruct (negb _); [done|]. by destruct o.
  - unfold VSP_OT_StopDiscovery.
    destruct (stop_discovery_poll a); [|done].
    unfold stop_discovery_execute.
    set (a1 := match zeroconf_browser (discovery a) with
               | Some _ => _
               | None => a
               end).
    assert (H1 : world a1 = world a).
    { unfold a1. by destruct (zeroconf_browser (discovery a)). }
    unfold connection_invariant in *.
    destruct (zeroconf_instance (discovery a1)); [destruct closes|]; cbn;
      by rewrite H1.
  - unfold connection_invariant in *. cbn.
    by rewrite listener_event_keeps_connection.
  - unfold connection_invariant in *. cbn.
    destruct (update_device_list_selection order (world a)) as (_ & _ & -> & ->).
    done.
  - cbn. by apply perform_keeps_connection_invariant.
Qed.

Lemma run_addon_invariants available xs :
  forallb closes_return xs = true →
  connection_invariant (world (run_addon available xs))
  ∧ discovery_invariant (discovery (run_addon available xs)).
Proof.
  unfold run_addon.
  assert (H : connection_invariant (world (initial_addon available))
              ∧ discovery_invariant (discovery (initial_addon available)))
    by (split; reflexivity).
  revert H. generalize (initial_addon available).
  induction xs as [|x xs IH]; intros a [H1 H2] Hc; [done|].
  cbn [forallb] in Hc. apply andb_true_iff in Hc as [Hx Hxs].
  cbn [foldl]. apply IH; [|done]. split.
  - by apply perform_addon_keeps_connection_invariant.
  - by apply perform_addon_keeps_discovery_invariant.
Qed.

(** As long as every [close()] returns, at most one Zeroconf instance
    is open in any state the add-on reaches; and while one is open,
    Start Discovery is refused by [poll] and changes nothing. *)
Theorem single_discovery_session (available : bool) (xs : list AddonAction)
    (o : DiscoverOutcome) (closes : bool) :
  forallb closes_return xs = true →
  let a := run_addon available xs in
  (size (open_instances (discovery a)) ≤ 1)%nat
  ∧ (open_instances (discovery a) ≠ ∅ →
     VSP_OT_DiscoverVisionPro o closes a = (POLL_FAILED, a)).
Proof.
  intros Hc a.
  destruct (run_addon_invariants available xs Hc) as [_ Hinv]. fold a in Hinv.
  unfold discovery_invariant in Hinv. split.
  - rewrite Hinv. destruct (zeroconf_instance (discovery a)).
    + by rewrite size_singleton.
    + rewrite size_empty. lia.
  - intros Hopen. unfold VSP_OT_DiscoverVisionPro, call_addon, discover_poll.
    destruct (zeroconf_instance (discovery a)) as [i|] eqn:Hi; [|done].
    rewrite bool_decide_eq_false_2 by done. by rewrite andb_false_r.
Qed.

Lemma single_discovery_session_witness :
  let a := run_addon true [Discover DiscoveryStarted true;
                           Listener (AddService sample_name
                                       (Resolved sample_name sample_device))] in
  (size (open_instances (discovery a)) ≤ 1)%nat
  ∧ (open_instances (discovery a) ≠ ∅ →
     VSP_OT_DiscoverVisionPro DiscoveryStarted true a = (POLL_FAILED, a)).
Proof.
  apply (single_discovery_session true
           [Discover DiscoveryStarted true;
            Listener (AddService sample_name (Resolved sample_name sample_device))]
           DiscoveryStarted true).
  reflexivity.
Defined.

(** Without the [zeroconf] package nothing the add-on does ever
    creates an instance: the discovery globals stay as loaded, and
    [execute] of Start Discovery is cancelled before it clears the
    device list. *)
Theorem no_discovery_without_zeroconf (xs : list AddonAction)
    (o : DiscoverOutcome) (closes : bool) :
  let a := run_addon false xs in
  discovery a = discovery (initial_addon false)
  ∧ VSP_OT_DiscoverVisionPro o closes a = (POLL_FAILED, a)
  ∧ VSP_OT_StopDiscovery closes a = (Some POLL_FAILED, a)
  ∧ discover_execute o closes a = (CANCELLED, a).
Proof.
  cbn zeta.
  assert (H : discovery (run_addon false xs) = discovery (initial_addon false)).
  { unfold run_addon. generalize (eq_refl (discovery (initial_addon false))).
    generalize (initial_addon false) at 1 3.
    induction xs as [|x xs IH]; intros a Ha; [done|].
    cbn [foldl]. apply IH.
    destruct x as [o' c'|c'|ev|order|act]; cbn [perform_addon]; try done.
    - unfold VSP_OT_DiscoverVisionPro, call_addon, discover_poll. by rewrite Ha.
    - unfold VSP_OT_StopDiscovery, stop_discovery_poll. by rewrite Ha. }
  split_and!; [done|..].
  - unfold VSP_OT_DiscoverVisionPro, call_addon, discover_poll. by rewrite H.
  - unfold VSP_OT_StopDiscovery, stop_discovery_poll. by rewrite H.
  - unfold discover_execute. by rewrite H.
Qed.

(** Stop Discovery on a running session closes the instance, drops the
    browser and empties the device list; the connection is left as it
    is; a second Stop is refused and Start Discovery is available
    again. *)
Theorem stop_discovery_returns_to_idle (a : Addon) (closes : bool) :
  discovery_invariant (discovery a) →
  stop_discovery_poll a = true →
  let r := VSP_OT_StopDiscovery true a in
  r.1 = Some FINISHED
  ∧ zeroconf_instance (discovery r.2) = None
  ∧ zeroconf_browser (discovery r.2) = None
  ∧ open_instances (discovery r.2) = ∅
  ∧ vision_pro_devices (globals (world r.2)) = ∅
  ∧ current_connection (globals (world r.2)) = current_connection (globals (world a))
  ∧ outside (world r.2) = outside (world a)
  ∧ VSP_OT_StopDiscovery closes r.2 = (Some POLL_FAILED, r.2)
  ∧ discover_poll r.2 = true.
Proof.
  intros Hinv Hp. cbn zeta.
  pose proof Hp as Hp'. unfold stop_discovery_poll in Hp'.
  apply andb_true_iff in Hp' as [Ha Hn]. apply bool_decide_eq_true in Hn.
  unfold discovery_invariant in Hinv.
  destruct (zeroconf_instance (discovery a)) as [i|] eqn:Hi; [|done].
  set (a1 := match zeroconf_browser (discovery a) with
             | Some _ => with_discovery (set_zeroconf_browser None) a
             | None => a
             end).
  assert (H1 : zeroconf_instance (discovery a1) = Some i
               ∧ open_instances (discovery a1) = {[i]}
               ∧ ZEROCONF_AVAILABLE (discovery a1) = true
               ∧ zeroconf_browser (discovery a1) = None
               ∧ world a1 = world a).
  { unfold a1. by destruct (zeroconf_browser (discovery a)) eqn:E. }
  destruct H1 as (H1 & H2 & H3 & H4 & H5).
  assert (Hr : VSP_OT_StopDiscovery true a
               = (Some FINISHED,
                  with_world (with_globals clear_devices)
                    (with_discovery
                       (λ d, set_zeroconf_instance None (close_instance true i d))
                       a1))).
  { unfold VSP_OT_StopDiscovery. rewrite Hp. unfold stop_discovery_execute.
    fold a1. by rewrite H1. }
  rewrite Hr. cbn [fst snd].
  unfold VSP_OT_StopDiscovery, stop_discovery_poll, discover_poll.
  cbn. rewrite H2, H3, H4, H5.
  split_and!; try done. apply difference_diag_L.
Qed.

Lemma stop_discovery_returns_to_idle_witness :
  let a := run_addon true [Discover DiscoveryStarted true;
                           Listener (AddService sample_name
                                       (Resolved sample_name sample_device))] in
  let r := VSP_OT_StopDiscovery true a in
  r.1 = Some FINISHED
  ∧ zeroconf_instance (discovery r.2) = None
  ∧ zeroconf_browser (discovery r.2) = None
  ∧ open_instances (discovery r.2) = ∅
  ∧ vision_pro_devices (globals (world r.2)) = ∅
  ∧ current_connection (globals (world r.2)) = current_connection (globals (world a))
  ∧ outside (world r.2) = outside (world a)
  ∧ VSP_OT_StopDiscovery false r.2 = (Some POLL_FAILED, r.2)
  ∧ discover_poll r.2 = true.
Proof.
  apply (stop_discovery_returns_to_idle
           (run_addon true [Discover DiscoveryStarted true;
                            Listener (AddService sample_name
                                        (Resolved sample_name sample_device))])
           false).
  - vm_compute. reflexivity.
  - reflexivity.
Defined.



(** ** [unregister] *)

(** In every state the add-on reaches (every earlier [close()] having
    returned), [unregister] with a [close()] that returns leaves no
    connected socket, no open Zeroconf instance and the globals reset. *)
Theorem unregister_releases_everything (available : bool)
    (xs : list AddonAction) :
  forallb closes_return xs = true →
  let r := unregister true (run_addon available xs) in
  r.1 = true
  ∧ live_sockets (outside (world r.2)) = ∅
  ∧ open_instances (discovery r.2) = ∅
  ∧ current_connection (globals (world r.2)) = None
  ∧ streaming_thread (globals (world r.2)) = None
  ∧ stop_streaming_event (globals (world r.2)) = false
  ∧ vision_pro_devices (globals (world r.2)) = ∅
  ∧ zeroconf_instance (discovery r.2) = None
  ∧ zeroconf_browser (discovery r.2) = None.
Proof.
  intros Hc. cbn zeta.
  destruct (run_addon_invariants available xs Hc) as [Hci Hdi].
  set (a := run_addon available xs) in *.
  unfold connection_invariant in Hci. unfold discovery_invariant in Hdi.
  unfold unregister.
  set (w1 := match streaming_thread (globals (world a)) with
             | Some true => _
             | _ => world a
             end).
  assert (H1 : current_connection (globals w1) = current_connection (globals (world a))
               ∧ outside w1 = outside (world a)).
  { unfold w1. by destruct (streaming_thread (globals (world a))) as [[|]|]. }
  destruct H1 as [H1 H2].
  set (w2 := match current_connection (globals w1) with
             | Some s => _
             | None => w1
             end).
  assert (H3 : live_sockets (outside w2) = ∅).
  { unfold w2. rewrite H1.
    destruct (current_connection (globals (world a))) as [s|]; cbn; rewrite H2, Hci.
    - apply difference_diag_L.
    - done. }
  cbn [discovery].
  destruct (zeroconf_instance (discovery a)) as [i|] eqn:Hi; cbn;
    rewrite ?Hdi, H3; split_and!; try done.
  apply difference_diag_L.
Qed.

Lemma unregister_releases_everything_witness :
  let r := unregister true
             (run_addon true
                [Discover DiscoveryStarted true;
                 Listener (AddService sample_name
                             (Resolved sample_name sample_device));
                 Refresh [sample_name];
                 Core (Connect ConnectSucceeds);
                 Core (StartStreamingOp sample_time)]) in
  r.1 = true
  ∧ live_sockets (outside (world r.2)) = ∅
  ∧ open_instances (discovery r.2) = ∅
  ∧ current_connection (globals (world r.2)) = None
  ∧ streaming_thread (globals (world r.2)) = None
  ∧ stop_streaming_event (globals (world r.2)) = false
  ∧ vision_pro_devices (globals (world r.2)) = ∅
  ∧ zeroconf_instance (discovery r.2) = None
  ∧ zeroconf_browser (discovery r.2) = None.
Proof.
  apply (unregister_releases_everything true
           [Discover DiscoveryStarted true;
            Listener (AddService sample_name (Resolved sample_name sample_device));
            Refresh [sample_name];
            Core (Connect ConnectSucceeds);
            Core (StartStreamingOp sample_time)]).
  reflexivity.
Defined.

(** The run of the witness above does connect: discovery, a resolved
    service, a refresh that selects it, Connect, Start Streaming. *)
Example discovered_device_gets_connected :
  let a := run_addon true
             [Discover DiscoveryStarted true;
              Listener (AddService sample_name
                          (Resolved sample_name sample_device));
              Refresh [sample_name];
              Core (Connect ConnectSucceeds);
              Core (StartStreamingOp sample_time)] in
  selected_device_name (scene (world a)) = sample_name
  ∧ current_connection (globals (world a)) = Some 0%nat
  ∧ streaming_thread (globals (world a)) = Some true
  ∧ zeroconf_instance (discovery a) = Some 0%nat.
Proof. vm_compute. done. Qed.

(** * The frame rate, the first cycles and the idle session *)

(** ** C6: which frame rate the backoff uses *)

(** C6 (the code departs from it). An iteration whose export fails,
    times out or produces no data sends nothing, registers the failure
    status and leaves through [continue]; but the backoff it sleeps is
    [1 / scene.render.fps], Blender's render frame rate.  The add-on's
    own "Stream FPS" property is not read: whatever it is set to, the
    iteration emits the same events, the same sleep among them. *)
Theorem export_failure_backoff_ignores_stream_fps (c : Cycle) (w : World)
    (stream_fps : positive) :
  gate_closed c w = false →
  export_lock (globals w) = false →
  mkdtemp_error c = None →
  (∀ P, export c ≠ Exported P) →
  let w' := with_scene (set_props_render_fps stream_fps) w in
  let r := loop_body c w' in
  props_render_fps (scene w') = stream_fps
  ∧ outcome_of r = Continue
  ∧ sent_bytes r = wire (outside w)
  ∧ events_of r
    = export_events c w
      ++ [Register (StatusUpdate ExportFailedTimedOut);
          Sleep (1 # render_fps (scene w))]
  ∧ events_of r = events_of (loop_body c w).
Proof.
  intros Hg Hl Hm He. cbn zeta.
  assert (Hev : ∀ w0, gate_closed c w0 = false → export_lock (globals w0) = false →
                  outcome_of (loop_body c w0) = Continue
                  ∧ sent_bytes (loop_body c w0) = wire (outside w0)
                  ∧ events_of (loop_body c w0)
                    = export_events c w0
                      ++ [Register (StatusUpdate ExportFailedTimedOut);
                          Sleep (1 # render_fps (scene w0))]).
  { intros w0 Hg0 Hl0. rewrite loop_body_export by done.
    set (wl := with_globals (set_export_lock true) w0).
    pose proof (export_and_send_failed c wl Hm He) as Hrun.
    rewrite (try_finally_release_events _ _ _ _ _ Hrun).
    rewrite (try_finally_release_wire _ _ _ _ _ Hrun).
    rewrite (try_finally_release _ _ _ _ _ Hrun), wire_after_wait.
    by destruct (pending_changes_during_export _). }
  destruct (Hev w Hg Hl) as (_ & _ & E0).
  destruct (Hev (with_scene (set_props_render_fps stream_fps) w) Hg Hl)
    as (E1 & E2 & E3).
  split_and!; [done|done|done|exact E3|].
  rewrite E3, E0. reflexivity.
Qed.

Lemma export_failure_backoff_ignores_stream_fps_witness :
  let r := loop_body (timed_out_cycle sample_time) stream_fps_60_world in
  props_render_fps (scene stream_fps_60_world) = 60%positive
  ∧ outcome_of r = Continue
  ∧ sent_bytes r = wire (outside streaming_world)
  ∧ events_of r
    = export_events (timed_out_cycle sample_time) streaming_world
      ++ [Register (StatusUpdate ExportFailedTimedOut); Sleep (1 # 30)]
  ∧ events_of r
    = events_of (loop_body (timed_out_cycle sample_time) streaming_world).
Proof.
  apply (export_failure_backoff_ignores_stream_fps
           (timed_out_cycle sample_time) streaming_world 60).
  - vm_compute. reflexivity.
  - reflexivity.
  - reflexivity.
  - intros P. simpl. discriminate.
Defined.

(** With "Stream FPS" at 60 the backoff of a failed export is still a
    thirtieth of a second, and no sleep of a sixtieth occurs. *)
Example backoff_with_stream_fps_60 :
  List.filter is_sleep
    (events_of (loop_body (timed_out_cycle sample_time) stream_fps_60_world))
  = [Sleep (1 # 30)].
Proof. vm_compute. reflexivity. Qed.

(** ** C10: the first cycles of a session *)

Lemma quiet_externals_keep_stop xs w :
  forallb is_quiet xs = true →
  ¬ In StopStreaming xs →
  stop_streaming_event (globals (foldl apply_external w xs))
  = stop_streaming_event (globals w).
Proof.
  revert w. induction xs as [|x xs IH]; intros w Hq Hn; [done|].
  cbn [forallb] in Hq. apply andb_true_iff in Hq as [Hx Hxs].
  cbn [foldl]. rewrite IH; [|done|intros H; apply Hn; by right].
  destruct x; try discriminate; [|done].
  destruct Hn. by left.
Qed.

Lemma export_requests_app evs1 evs2 :
  export_requests (evs1 ++ evs2)
  = (export_requests evs1 + export_requests evs2)%nat.
Proof. unfold export_requests. by rewrite List.filter_app, length_app. Qed.

Lemma sendall_calls_app evs1 evs2 :
  sendall_calls (evs1 ++ evs2) = (sendall_calls evs1 + sendall_calls evs2)%nat.
Proof. unfold sendall_calls. by rewrite List.filter_app, length_app. Qed.

(** An iteration on which everything succeeds: one export request, one
    [sendall], the frame on the wire, no exception. *)
Lemma loop_body_succeeds c w P :
  gate_closed c w = false →
  export_lock (globals w) = false →
  mkdtemp_error c = None →
  export c = Exported P →
  Wire.len P < 2 ^ 32 →
  send c = SendCompleted →
  let r := loop_body c w in
  (∀ e, outcome_of r ≠ Raise e)
  ∧ sent_bytes r = wire (outside w) ++ cycle_frame c
  ∧ export_requests (events_of r) = 1%nat
  ∧ sendall_calls (events_of r) = 1%nat.
Proof.
  intros Hg Hl Hm He HL Hs. cbn zeta.
  rewrite loop_body_export by done.
  set (wl := with_globals (set_export_lock true) w).
  assert (Ho : Wire.to_bytes (Wire.len P) 4 = Some (big_endian32 (Wire.len P))).
  { apply to_bytes_big_endian32. unfold Wire.len in *. lia. }
  pose proof (export_and_send_sent c wl P _ Hm He Ho Hs) as Hrun.
  rewrite (try_finally_release_events _ _ _ _ _ Hrun).
  rewrite (try_finally_release_wire _ _ _ _ _ Hrun).
  rewrite (try_finally_release _ _ _ _ _ Hrun).
  unfold cycle_frame, export_events. rewrite He.
  split_and!.
  - by destruct (pending_changes_during_export _).
  - cbn. by rewrite wire_after_wait.
  - reflexivity.
  - reflexivity.
Qed.

(** A run of such turns: the thread is still looping at the end, every
    turn has scheduled its export and called [sendall] once, and the
    peer has received the frames in order. *)
Lemma while_not_stopped_first_cycles sched w t0 :
  stream_only_when_active (scene w) = true →
  last_model_change_time (globals w) = t0 →
  export_lock (globals w) = false →
  stop_streaming_event (globals w) = false →
  Forall (first_cycle t0 (inactivity_threshold (scene w))) sched →
  let r := while_not_stopped sched w in
  outcome_of r = Normal StillRunning
  ∧ sent_bytes r
    = wire (outside w) ++ concat (map (λ st, cycle_frame (cycle st)) sched)
  ∧ export_requests (events_of r) = length sched
  ∧ sendall_calls (events_of r) = length sched.
Proof.
  revert w. induction sched as [|st sched IH]; intros w Hs Ht Hl Hstop Hf.
  - cbn. unfold sent_bytes. cbn. by rewrite app_nil_r.
  - apply Forall_cons in Hf as [(Hu & Hns & Hnow & Hm & (P & He & HL) & Hsd) Hf].
    destruct Hu as [Hq _]. cbn [while_not_stopped].
    set (w0 := foldl apply_external w (before st)).
    destruct (quiet_externals_keep (before st) w Hq) as (K1 & K2 & K3 & K4 & K5).
    pose proof (quiet_externals_keep_stop (before st) w Hq Hns) as K6.
    fold w0 in K1, K2, K3, K4, K5, K6.
    rewrite K6, Hstop.
    assert (Hg : gate_closed (cycle st) w0 = false).
    { apply gate_open_iff. right. by rewrite K2, K3, Ht. }
    assert (Hl0 : export_lock (globals w0) = false) by (by rewrite K5).
    destruct (loop_body_succeeds (cycle st) w0 P Hg Hl0 Hm He HL Hsd)
      as (B1 & B2 & B3 & B4).
    destruct (loop_body_frame (cycle st) w0)
      as (F1 & _ & _ & _ & F5 & F6 & _ & _ & F9).
    cbn zeta in *.
    destruct (loop_body (cycle st) w0) as [[o w1] ev1].
    unfold outcome_of, world_of, events_of, sent_bytes in *. cbn [fst snd] in *.
    destruct (IH w1) as (I1 & I2 & I3 & I4).
    { by rewrite F1, K1. }
    { by rewrite F6, K3. }
    { by apply F9. }
    { by rewrite F5, K6. }
    { by rewrite F1, K2. }
    destruct (while_not_stopped sched w1) as [[o2 w2] ev2].
    unfold outcome_of, world_of, events_of, sent_bytes in *. cbn [fst snd] in *.
    assert (Hres : o2 = Normal StillRunning
                   ∧ wire (outside w2)
                     = wire (outside w)
                       ++ concat (map (λ st, cycle_frame (cycle st)) (st :: sched))
                   ∧ export_requests (ev1 ++ ev2) = length (st :: sched)
                   ∧ sendall_calls (ev1 ++ ev2) = length (st :: sched)).
    { rewrite export_requests_app, sendall_calls_app, B3, B4, I3, I4, I2, B2, K4.
      cbn [map concat length]. by rewrite <- app_assoc. }
    destruct o as [[]| |e]; [exact Hres|exact Hres|by destruct (B1 e)].
Qed.

(** C10. When start-streaming spawns the worker with
    [stream_only_when_active] set, it has stored the current time in
    [last_model_change_time] first, so that the gate is open at that
    time.  The session therefore begins with cycles that export and
    send although the handler is never called: on a run of turns that
    each begin less than [inactivity_threshold] after the start (and on
    which export and [sendall] succeed), the thread schedules one
    export and calls [sendall] once per turn, the peer receives the
    frames in order, and the thread is still looping.  After any
    undisturbed beginning of the session, an iteration that begins
    within the threshold gets past the gate and schedules the export. *)
Theorem start_streaming_begins_active
    (w0 : World) (t0 : Q) (w1 : World) :
  stream_only_when_active (scene w0) = true →
  (0 < inactivity_threshold (scene w0))%Q →
  export_lock (globals w0) = false →
  start_streaming_execute t0 w0 = (FINISHED, w1) →
  last_model_change_time (globals w1) = t0
  ∧ streaming_thread (globals w1) = Some true
  ∧ (∀ c, now c = t0 → gate_closed c w1 = false)
  ∧ (∀ sched rmtree_ok,
       Forall (first_cycle t0 (inactivity_threshold (scene w0))) sched →
       let r := stream_scene_data sched rmtree_ok w1 in
       outcome_of r = Normal StillRunning
       ∧ sent_bytes r
         = wire (outside w1) ++ concat (map (λ st, cycle_frame (cycle st)) sched)
       ∧ export_requests (events_of r) = length sched
       ∧ sendall_calls (events_of r) = length sched)
  ∧ (∀ early rmtree_ok w2 ev c,
       Forall undisturbed early →
       stream_scene_data early rmtree_ok w1 = (Normal StillRunning, w2, ev) →
       (now c - t0 < inactivity_threshold (scene w0))%Q →
       mkdtemp_error c = None →
       (∃ evs, events_of (loop_body c w2)
               = Mkdtemp (next_dir (outside w2))
                 :: Register (ExportCallback (next_dir (outside w2))) :: evs)
       ∧ (∀ P, export c = Exported P →
               Wire.len P < 2 ^ 32 →
               send c = SendCompleted →
               sent_bytes (loop_body c w2)
               = wire (outside w2) ++ big_endian32 (Wire.len P) ++ P)).
Proof.
  intros Hs Hth Hl Hstart.
  destruct (start_streaming_finished _ _ _ Hstart) as (S1 & S2 & S3 & S4 & S5 & S6).
  rewrite Hs in S6. split_and!; [done|done| | |].
  - intros c Hc. apply gate_open_iff. right.
    rewrite S6, S1, Hc. cbn.
    assert (Hz : (t0 - t0 == 0)%Q) by ring. by rewrite Hz.
  - intros sched rmtree_ok Hf. cbn zeta.
    destruct (while_not_stopped_first_cycles sched (set_temp_dir None w1) t0)
      as (W1 & W2 & W3 & W4).
    { cbn. by rewrite S1. }
    { exact S6. }
    { cbn. by rewrite S3. }
    { exact S4. }
    { cbn. by rewrite S1. }
    unfold stream_scene_data. rewrite stream_enter_while.
    destruct (while_not_stopped sched (set_temp_dir None w1)) as [[o w2] ev].
    unfold outcome_of, world_of, events_of, sent_bytes in *. cbn [fst snd] in *.
    subst o. cbn [fst snd]. split_and!; [done|exact W2|exact W3|exact W4].
  - intros early rmtree_ok w2 ev c Hu Hrun Hnow Hm.
    apply stream_scene_data_running in Hrun.
    destruct (while_not_stopped_keeps early (set_temp_dir None w1) Hu)
      as (K1 & K2 & K3 & K4).
    cbn zeta in K1, K2, K3, K4. rewrite Hrun in K1, K2, K3, K4.
    unfold world_of in *. cbn [fst snd set_temp_dir scene globals] in *.
    rewrite S1 in K1, K2. cbn in K1, K2.
    assert (Hg : gate_closed c w2 = false).
    { apply gate_open_iff. right. by rewrite K2, K3, S6. }
    assert (Hl2 : export_lock (globals w2) = false).
    { apply K4. by rewrite S3. }
    split.
    + by apply loop_body_requests_export.
    + intros P He HL Hsd. by apply loop_body_sends.
Qed.

Lemma start_streaming_begins_active_witness :
  let sched := [{| before := []; cycle := good_cycle sample_time |};
                {| before := []; cycle := good_cycle (sample_time + 1) |}] in
  let r := stream_scene_data sched true streaming_world in
  last_model_change_time (globals streaming_world) = sample_time
  ∧ streaming_thread (globals streaming_world) = Some true
  ∧ outcome_of r = Normal StillRunning
  ∧ sent_bytes r
    = wire (outside streaming_world)
      ++ concat (map (λ st, cycle_frame (cycle st)) sched)
  ∧ export_requests (events_of r) = 2%nat
  ∧ sendall_calls (events_of r) = 2%nat.
Proof.
  assert (Hs : stream_only_when_active (scene connected_world) = true)
    by reflexivity.
  assert (Hth : (0 < inactivity_threshold (scene connected_world))%Q)
    by reflexivity.
  assert (Hl : export_lock (globals connected_world) = false) by reflexivity.
  assert (Hst : start_streaming_execute sample_time connected_world
                = (FINISHED, streaming_world)) by reflexivity.
  destruct (start_streaming_begins_active _ _ _ Hs Hth Hl Hst)
    as (H1 & H2 & _ & H4 & _).
  split; [exact H1|]. split; [exact H2|].
  apply (H4 [{| before := []; cycle := good_cycle sample_time |};
             {| before := []; cycle := good_cycle (sample_time + 1) |}] true).
  apply Forall_cons. split; [|apply Forall_cons; split; [|by apply Forall_nil]].
  - unfold first_cycle, undisturbed. split_and!; try reflexivity.
    + intros [].
    + exists sample_payload. split; reflexivity.
  - unfold first_cycle, undisturbed. split_and!; try reflexivity.
    + intros [].
    + exists sample_payload. split; reflexivity.
Defined.

(** ** C4: idle once the threshold has passed *)

(** The idle turns, event by event: each turn that is run registers
    the idle status with the time since the last change and sleeps
    half a second; the run stops early only at a stop request. *)
Lemma while_not_stopped_idle_exact late w t0 :
  stream_only_when_active (scene w) = true →
  last_model_change_time (globals w) = t0 →
  Forall undisturbed late →
  Forall (λ st, (inactivity_threshold (scene w) <= now (cycle st) - t0)%Q) late →
  let r := while_not_stopped late w in
  ∃ k, events_of r = flat_map (idle_events t0) (take k late)
       ∧ ((outcome_of r = Normal StillRunning ∧ k = length late)
          ∨ (outcome_of r = Normal Exited ∧ (k < length late)%nat)).
Proof.
  revert w. induction late as [|st late IH]; intros w Hs Ht Hu Hlate.
  - exists 0%nat. cbn. split; [done|by left].
  - apply Forall_cons in Hu as [[Hq _] Hu]. apply Forall_cons in Hlate as [Hnow Hlate].
    cbn [while_not_stopped].
    set (w0 := foldl apply_external w (before st)).
    destruct (quiet_externals_keep (before st) w Hq) as (K1 & K2 & K3 & K4 & K5).
    fold w0 in K1, K2, K3, K4, K5.
    destruct (stop_streaming_event (globals w0)).
    { exists 0%nat. cbn. split; [done|right]. split; [done|lia]. }
    assert (Hg : gate_closed (cycle st) w0 = true).
    { apply gate_closed_iff. by rewrite K1, K2, K3, Ht. }
    rewrite (loop_body_idle _ _ Hg).
    destruct (IH w0) as (k & E & Hk).
    { by rewrite K1. }
    { by rewrite K3. }
    { done. }
    { by rewrite K2. }
    cbn zeta in E, Hk.
    destruct (while_not_stopped late w0) as [[o2 w2] ev2].
    unfold events_of, outcome_of in *. cbn [fst snd] in *.
    exists (S k). cbn [take flat_map length]. split.
    + unfold idle_events at 1. rewrite K3, Ht, E. reflexivity.
    + destruct Hk as [[-> ->]|[-> Hk]]; [by left|right; split; [done|lia]].
Qed.

(** C4, amended. With [stream_only_when_active] set and the handler
    never called: the iterations that begin once [inactivity_threshold]
    has passed since start-streaming stamped [last_model_change_time]
    skip export and send, and each one that is run registers the idle
    status and sleeps half a second, so that nothing more reaches the
    peer for the rest of the session; an iteration that begins before
    that passes the activity gate. *)
Theorem idle_once_threshold_passed_since_start
    (w0 : World) (t0 : Q) (w1 : World) (early late : list Step)
    (rmtree_ok : bool) :
  stream_only_when_active (scene w0) = true →
  start_streaming_execute t0 w0 = (FINISHED, w1) →
  Forall undisturbed early →
  Forall undisturbed late →
  Forall (λ st, (inactivity_threshold (scene w0) <= now (cycle st) - t0)%Q) late →
  sent_bytes (stream_scene_data (early ++ late) rmtree_ok w1)
  = sent_bytes (stream_scene_data early rmtree_ok w1)
  ∧ (∀ w2 ev,
       stream_scene_data early rmtree_ok w1 = (Normal StillRunning, w2, ev) →
       let r := while_not_stopped late w2 in
       sent_bytes r = wire (outside w2)
       ∧ Forall idle_event (events_of r)
       ∧ (∀ e, outcome_of r ≠ Raise e)
       ∧ ∃ k, events_of r = flat_map (idle_events t0) (take k late)
              ∧ ((outcome_of r = Normal StillRunning ∧ k = length late)
                 ∨ (outcome_of r = Normal Exited ∧ (k < length late)%nat)))
  ∧ (∀ w2 ev st,
       stream_scene_data early rmtree_ok w1 = (Normal StillRunning, w2, ev) →
       undisturbed st →
       (now (cycle st) - t0 < inactivity_threshold (scene w0))%Q →
       let w' := foldl apply_external w2 (before st) in
       gate_closed (cycle st) w' = false
       ∧ loop_body (cycle st) w' = guarded_export (cycle st) w').
Proof.
  intros Hs Hstart Hue Hul Hlate.
  destruct (start_streaming_finished _ _ _ Hstart) as (S1 & _ & _ & _ & _ & S6).
  rewrite Hs in S6.
  set (w1' := set_temp_dir None w1).
  destruct (while_not_stopped_keeps early w1' Hue) as (K1 & K2 & K3 & _).
  cbn zeta in K1, K2, K3.
  assert (Hkept : ∀ w2 ev1,
            while_not_stopped early w1' = (Normal StillRunning, w2, ev1) →
            stream_only_when_active (scene w2) = true
            ∧ inactivity_threshold (scene w2) = inactivity_threshold (scene w0)
            ∧ last_model_change_time (globals w2) = t0).
  { intros w2 ev1 Hrun. rewrite Hrun in K1, K2, K3. unfold world_of in *.
    cbn [fst snd] in K1, K2, K3. rewrite K1, K2, K3. unfold w1'. cbn.
    rewrite S1, S6. by repeat split. }
  assert (Hidle : ∀ w2 ev1,
            while_not_stopped early w1' = (Normal StillRunning, w2, ev1) →
            let r := while_not_stopped late w2 in
            sent_bytes r = wire (outside w2)
            ∧ Forall idle_event (events_of r)
            ∧ (∀ e, outcome_of r ≠ Raise e)).
  { intros w2 ev1 Hrun. destruct (Hkept w2 ev1 Hrun) as (H1 & H2 & H3).
    apply while_not_stopped_idle; [done|done|by rewrite H2, H3]. }
  split_and!.
  - unfold stream_scene_data. rewrite !stream_enter_while. fold w1'.
    rewrite while_not_stopped_app.
    destruct (while_not_stopped early w1') as [[o w2] ev1] eqn:Hrun.
    destruct o as [[]| |e]; try reflexivity.
    destruct (Hidle w2 ev1 eq_refl) as (I1 & _ & I3).
    destruct (while_not_stopped late w2) as [[o3 w3] ev3].
    unfold outcome_of, world_of, events_of, sent_bytes in *. cbn [fst snd] in *.
    destruct o3 as [[]| |e].
    + pose proof (stream_exit_wire (Normal Exited) rmtree_ok w3) as Hx.
      unfold sent_bytes, world_of in Hx.
      destruct (stream_exit _ _ w3) as [[??]?]. cbn in *. congruence.
    + done.
    + pose proof (stream_exit_wire Continue rmtree_ok w3) as Hx.
      unfold sent_bytes, world_of in Hx.
      destruct (stream_exit _ _ w3) as [[??]?]. cbn in *. congruence.
    + by destruct (I3 e).
  - intros w2 ev Hrun. apply stream_scene_data_running in Hrun.
    destruct (Hidle w2 (tail ev) Hrun) as (I1 & I2 & I3).
    destruct (Hkept w2 (tail ev) Hrun) as (H1 & H2 & H3).
    split_and!; try done.
    apply while_not_stopped_idle_exact; [done|done|done|by rewrite H2].
  - intros w2 ev st Hrun [Hq _] Hnow. apply stream_scene_data_running in Hrun.
    destruct (Hkept w2 (tail ev) Hrun) as (H1 & H2 & H3).
    destruct (quiet_externals_keep (before st) w2 Hq) as (_ & Q2 & Q3 & _).
    cbn zeta.
    assert (Hg : gate_closed (cycle st) (foldl apply_external w2 (before st))
                 = false).
    { apply gate_open_iff. right. by rewrite Q2, Q3, H2, H3. }
    split; [done|by apply loop_body_active].
Qed.

Lemma idle_once_threshold_passed_since_start_witness :
  let early := [{| before := []; cycle := good_cycle sample_time |}] in
  let late := [{| before := []; cycle := good_cycle (sample_time + 3) |};
               {| before := []; cycle := good_cycle (sample_time + 4) |}] in
  sent_bytes (stream_scene_data (early ++ late) true streaming_world)
  = sent_bytes (stream_scene_data early true streaming_world)
  ∧ (∀ w2 ev,
       stream_scene_data early true streaming_world = (Normal StillRunning, w2, ev) →
       let r := while_not_stopped late w2 in
       sent_bytes r = wire (outside w2)
       ∧ Forall idle_event (events_of r)
       ∧ (∀ e, outcome_of r ≠ Raise e)
       ∧ ∃ k, events_of r = flat_map (idle_events sample_time) (take k late)
              ∧ ((outcome_of r = Normal StillRunning ∧ k = length late)
                 ∨ (outcome_of r = Normal Exited ∧ (k < length late)%nat)))
  ∧ (∀ w2 ev st,
       stream_scene_data early true streaming_world = (Normal StillRunning, w2, ev) →
       undisturbed st →
       (now (cycle st) - sample_time < inactivity_threshold (scene connected_world))%Q →
       let w' := foldl apply_external w2 (before st) in
       gate_closed (cycle st) w' = false
       ∧ loop_body (cycle st) w' = guarded_export (cycle st) w').
Proof.
  apply (idle_once_threshold_passed_since_start
           connected_world sample_time streaming_world).
  - reflexivity.
  - reflexivity.
  - repeat constructor.
  - repeat constructor.
  - repeat constructor; vm_compute; discriminate.
Defined.

(** The session of the witness, run: one cycle sends, the two late
    ones register the idle status and sleep, and the thread is still
    looping. *)
Example late_cycles_report_idle :
  let r := stream_scene_data
             [{| before := []; cycle := good_cycle sample_time |};
              {| before := []; cycle := good_cycle (sample_time + 3) |};
              {| before := []; cycle := good_cycle (sample_time + 4) |}]
             true streaming_world in
  outcome_of r = Normal StillRunning
  ∧ sendall_calls (events_of r) = 1%nat
  ∧ drop 6 (events_of r)
    = [Register (StatusUpdate (Idle (sample_time + 3 - sample_time))); Sleep (1 # 2);
       Register (StatusUpdate (Idle (sample_time + 4 - sample_time))); Sleep (1 # 2)].
Proof. vm_compute. done. Qed.
